(** * GlobalTrend weather client: the cache-aware fetch layer

    A shallow embedding of [src/utils/cache_manager.py] (class
    [CacheManager]), [src/utils/exceptions.py] and the fetch path of
    [src/services/weather_service.py] ([WeatherService._build_url],
    [WeatherService._fetch_data]), with the properties the specification
    states about them.

    Python code that raises, catches and mutates is written in a small
    state-and-exception monad [py].  The state [world] holds what the code
    can touch: the cache directory, the dictionaries callers share with the
    service, the requests sent upstream and the lines printed.  What the
    environment decides (clock readings, the upstream's answer, whether the
    disk accepts a write) is passed in explicitly.

    The second half covers the rest of the application, with properties
    read off the code: the public methods of [WeatherService], the models
    of [src/models/weather_models.py], the routes of
    [src/api/weather_routes.py] and the health check of [src/main.py]. *)

From stdpp Require Import base gmap strings list pretty.
From Stdlib Require Import ZArith Lia Ascii Floats.

Local Open Scope Z_scope.
Local Set Warnings "-register-all".

(* ================================================================== *)
(** ** Exceptions *)
(* ================================================================== *)

(** The exception classes the code names, raises or lets through: the
    builtins involved, the part of httpx's hierarchy the [except] clauses
    of [_fetch_data] discriminate, and the five classes of
    [src/utils/exceptions.py] under [WeatherAPIException]. *)
Inductive cls : Set :=
  | Exception
  | ValueError | JSONDecodeError | UnicodeError
  | LookupError | KeyError
  | TypeError
  | ArithmeticError | OverflowError
  | OSError | FileNotFoundError | PermissionError
  | httpx_HTTPError | httpx_RequestError | httpx_TransportError
  | httpx_TimeoutException | httpx_ConnectTimeout | httpx_ReadTimeout
  | httpx_NetworkError | httpx_ConnectError | httpx_ReadError
  | httpx_ProtocolError | httpx_TooManyRedirects
  | httpx_InvalidURL
  | WeatherAPIException
  | NetworkException | TimeoutException | InvalidResponseException
  | APIKeyException | CityNotFoundException.

Global Instance cls_eq_dec : EqDecision cls.
Proof. solve_decision. Defined.

(** The direct base class; [Exception] is the root of what is modelled. *)
Definition base_class (c : cls) : option cls :=
  match c with
  | Exception => None
  | ValueError => Some Exception
  | JSONDecodeError => Some ValueError
  | UnicodeError => Some ValueError
  | LookupError => Some Exception
  | KeyError => Some LookupError
  | TypeError => Some Exception
  | ArithmeticError => Some Exception
  | OverflowError => Some ArithmeticError
  | OSError => Some Exception
  | FileNotFoundError => Some OSError
  | PermissionError => Some OSError
  | httpx_HTTPError => Some Exception
  | httpx_RequestError => Some httpx_HTTPError
  | httpx_TransportError => Some httpx_RequestError
  | httpx_TimeoutException => Some httpx_TransportError
  | httpx_ConnectTimeout => Some httpx_TimeoutException
  | httpx_ReadTimeout => Some httpx_TimeoutException
  | httpx_NetworkError => Some httpx_TransportError
  | httpx_ConnectError => Some httpx_NetworkError
  | httpx_ReadError => Some httpx_NetworkError
  | httpx_ProtocolError => Some httpx_TransportError
  | httpx_TooManyRedirects => Some httpx_RequestError
  | httpx_InvalidURL => Some Exception
  | WeatherAPIException => Some Exception
  | NetworkException => Some WeatherAPIException
  | TimeoutException => Some WeatherAPIException
  | InvalidResponseException => Some WeatherAPIException
  | APIKeyException => Some WeatherAPIException
  | CityNotFoundException => Some WeatherAPIException
  end.

(** [issubclass c d]: [d] is [c] or one of its bases.  The hierarchy above
    is at most six classes deep. *)
Fixpoint issubclass_upto (depth : nat) (c d : cls) : bool :=
  bool_decide (c = d) ||
  match depth, base_class c with
  | S depth', Some b => issubclass_upto depth' b d
  | _, _ => false
  end.

Definition issubclass : cls → cls → bool := issubclass_upto 6.

(** An exception object: its class and its text ([str(e)]).  The text is
    what the program formats itself, what the environment supplies with a
    fault, or CPython's wording where that is fixed; where the wording
    depends on the platform or the input's position it is left empty. *)
Record exn : Set := Exn { exn_cls : cls; exn_msg : string }.

Global Instance exn_eq_dec : EqDecision exn.
Proof. solve_decision. Defined.

(* ================================================================== *)
(** ** Values: JSON documents, request parameters, datetimes *)
(* ================================================================== *)

(** What [json.load] and [response.json()] produce.  An object keeps its
    members in document order. *)
Inductive json : Set :=
  | JNull
  | JBool (b : bool)
  | JNum (n : Z)
  | JFloat (mantissa exponent : Z)
  | JStr (s : string)
  | JArr (items : list json)
  | JObj (members : list (string * json)).

(** Python builds the [dict] of an object left to right, so a repeated
    member name keeps its last value. *)
Fixpoint members_get (k : string) (ms : list (string * json)) : option json :=
  match ms with
  | [] => None
  | (k', v) :: rest =>
      match members_get k rest with
      | Some v' => Some v'
      | None => if String.eqb k' k then Some v else None
      end
  end.

(** A value of the request-parameter dictionary: the callers put city
    names ([str]) and identifiers or counts ([int]) there. *)
Inductive pyval : Set :=
  | PStr (s : string)
  | PInt (n : Z).

(** [str(v)], as an f-string formats it. *)
Definition str (v : pyval) : string :=
  match v with
  | PStr s => s
  | PInt n => pretty n
  end.

(** A [dict] with string keys, in insertion order. *)
Definition pydict : Set := list (string * pyval).

(** [d[k] = v]: an existing key keeps its position, a new one goes last. *)
Fixpoint dict_setitem (k : string) (v : pyval) (d : pydict) : pydict :=
  match d with
  | [] => [(k, v)]
  | (k', v') :: rest =>
      if String.eqb k' k then (k', v) :: rest
      else (k', v') :: dict_setitem k v rest
  end.

(** [d.get(k, default)]. *)
Fixpoint dict_get (k : string) (default : pyval) (d : pydict) : pyval :=
  match d with
  | [] => default
  | (k', v) :: rest => if String.eqb k' k then v else dict_get k default rest
  end.

Fixpoint dict_lookup (k : string) (d : pydict) : option pyval :=
  match d with
  | [] => None
  | (k', v) :: rest => if String.eqb k' k then Some v else dict_lookup k rest
  end.

(** [sep.join(parts)]. *)
Fixpoint join (sep : string) (parts : list string) : string :=
  match parts with
  | [] => ""
  | [p] => p
  | p :: rest => p +:+ sep +:+ join sep rest
  end.

(** *** datetime and timedelta *)

(** A [datetime] as CPython stores it: the calendar fields, and the UTC
    offset in seconds when the value is timezone-aware. *)
Record datetime : Set := Datetime {
  year : Z; month : Z; day : Z;
  hour : Z; minute : Z; second : Z; microsecond : Z;
  utcoffset : option Z
}.

Global Instance datetime_eq_dec : EqDecision datetime.
Proof. solve_decision. Defined.

Definition _is_leap (y : Z) : bool :=
  (y mod 4 =? 0) && (negb (y mod 100 =? 0) || (y mod 400 =? 0)).

Definition _days_before_year (y : Z) : Z :=
  let p := y - 1 in p * 365 + p / 4 - p / 100 + p / 400.

Definition _days_in_month (y m : Z) : Z :=
  if (m =? 2) && _is_leap y then 29
  else nth (Z.to_nat m) [0; 31; 28; 31; 30; 31; 30; 31; 31; 30; 31; 30; 31] 0.

Definition _days_before_month (y m : Z) : Z :=
  nth (Z.to_nat m) [0; 0; 31; 59; 90; 120; 151; 181; 212; 243; 273; 304; 334] 0
  + (if (2 <? m) && _is_leap y then 1 else 0).

Definition toordinal (d : datetime) : Z :=
  _days_before_year (year d) + _days_before_month (year d) (month d) + day d.

(** The fields of a value the [datetime] constructor accepts. *)
Definition valid_datetime (d : datetime) : bool :=
  (1 <=? year d) && (year d <=? 9999) &&
  (1 <=? month d) && (month d <=? 12) &&
  (1 <=? day d) && (day d <=? _days_in_month (year d) (month d)) &&
  (0 <=? hour d) && (hour d <? 24) &&
  (0 <=? minute d) && (minute d <? 60) &&
  (0 <=? second d) && (second d <? 60) &&
  (0 <=? microsecond d) && (microsecond d <? 1000000).

(** A [timedelta], as its total number of microseconds. *)
Definition timedelta : Set := Z.

(** Microseconds between 0001-01-01T00:00:00 and the wall-clock reading of
    [d]: what [datetime.__sub__] subtracts field by field. *)
Definition wall_us (d : datetime) : Z :=
  (toordinal d * 86400 + (second d + minute d * 60 + hour d * 3600)) * 1000000
  + microsecond d.

(** Seconds as a [timedelta] value. *)
Definition seconds_us (s : Z) : timedelta := s * 1000000.

(* ================================================================== *)
(** ** The world the code runs in *)
(* ================================================================== *)

(** What reading a file of the cache directory gives.  [Doc j] is a file
    whose text is the JSON document [j]; the other three are the ways
    [open] and [json.load] fail on a file that exists. *)
Inductive content : Set :=
  | Denied      (* open(...) raises PermissionError *)
  | NotUtf8     (* reading raises UnicodeDecodeError *)
  | NotJson     (* json.load raises JSONDecodeError; also a half-written file *)
  | Doc (j : json).

(** A reference to a dictionary object on the heap. *)
Definition ref : Set := nat.

Record world : Type := World {
  files : gmap string content;  (* the cache directory: file name to content *)
  pinned : gset string;         (* names the file system refuses to unlink *)
  heap : gmap ref pydict;       (* dictionary objects, by reference *)
  requests : list string;       (* URLs requested upstream, oldest first *)
  stdout : list string          (* lines printed, oldest first *)
}.

Definition with_files (f : gmap string content) (w : world) : world :=
  World f (pinned w) (heap w) (requests w) (stdout w).
Definition with_heap (h : gmap ref pydict) (w : world) : world :=
  World (files w) (pinned w) h (requests w) (stdout w).
Definition with_requests (r : list string) (w : world) : world :=
  World (files w) (pinned w) (heap w) r (stdout w).
Definition with_stdout (o : list string) (w : world) : world :=
  World (files w) (pinned w) (heap w) (requests w) o.

(** *** The monad *)

Inductive outcome (A : Type) : Type :=
  | Return (a : A)
  | Raise (e : exn).
Arguments Return {A} a.
Arguments Raise {A} e.

(** A computation: from a world to its outcome and the world it leaves.
    A raised exception keeps the effects that happened before it. *)
Definition py (A : Type) : Type := world → outcome A * world.

Definition ret {A} (a : A) : py A := λ w, (Return a, w).
Definition raise {A} (c : cls) (msg : string) : py A := λ w, (Raise (Exn c msg), w).
Definition reraise {A} (e : exn) : py A := λ w, (Raise e, w).

Definition bind {A B} (m : py A) (k : A → py B) : py B :=
  λ w, match m w with
       | (Return a, w') => k a w'
       | (Raise e, w') => (Raise e, w')
       end.

Declare Scope py_scope.
Delimit Scope py_scope with py.
Notation "'let*' x := m 'in' k" := (bind m (λ x, k))
  (at level 10, x name, m at level 100, k at level 200,
   format "'[v' 'let*'  x  :=  m  'in'  '/' k ']'") : py_scope.
Local Open Scope py_scope.

(** [except (C1, C2, ...) as e: handler]. *)
Definition except_clause (A : Type) : Type := list cls * (exn → py A).

Definition catches (classes : list cls) (e : exn) : bool :=
  existsb (issubclass (exn_cls e)) classes.

(** The first clause that matches handles the exception; with none, it
    propagates. *)
Fixpoint dispatch {A} (clauses : list (except_clause A)) (e : exn) : py A :=
  match clauses with
  | [] => reraise e
  | (classes, handler) :: rest =>
      if catches classes e then handler e else dispatch rest e
  end.

(** [try: body  except ...]. An exception raised by a handler is not
    handled by the same statement. *)
Definition try_except {A} (body : py A) (clauses : list (except_clause A)) : py A :=
  λ w, match body w with
       | (Return a, w') => (Return a, w')
       | (Raise e, w') => dispatch clauses e w'
       end.

(** *** File-system and console primitives *)

(** The longest file name the file system takes, in bytes ([NAME_MAX]). *)
Definition NAME_MAX : nat := 255.

(** The name is short enough for the file system to look it up. *)
Definition name_fits (name : string) : bool :=
  (String.length name <=? NAME_MAX)%nat.

(** [path.exists()]: true for a file that is there (its name is one the
    file system took); false for a name that is not there, unless the
    name is longer than the file system takes: then [stat] fails with
    [ENAMETOOLONG], an [OSError] that [exists] does not swallow. *)
Definition path_exists (name : string) : py bool :=
  λ w, match files w !! name with
       | Some _ => (Return true, w)
       | None =>
           if name_fits name then (Return false, w)
           else (Raise (Exn OSError ""), w)
       end.

(** [with open(name, 'r', encoding='utf-8') as f: json.load(f)]. *)
Definition json_load (name : string) : py json :=
  λ w, match files w !! name with
       | None => (Raise (Exn FileNotFoundError ""), w)
       | Some Denied => (Raise (Exn PermissionError ""), w)
       | Some NotUtf8 => (Raise (Exn UnicodeError ""), w)
       | Some NotJson => (Raise (Exn JSONDecodeError ""), w)
       | Some (Doc j) => (Return j, w)
       end.

(** [path.unlink(missing_ok=...)]. *)
Definition unlink (missing_ok : bool) (name : string) : py unit :=
  λ w, match files w !! name with
       | None =>
           if missing_ok then (Return tt, w)
           else (Raise (Exn FileNotFoundError ""), w)
       | Some _ =>
           if bool_decide (name ∈ pinned w) then (Raise (Exn PermissionError ""), w)
           else (Return tt, with_files (delete name (files w)) w)
       end.

(** How the disk answers one attempt to write a file. *)
Inductive write_outcome : Set :=
  | Written                 (* the whole document reached the file *)
  | OpenFailed (e : exn)    (* open(name, 'w') raised: nothing changed *)
  | DumpFailed (e : exn).   (* open truncated the file, json.dump raised midway *)

(** [with open(name, 'w', encoding='utf-8') as f: json.dump(doc, f, ...)]. *)
Definition json_dump (disk : write_outcome) (name : string) (doc : json) : py unit :=
  λ w, match disk with
       | Written => (Return tt, with_files (<[name := Doc doc]> (files w)) w)
       | OpenFailed e => (Raise e, w)
       | DumpFailed e => (Raise e, with_files (<[name := NotJson]> (files w)) w)
       end.

(** [print(line)]. *)
Definition print (line : string) : py unit :=
  λ w, (Return tt, with_stdout (stdout w ++ [line]) w).

(** [value[key]] on what [json.load] returned: only a [dict] can be indexed
    by a string. *)
Definition subscript (value : json) (key : string) : py json :=
  match value with
  | JObj ms =>
      match members_get key ms with
      | Some v => ret v
      | None => raise KeyError ("'" +:+ key +:+ "'")
      end
  | _ => raise TypeError ""
  end.

(** [a - b] on datetimes: mixing a naive and an aware value is a
    [TypeError]. *)
Definition datetime_sub (a b : datetime) : py timedelta :=
  match utcoffset a, utcoffset b with
  | None, None => ret (wall_us a - wall_us b)
  | Some oa, Some ob => ret (wall_us a - wall_us b + (ob - oa) * 1000000)
  | _, _ => raise TypeError "can't subtract offset-naive and offset-aware datetimes"
  end.

(** [timedelta(seconds=s)]: the constructor refuses more than 999999999
    days either way. *)
Definition timedelta_seconds (s : Z) : py timedelta :=
  if (-999999999 <=? s / 86400) && (s / 86400 <=? 999999999)
  then ret (seconds_us s)
  else raise OverflowError "".

(** *** ISO 8601 text of a datetime *)

(** [datetime.isoformat] and [datetime.fromisoformat] are library code;
    the cache only relies on the second undoing the first, which the
    library documents.  [fromisoformat] answers [None] where the library
    raises [ValueError]. *)
Class IsoFormat : Type := {
  isoformat : datetime → string;
  fromisoformat : string → option datetime;
  fromisoformat_isoformat d :
    valid_datetime d = true → utcoffset d = None →
    fromisoformat (isoformat d) = Some d
}.

(* ================================================================== *)
(** ** src/config/settings.py *)
(* ================================================================== *)

Record Settings : Set := {
  openweather_api_key : string;
  openweather_base_url : string;
  cache_expiry_seconds : Z;
  api_timeout : Z
}.

(** The defaults of the class body. *)
Definition default_settings : Settings :=
  {| openweather_api_key := "";
     openweather_base_url := "https://api.openweathermap.org/data/2.5";
     cache_expiry_seconds := 300;
     api_timeout := 10 |}.

(* ================================================================== *)
(** ** src/utils/cache_manager.py *)
(* ================================================================== *)

(** [s.replace(old, new)] for one-character [old] and [new]. *)
Fixpoint replace (old new : Ascii.ascii) (s : string) : string :=
  match s with
  | EmptyString => EmptyString
  | String c rest =>
      String (if Ascii.eqb c old then new else c) (replace old new rest)
  end.

(** [s.endswith(suffix)]. *)
Fixpoint ends_with (suffix s : string) : bool :=
  String.eqb s suffix ||
  match s with
  | EmptyString => false
  | String _ rest => ends_with suffix rest
  end.

(** What [get] hands back on a hit and [_fetch_data] returns: the
    dictionary with the keys ['data'], ['cached'] and ['cached_at']. *)
Record result : Set := Result {
  data : json;
  cached : bool;
  cached_at : option datetime
}.

Module CacheManager.

(** The instance: [self.expiry_seconds].  [self.cache_dir] is the
    directory [files] describes. *)
Record t : Set := { expiry_seconds : Z }.

(** [__init__]: [expiry_seconds or settings.cache_expiry_seconds], where
    Python's [or] also replaces a zero. *)
Definition __init__ (settings : Settings) (expiry : option Z) : t :=
  {| expiry_seconds :=
       match expiry with
       | Some s => if s =? 0 then cache_expiry_seconds settings else s
       | None => cache_expiry_seconds settings
       end |}.

(** The sanitised key of [_get_cache_file_path]. *)
Definition safe_key (key : string) : string :=
  replace "&" "_" (replace "?" "_" (replace ":" "_" (replace "/" "_" key)))%char.

(** The file name under the cache directory. *)
Definition _get_cache_file_path (key : string) : string :=
  safe_key key +:+ ".json".

Section WithIso.
Context `{IsoFormat}.

(** [datetime.fromisoformat(value)]: the argument must be a [str]. *)
Definition datetime_fromisoformat (value : json) : py datetime :=
  match value with
  | JStr s =>
      match fromisoformat s with
      | Some d => ret d
      | None => raise ValueError ("Invalid isoformat string: '" +:+ s +:+ "'")
      end
  | _ => raise TypeError "fromisoformat: argument must be str"
  end.

(** [get(key)]; [now] is the reading of [datetime.now()]. *)
Definition get (self : t) (now : datetime) (key : string) : py (option result) :=
  let cache_file := _get_cache_file_path key in
  let* present := path_exists cache_file in
  if negb present then ret None
  else
    try_except
      (let* cache_data := json_load cache_file in
       let* stamp := subscript cache_data "cached_at" in
       let* cached_at := datetime_fromisoformat stamp in
       let* age := datetime_sub now cached_at in
       let* ttl := timedelta_seconds (expiry_seconds self) in
       if ttl <? age then
         let* _ := unlink false cache_file in
         ret None
       else
         let* payload := subscript cache_data "data" in
         ret (Some {| data := payload; cached := true; cached_at := Some cached_at |}))
      [ ([JSONDecodeError; KeyError; ValueError],
         λ _, let* _ := unlink true cache_file in ret None) ].

(** The record [set] writes. *)
Definition cache_record (payload : json) (now : datetime) : json :=
  JObj [("data", payload); ("cached_at", JStr (isoformat now))].

(** [set(key, data)]; [now] is the reading of [datetime.now()], [disk]
    what the write meets. *)
Definition set (self : t) (now : datetime) (disk : write_outcome)
    (key : string) (payload : json) : py unit :=
  let cache_file := _get_cache_file_path key in
  let cache_data := cache_record payload now in
  try_except
    (json_dump disk cache_file cache_data)
    [ ([Exception],
       λ e, print ("Warning: Failed to cache data: " +:+ exn_msg e)) ].

(** The names [self.cache_dir.glob("*.json")] matches: those that end
    in [.json]. *)
Definition is_json_name (name : string) : bool := ends_with ".json" name.

(** [clear()], over the names the glob listed. *)
Fixpoint clear_loop (names : list string) (count : Z) : py Z :=
  match names with
  | [] => ret count
  | cache_file :: rest =>
      let* count' :=
        try_except
          (let* _ := unlink false cache_file in ret (count + 1))
          [ ([Exception], λ _, ret count) ] in
      clear_loop rest count'
  end.

(** [clear_expired()], over the names the glob listed; [now name] is the
    reading of [datetime.now()] when [name] is examined. *)
Fixpoint clear_expired_loop (self : t) (now : string → datetime)
    (names : list string) (count : Z) : py Z :=
  match names with
  | [] => ret count
  | cache_file :: rest =>
      let* count' :=
        try_except
          (let* cache_data := json_load cache_file in
           let* stamp := subscript cache_data "cached_at" in
           let* cached_at := datetime_fromisoformat stamp in
           let* age := datetime_sub (now cache_file) cached_at in
           let* ttl := timedelta_seconds (expiry_seconds self) in
           if ttl <? age then
             let* _ := unlink false cache_file in
             ret (count + 1)
           else ret count)
          [ ([Exception],
             λ _, let* _ := unlink true cache_file in ret (count + 1)) ] in
      clear_expired_loop self now rest count'
  end.

(** What [self.cache_dir.glob("*.json")] may yield in world [w]: each
    matching name once, in an order the file system chooses. *)
Definition glob_json (listing : list string) (w : world) : Prop :=
  NoDup listing ∧
  ∀ name, name ∈ listing ↔ is_Some (files w !! name) ∧ is_json_name name = true.

(** One such listing, to run the sweeps with: the order in which the map
    enumerates the directory. *)
Definition listdir (w : world) : list string :=
  filter (λ name, is_json_name name = true) (map_to_list (files w)).*1.

(** [clear()]; [listing] is what the glob yields. *)
Definition clear (self : t) (listing : list string) : py Z :=
  clear_loop listing 0.

(** [clear_expired()]; [listing] is what the glob yields. *)
Definition clear_expired (self : t) (now : string → datetime)
    (listing : list string) : py Z :=
  clear_expired_loop self now listing 0.

End WithIso.
End CacheManager.

(* ================================================================== *)
(** ** src/services/weather_service.py *)
(* ================================================================== *)

(** An httpx response, as far as the code looks at it: the status, the
    body text, and what [response.json()] does with the body. *)
Record Response : Set := {
  status_code : Z;
  text : string;
  parsed : exn + json   (* response.json() raises or returns *)
}.

(** What [await client.get(url, timeout=...)] comes back with. *)
Inductive transport : Set :=
  | Raises (e : exn)
  | Responds (r : Response).

(** What the environment decides during one [_fetch_data] call. *)
Record env : Type := {
  now_get : datetime;            (* datetime.now() inside cache.get *)
  now_set : datetime;            (* datetime.now() inside cache.set *)
  upstream : string → transport; (* the answer to a request, by URL *)
  disk : write_outcome           (* what the cache write meets *)
}.

Module WeatherService.

Record t : Set := {
  base_url : string;
  api_key : string;
  timeout : Z;
  cache : CacheManager.t
}.

(** [__init__]: an empty credential is refused before any request. *)
Definition __init__ (settings : Settings) : py t :=
  let self :=
    {| base_url := openweather_base_url settings;
       api_key := openweather_api_key settings;
       timeout := api_timeout settings;
       cache := CacheManager.__init__ settings None |} in
  if String.eqb (api_key self) "" then
    raise APIKeyException
      ("OpenWeather API key is not configured. " +:+
       "Please set OPENWEATHER_API_KEY in .env file")
  else ret self.

(** [params[k] = v] through the reference: the object itself changes. *)
Definition setitem (params : ref) (k : string) (v : pyval) : py unit :=
  λ w, (Return tt, with_heap (alter (dict_setitem k v) params (heap w)) w).

(** The dictionary a reference denotes. *)
Definition deref (params : ref) : py pydict :=
  λ w, (Return (default [] (heap w !! params)), w).

(** [_build_url]: the two entries go into the caller's dictionary, then
    the query string is its items in order. *)
Definition _build_url (self : t) (endpoint : string) (params : ref) : py string :=
  let* _ := setitem params "appid" (PStr (api_key self)) in
  let* _ := setitem params "units" (PStr "metric") in
  let* items := deref params in
  let query_string := join "&" (map (λ '(k, v), k +:+ "=" +:+ str v) items) in
  ret (base_url self +:+ "/" +:+ endpoint +:+ "?" +:+ query_string).

(** [await client.get(url, timeout=self.timeout)]: the request goes
    out, then the environment answers. *)
Definition client_get (E : env) (url : string) : py Response :=
  λ w, let w' := with_requests (requests w ++ [url]) w in
       match upstream E url with
       | Raises e => (Raise e, w')
       | Responds r => (Return r, w')
       end.

(** [response.json()]. *)
Definition response_json (response : Response) : py json :=
  match parsed response with
  | inl e => reraise e
  | inr j => ret j
  end.

Section WithIso.
Context `{IsoFormat}.

Definition _fetch_data (self : t) (E : env)
    (endpoint : string) (params : ref) (cache_key : string) : py result :=
  let* cached_data := CacheManager.get (cache self) (now_get E) cache_key in
  match cached_data with
  | Some hit => ret hit
  | None =>
      let* url := _build_url self endpoint params in
      try_except
        (let* response := client_get E url in
         let* _ :=
           if status_code response =? 404 then
             let* d := deref params in
             raise CityNotFoundException
               ("City not found: " +:+
                str (dict_get "q" (dict_get "id" (PStr "unknown") d) d))
           else if status_code response =? 401 then
             raise APIKeyException "Invalid API key"
           else if negb (status_code response =? 200) then
             raise InvalidResponseException
               ("API returned status code " +:+ pretty (status_code response)
                +:+ ": " +:+ text response)
           else ret tt in
         let* payload :=
           try_except (response_json response)
             [ ([Exception],
                λ e, raise InvalidResponseException
                       ("Failed to parse JSON response: " +:+ exn_msg e)) ] in
         let* _ := CacheManager.set (cache self) (now_set E) (disk E)
                     cache_key payload in
         ret {| data := payload; cached := false; cached_at := None |})
        [ ([httpx_TimeoutException],
           λ e, raise TimeoutException
                  ("Request timeout after " +:+ pretty (timeout self)
                   +:+ " seconds: " +:+ exn_msg e));
          ([httpx_NetworkError],
           λ e, raise NetworkException
                  ("Network error occurred: " +:+ exn_msg e));
          ([httpx_HTTPError],
           λ e, raise NetworkException
                  ("HTTP error occurred: " +:+ exn_msg e)) ]
  end.

End WithIso.
End WeatherService.

(* ================================================================== *)
(** ** An instance of the ISO text: the spellings [isoformat()] emits *)
(* ================================================================== *)

(** [YYYY-MM-DDTHH:MM:SS], then [.ffffff] when the microsecond is not
    zero, then [+HH:MM] or [-HH:MM] for an aware value.  [fromisoformat]
    here reads exactly these spellings and refuses every other string;
    CPython's accepts more (a date alone, other separators), which the
    theorems below allow for by quantifying over [IsoFormat]. *)
Module Iso8601.

Definition digit (k : Z) : ascii := ascii_of_nat (Z.to_nat (48 + k)).

Definition undigit (c : ascii) : option Z :=
  let n := Z.of_nat (nat_of_ascii c) in
  if (48 <=? n) && (n <=? 57) then Some (n - 48) else None.

(** The number a run of decimal digits spells, most significant first. *)
Fixpoint number_from (acc : Z) (cs : list ascii) : option Z :=
  match cs with
  | [] => Some acc
  | c :: rest =>
      match undigit c with
      | Some k => number_from (acc * 10 + k) rest
      | None => None
      end
  end.
Definition number : list ascii → option Z := number_from 0.

(** Zero-padded decimals in front of [rest]. *)
Definition pad2 (n : Z) (rest : string) : string :=
  String (digit (n / 10 mod 10)) (String (digit (n mod 10)) rest).
Definition pad4 (n : Z) (rest : string) : string :=
  pad2 (n / 100) (pad2 n rest).
Definition pad6 (n : Z) (rest : string) : string :=
  pad2 (n / 10000) (pad4 n rest).

Definition offset_text (o : option Z) : string :=
  match o with
  | None => ""
  | Some s =>
      String (if s <? 0 then "-"%char else "+"%char)
        (pad2 (Z.abs s / 3600) (String ":" (pad2 (Z.abs s / 60 mod 60) "")))
  end.

Definition isoformat (d : datetime) : string :=
  let tail :=
    if microsecond d =? 0 then offset_text (utcoffset d)
    else String "." (pad6 (microsecond d) (offset_text (utcoffset d))) in
  let time :=
    pad2 (hour d) (String ":" (pad2 (minute d) (String ":" (pad2 (second d) tail)))) in
  pad4 (year d) (String "-" (pad2 (month d) (String "-" (pad2 (day d)
    (String "T" time))))).

(** The optional [.ffffff]: the microseconds and what follows. *)
Definition read_fraction (cs : list ascii) : option (Z * list ascii) :=
  match cs with
  | "."%char :: f1 :: f2 :: f3 :: f4 :: f5 :: f6 :: rest =>
      us ← number [f1; f2; f3; f4; f5; f6]; Some (us, rest)
  | _ => Some (0, cs)
  end.

(** The optional offset: [None] when the text is not one. *)
Definition read_offset (cs : list ascii) : option (option Z) :=
  match cs with
  | [] => Some None
  | [sign; h1; h2; ":"%char; m1; m2] =>
      hh ← number [h1; h2];
      mm ← number [m1; m2];
      if (hh <? 24) && (mm <? 60) then
        if Ascii.eqb sign "+" then Some (Some (hh * 3600 + mm * 60))
        else if Ascii.eqb sign "-" then Some (Some (- (hh * 3600 + mm * 60)))
        else None
      else None
  | _ => None
  end.

Definition fromisoformat (s : string) : option datetime :=
  match String.list_ascii_of_string s with
  | y1 :: y2 :: y3 :: y4 :: "-"%char :: m1 :: m2 :: "-"%char :: d1 :: d2 ::
    "T"%char :: h1 :: h2 :: ":"%char :: n1 :: n2 :: ":"%char :: s1 :: s2 :: rest =>
      y ← number [y1; y2; y3; y4];
      mo ← number [m1; m2];
      dd ← number [d1; d2];
      hh ← number [h1; h2];
      mi ← number [n1; n2];
      ss ← number [s1; s2];
      '(us, rest') ← read_fraction rest;
      off ← read_offset rest';
      let d := Datetime y mo dd hh mi ss us off in
      if valid_datetime d then Some d else None
  | _ => None
  end.

End Iso8601.

(* ================================================================== *)
(** ** Vocabulary of the properties *)
(* ================================================================== *)

(** The specification's names for the five failures, and the class of
    [src/utils/exceptions.py] each one is. *)
Inductive ErrorKind : Set :=
  | NetworkFailure | Timeout | InvalidResponse | Unauthorized | NotFound.

Definition error_kind (c : cls) : option ErrorKind :=
  match c with
  | NetworkException => Some NetworkFailure
  | TimeoutException => Some Timeout
  | InvalidResponseException => Some InvalidResponse
  | APIKeyException => Some Unauthorized
  | CityNotFoundException => Some NotFound
  | _ => None
  end.

(** A run that ends in the failure [k] with text [msg], leaving [w']. *)
Definition fails_with {A} (run : outcome A * world)
    (k : ErrorKind) (msg : string) (w' : world) : Prop :=
  ∃ c, run = (Raise (Exn c msg), w') ∧ error_kind c = Some k.

(** The world with one file of the cache directory removed. *)
Definition without (name : string) (w : world) : world :=
  with_files (delete name (files w)) w.

(** The world with the named files removed, one after the other. *)
Fixpoint remove_all (names : list string) (w : world) : world :=
  match names with
  | [] => w
  | name :: rest => remove_all rest (without name w)
  end.

(** The names the file system lets go. *)
Definition loose (w : world) (name : string) : bool :=
  negb (bool_decide (name ∈ pinned w)).

(** The time-to-live is one [timedelta] can hold. *)
Definition ttl_in_range (self : CacheManager.t) : bool :=
  (-999999999 <=? CacheManager.expiry_seconds self / 86400) &&
  (CacheManager.expiry_seconds self / 86400 <=? 999999999).

(** The age [get] compares: wall-clock microseconds since the stamp. *)
Definition age_us (now stamp : datetime) : Z := wall_us now - wall_us stamp.

(** The line [set] prints when the write fails. *)
Definition warning (e : exn) : string :=
  "Warning: Failed to cache data: " +:+ exn_msg e.

(** The characters [_get_cache_file_path] replaces. *)
Definition reserved (c : ascii) : bool :=
  (Ascii.eqb c "/" || Ascii.eqb c ":" || Ascii.eqb c "?" || Ascii.eqb c "&")%char.

Definition sanitise (c : ascii) : ascii := if reserved c then "_"%char else c.

Fixpoint map_chars (f : ascii → ascii) (s : string) : string :=
  match s with
  | EmptyString => EmptyString
  | String c rest => String (f c) (map_chars f rest)
  end.

Fixpoint all_chars (p : ascii → bool) (s : string) : bool :=
  match s with
  | EmptyString => true
  | String c rest => p c && all_chars p rest
  end.

(** A key with none of the replaced characters. *)
Definition plain (key : string) : bool := all_chars (λ c, negb (reserved c)) key.

Section Vocabulary.
Context `{IsoFormat}.
Import CacheManager WeatherService.

(** The lines [get] and [clear_expired] share: load the record, read its
    timestamp and compare its age with the time-to-live.  Answers the
    loaded record, its timestamp and whether it has expired. *)
Definition read_age (self : CacheManager.t) (now : datetime) (cache_file : string)
  : py (json * datetime * bool) :=
  let* cache_data := json_load cache_file in
  let* stamp := subscript cache_data "cached_at" in
  let* cached_at := datetime_fromisoformat stamp in
  let* age := datetime_sub now cached_at in
  let* ttl := timedelta_seconds (expiry_seconds self) in
  ret (cache_data, cached_at, ttl <? age).

(** The ways a stored file fails inside [read_age], with the class of
    the exception. *)
Inductive unreadable (now : datetime) : content → cls → Prop :=
  | denied : unreadable now Denied PermissionError
  | not_utf8 : unreadable now NotUtf8 UnicodeError
  | not_json : unreadable now NotJson JSONDecodeError
  | no_stamp ms :
      members_get "cached_at" ms = None →
      unreadable now (Doc (JObj ms)) KeyError
  | bad_stamp ms s :
      members_get "cached_at" ms = Some (JStr s) →
      fromisoformat s = None →
      unreadable now (Doc (JObj ms)) ValueError
  | stamp_not_str ms v :
      members_get "cached_at" ms = Some v →
      (∀ s, v ≠ JStr s) →
      unreadable now (Doc (JObj ms)) TypeError
  | not_object j :
      (∀ ms, j ≠ JObj ms) →
      unreadable now (Doc j) TypeError
  | aware_stamp ms s stamp :
      members_get "cached_at" ms = Some (JStr s) →
      fromisoformat s = Some stamp →
      utcoffset now = None → is_Some (utcoffset stamp) →
      unreadable now (Doc (JObj ms)) TypeError.

(** The condition of a stored file when a sweep looks at it: [false]
    for a record in date, [true] for one past its time-to-live and for
    a file that cannot be read as a record. *)
Inductive judged (self : CacheManager.t) (now : datetime) : content → bool → Prop :=
  | judged_fresh ms s stamp :
      members_get "cached_at" ms = Some (JStr s) →
      fromisoformat s = Some stamp → utcoffset stamp = None →
      age_us now stamp <= seconds_us (expiry_seconds self) →
      judged self now (Doc (JObj ms)) false
  | judged_expired ms s stamp :
      members_get "cached_at" ms = Some (JStr s) →
      fromisoformat s = Some stamp → utcoffset stamp = None →
      seconds_us (expiry_seconds self) < age_us now stamp →
      judged self now (Doc (JObj ms)) true
  | judged_unreadable c k :
      unreadable now c k → judged self now c true.

(** What [set] leaves behind, by what the write met. *)
Definition after_set (now : datetime) (disk : write_outcome)
    (key : string) (payload : json) (w : world) : world :=
  let name := _get_cache_file_path key in
  match disk with
  | Written => with_files (<[name := Doc (cache_record payload now)]> (files w)) w
  | OpenFailed e => with_stdout (stdout w ++ [warning e]) w
  | DumpFailed e =>
      with_stdout (stdout w ++ [warning e])
        (with_files (<[name := NotJson]> (files w)) w)
  end.

(** The heap once [_build_url] has written the two entries into the
    caller's dictionary. *)
Definition with_credentials (self : WeatherService.t) (params : ref)
    (w : world) : world :=
  with_heap
    (alter (dict_setitem "units" (PStr "metric")) params
       (alter (dict_setitem "appid" (PStr (api_key self))) params (heap w)))
    w.

(** The URL [_build_url] returns in world [w]. *)
Definition url_of (self : WeatherService.t) (endpoint : string)
    (params : ref) (w : world) : string :=
  base_url self +:+ "/" +:+ endpoint +:+ "?" +:+
  join "&" (map (λ '(k, v), k +:+ "=" +:+ str v)
              (default [] (heap (with_credentials self params w) !! params))).

(** The world once the request for [url] has gone out. *)
Definition sent (url : string) (w : world) : world :=
  with_requests (requests w ++ [url]) w.

(** The city the not-found error names: [params.get('q',
    params.get('id', 'unknown'))]. *)
Definition city_of (d : pydict) : string :=
  str (dict_get "q" (dict_get "id" (PStr "unknown") d) d).

(** The upstream request failed: the transport raised one of httpx's
    errors, or answered with a status other than 200, or with a body
    that does not parse. *)
Definition upstream_failed (t : transport) : bool :=
  match t with
  | Raises e => issubclass (exn_cls e) httpx_HTTPError
  | Responds r =>
      negb (status_code r =? 200) ||
      match parsed r with inl _ => true | inr _ => false end
  end.

(** What [_fetch_data] makes of the transport's answer: the exception
    it leaves with, or the payload it goes on to cache.  [d] is the
    parameter dictionary as the request saw it. *)
Definition classify (self : WeatherService.t) (d : pydict) (t : transport)
  : exn + json :=
  match t with
  | Raises e =>
      if issubclass (exn_cls e) httpx_TimeoutException then
        inl (Exn TimeoutException
               ("Request timeout after " +:+ pretty (timeout self)
                +:+ " seconds: " +:+ exn_msg e))
      else if issubclass (exn_cls e) httpx_NetworkError then
        inl (Exn NetworkException ("Network error occurred: " +:+ exn_msg e))
      else if issubclass (exn_cls e) httpx_HTTPError then
        inl (Exn NetworkException ("HTTP error occurred: " +:+ exn_msg e))
      else inl e
  | Responds r =>
      if status_code r =? 404 then
        inl (Exn CityNotFoundException ("City not found: " +:+ city_of d))
      else if status_code r =? 401 then
        inl (Exn APIKeyException "Invalid API key")
      else if negb (status_code r =? 200) then
        inl (Exn InvalidResponseException
               ("API returned status code " +:+ pretty (status_code r)
                +:+ ": " +:+ text r))
      else
        match parsed r with
        | inl e =>
            inl (Exn InvalidResponseException
                   ("Failed to parse JSON response: " +:+ exn_msg e))
        | inr payload => inr payload
        end
  end.

End Vocabulary.

(* ================================================================== *)
(** * Properties *)
(* ================================================================== *)

(** ** The ISO instance reads back what it prints *)

Section Iso8601Facts.
Import Iso8601.

Lemma undigit_digit k : 0 <= k < 10 → undigit (digit k) = Some k.
Proof.
  intros Hk.
  assert (k = 0 ∨ k = 1 ∨ k = 2 ∨ k = 3 ∨ k = 4 ∨
          k = 5 ∨ k = 6 ∨ k = 7 ∨ k = 8 ∨ k = 9) as Hcases by lia.
  repeat destruct Hcases as [-> | Hcases]; try subst k; reflexivity.
Qed.

Lemma number2_digits n :
  0 <= n < 100 → number [digit (n / 10 mod 10); digit (n mod 10)] = Some n.
Proof.
  intros Hn. unfold number, number_from.
  rewrite !undigit_digit by (apply Z.mod_pos_bound; lia).
  f_equal. Z.div_mod_to_equations. lia.
Qed.

Lemma number4_digits n :
  0 <= n < 10000 →
  number [digit (n / 100 / 10 mod 10); digit (n / 100 mod 10);
          digit (n / 10 mod 10); digit (n mod 10)] = Some n.
Proof.
  intros Hn. unfold number, number_from.
  rewrite !undigit_digit by (apply Z.mod_pos_bound; lia).
  f_equal. Z.div_mod_to_equations. lia.
Qed.

Lemma number6_digits n :
  0 <= n < 1000000 →
  number [digit (n / 10000 / 10 mod 10); digit (n / 10000 mod 10);
          digit (n / 100 / 10 mod 10); digit (n / 100 mod 10);
          digit (n / 10 mod 10); digit (n mod 10)] = Some n.
Proof.
  intros Hn. unfold number, number_from.
  rewrite !undigit_digit by (apply Z.mod_pos_bound; lia).
  f_equal. Z.div_mod_to_equations. lia.
Qed.

Lemma days_in_month_le y m : 1 <= m <= 12 → _days_in_month y m <= 31.
Proof.
  intros Hm. unfold _days_in_month. destruct (_ && _); [lia|].
  assert (m = 1 ∨ m = 2 ∨ m = 3 ∨ m = 4 ∨ m = 5 ∨ m = 6 ∨ m = 7 ∨
          m = 8 ∨ m = 9 ∨ m = 10 ∨ m = 11 ∨ m = 12) as Hcases by lia.
  repeat destruct Hcases as [-> | Hcases]; try subst m; simpl; lia.
Qed.

(** Reading back what [isoformat] printed for a naive value. *)
Lemma fromisoformat_isoformat_naive d :
  valid_datetime d = true → utcoffset d = None →
  fromisoformat (isoformat d) = Some d.
Proof.
  destruct d as [y mo dd hh mi ss us off]. simpl. intros Hv ->.
  pose proof Hv as Hr. unfold valid_datetime in Hr. simpl in Hr.
  repeat (apply andb_prop in Hr as [Hr ?]).
  pose proof (days_in_month_le y mo ltac:(lia)).
  unfold fromisoformat, isoformat, pad6, pad4, pad2.
  cbn [year month day hour minute second microsecond utcoffset offset_text].
  destruct (us =? 0) eqn:Hus;
    cbn [String.list_ascii_of_string];
    rewrite number4_digits, !number2_digits by lia;
    cbn [mbind option_bind read_fraction read_offset];
    rewrite ?number6_digits by lia;
    cbn [mbind option_bind read_fraction read_offset].
  - assert (us = 0) as -> by lia. by rewrite Hv.
  - by rewrite Hv.
Qed.

End Iso8601Facts.

(** The instance the examples below run with. *)
Definition iso8601 : IsoFormat :=
  {| isoformat := Iso8601.isoformat;
     fromisoformat := Iso8601.fromisoformat;
     fromisoformat_isoformat := fromisoformat_isoformat_naive |}.

(** ** Concrete data for the examples *)

Module Examples.
#[local] Existing Instance iso8601.

(** A manager with the default time-to-live of 300 seconds. *)
Definition manager : CacheManager.t := CacheManager.__init__ default_settings None.

Definition service : WeatherService.t :=
  {| WeatherService.base_url := openweather_base_url default_settings;
     WeatherService.api_key := "k3y";
     WeatherService.timeout := api_timeout default_settings;
     WeatherService.cache := manager |}.

(** 2024-01-15 at the given time of day. *)
Definition at_time (h m s : Z) : datetime := Datetime 2024 1 15 h m s 0 None.

Definition london : json :=
  JObj [("name", JStr "London"); ("main", JObj [("temp", JNum 7)])].
Definition paris : json :=
  JObj [("name", JStr "Paris"); ("main", JObj [("temp", JNum 9)])].

(** The file [set] writes for [london] at the given time. *)
Definition stored_at (t : datetime) : content :=
  Doc (CacheManager.cache_record london t).

Definition empty : world := World ∅ ∅ ∅ [] [].

(** A directory with one record for the key [weather_London], written
    at 12:00:00, and the caller's dictionary [{'q': 'London'}] at
    reference 1. *)
Definition one_record : world :=
  World {[ "weather_London.json" := stored_at (at_time 12 0 0) ]} ∅
        {[ 1%nat := [("q", PStr "London")] ]} [] [].

(** The same, but the record's stamp is a number. *)
Definition numeric_stamp : world :=
  World {[ "weather_London.json" :=
             Doc (JObj [("data", london); ("cached_at", JNum 1705320000)]) ]} ∅
        {[ 1%nat := [("q", PStr "London")] ]} [] [].

(** No file at all, and the same dictionary. *)
Definition no_record : world :=
  World ∅ ∅ {[ 1%nat := [("q", PStr "London")] ]} [] [].

Definition ok_response (payload : json) : Response :=
  {| status_code := 200; text := "{...}"; parsed := inr payload |}.

Definition env_at (t : datetime) (answer : transport) : env :=
  {| now_get := t; now_set := t; upstream := λ _, answer; disk := Written |}.

Definition not_found : Response :=
  {| status_code := 404;
     text := "city not found";
     parsed := inl (Exn JSONDecodeError "Expecting value") |}.

Definition timed_out : transport := Raises (Exn httpx_ReadTimeout "timed out").

(** The same environment, with a disk that refuses the write. *)
Definition env_readonly (t : datetime) (answer : transport) : env :=
  {| now_get := t; now_set := t; upstream := λ _, answer;
     disk := OpenFailed (Exn PermissionError "[Errno 13] Permission denied") |}.

(** Five records: two written at 11:50 and three at 11:58. *)
Definition five_records : world :=
  World (list_to_map
           [ ("weather_London.json", stored_at (at_time 11 50 0));
             ("weather_Paris.json", stored_at (at_time 11 50 0));
             ("weather_Rome.json", stored_at (at_time 11 58 0));
             ("weather_Oslo.json", stored_at (at_time 11 58 0));
             ("weather_Bern.json", stored_at (at_time 11 58 0)) ])
        ∅ ∅ [] [].

(** The names of the two records written at 11:50. *)
Definition early (name : string) : bool :=
  bool_decide (name ∈ ["weather_London.json"; "weather_Paris.json"]).

End Examples.

(** ** The cache store: [get] and [set] *)

Section CacheStore.
Context `{IsoFormat}.
Import CacheManager.

Implicit Types (self : CacheManager.t) (w : world) (now : datetime).

Lemma path_exists_present name w c :
  files w !! name = Some c → path_exists name w = (Return true, w).
Proof.
  intros Hf. unfold path_exists. by rewrite Hf.
Qed.

Lemma unlink_present missing_ok name w c :
  files w !! name = Some c → name ∉ pinned w →
  unlink missing_ok name w = (Return tt, without name w).
Proof.
  intros Hf Hp. unfold unlink. rewrite Hf.
  by rewrite bool_decide_eq_false_2.
Qed.

Lemma unlink_pinned missing_ok name w c :
  files w !! name = Some c → name ∈ pinned w →
  unlink missing_ok name w = (Raise (Exn PermissionError ""), w).
Proof.
  intros Hf Hp. unfold unlink. rewrite Hf.
  by rewrite bool_decide_eq_true_2.
Qed.

(** [get] and the loop of [clear_expired], with their first lines read as
    [read_age]. *)
Lemma get_read_age self now key w :
  get self now key w =
    (let* present := path_exists (_get_cache_file_path key) in
     if negb present then ret None
     else
       try_except
         (let* r := read_age self now (_get_cache_file_path key) in
          let '(cache_data, stamp, expired) := r in
          if expired then
            let* _ := unlink false (_get_cache_file_path key) in
            ret None
          else
            let* payload := subscript cache_data "data" in
            ret (Some {| data := payload; cached := true; cached_at := Some stamp |}))
         [ ([JSONDecodeError; KeyError; ValueError],
            λ _, let* _ := unlink true (_get_cache_file_path key) in ret None) ]) w.
Proof.
  unfold get, read_age, try_except, bind.
  destruct (path_exists _ w) as [[[]|e] w1]; try done. cbn [negb].
  destruct (json_load _ w1) as [[cache_data|e] w2]; [|done].
  destruct (subscript cache_data "cached_at" w2) as [[stamp|e] w3]; [|done].
  destruct (datetime_fromisoformat stamp w3) as [[cached_at|e] w4]; [|done].
  destruct (datetime_sub now cached_at w4) as [[age|e] w5]; [|done].
  by destruct (timedelta_seconds (expiry_seconds self) w5) as [[ttl|e] w6].
Qed.

Lemma clear_expired_loop_read_age self (now : string → datetime) x rest count w :
  clear_expired_loop self now (x :: rest) count w =
    (let* count' :=
       try_except
         (let* r := read_age self (now x) x in
          let '(_, _, expired) := r in
          if expired then
            let* _ := unlink false x in
            ret (count + 1)
          else ret count)
         [ ([Exception], λ _, let* _ := unlink true x in ret (count + 1)) ] in
     clear_expired_loop self now rest count') w.
Proof.
  cbn [clear_expired_loop]. unfold read_age, try_except, bind.
  destruct (json_load _ w) as [[cache_data|e] w2]; [|done].
  destruct (subscript cache_data "cached_at" w2) as [[stamp|e] w3]; [|done].
  destruct (datetime_fromisoformat stamp w3) as [[cached_at|e] w4]; [|done].
  destruct (datetime_sub (now x) cached_at w4) as [[age|e] w5]; [|done].
  by destruct (timedelta_seconds (expiry_seconds self) w5) as [[ttl|e] w6].
Qed.

(** Step into [get] on a file that exists, up to the body of its [try]. *)
Ltac enter_get Hfile :=
  rewrite get_read_age; unfold bind at 1;
  rewrite (path_exists_present _ _ _ Hfile); cbn [negb];
  unfold try_except, bind at 1.

Lemma read_age_stamped self now name w ms s stamp :
  files w !! name = Some (Doc (JObj ms)) →
  members_get "cached_at" ms = Some (JStr s) →
  fromisoformat s = Some stamp →
  utcoffset now = None → utcoffset stamp = None →
  ttl_in_range self = true →
  read_age self now name w =
    (Return (JObj ms, stamp, seconds_us (expiry_seconds self) <? age_us now stamp), w).
Proof.
  intros Hf Hm Hs Hnow Hst Httl.
  unfold read_age, bind, json_load. rewrite Hf. cbn [subscript].
  rewrite Hm. unfold ret at 1. cbn [datetime_fromisoformat]. rewrite Hs.
  unfold ret at 1. unfold datetime_sub. rewrite Hnow, Hst. unfold ret at 1.
  unfold timedelta_seconds. unfold ttl_in_range in Httl. rewrite Httl.
  reflexivity.
Qed.

Lemma read_age_unreadable self now name w c k :
  files w !! name = Some c → unreadable now c k →
  ∃ msg, read_age self now name w = (Raise (Exn k msg), w).
Proof.
  intros Hf Hu. unfold read_age, bind, json_load. rewrite Hf.
  destruct Hu as [| | | ms Hm | ms s Hm Hs | ms v Hm Hv | j Hj
                  | ms s stamp Hm Hs Hnow [o Ho]]; cbn [subscript];
    try (eexists; reflexivity).
  - rewrite Hm. eexists; reflexivity.
  - rewrite Hm. unfold ret at 1. cbn [datetime_fromisoformat]. rewrite Hs.
    eexists; reflexivity.
  - rewrite Hm. unfold ret at 1.
    destruct v; try (eexists; reflexivity). by destruct (Hv s).
  - destruct j; try (eexists; reflexivity). by destruct (Hj members).
  - rewrite Hm. unfold ret at 1. cbn [datetime_fromisoformat]. rewrite Hs.
    unfold ret at 1. unfold datetime_sub. rewrite Hnow, Ho.
    eexists; reflexivity.
Qed.

Lemma get_absent self now key w :
  files w !! _get_cache_file_path key = None →
  name_fits (_get_cache_file_path key) = true →
  get self now key w = (Return None, w).
Proof.
  intros Hf Hfits. rewrite get_read_age. unfold bind, path_exists.
  by rewrite Hf, Hfits.
Qed.

(** A key whose file name the file system does not take, and so has no
    file: the test for the file raises, outside the [try]. *)
Lemma get_name_too_long self now key w :
  files w !! _get_cache_file_path key = None →
  name_fits (_get_cache_file_path key) = false →
  get self now key w = (Raise (Exn OSError ""), w).
Proof.
  intros Hf Hfits. rewrite get_read_age. unfold bind, path_exists.
  by rewrite Hf, Hfits.
Qed.

(** A failure of one of the three caught classes: the file goes, the
    answer is a miss. *)
Lemma get_caught self now key w c k :
  files w !! _get_cache_file_path key = Some c →
  unreadable now c k →
  catches [JSONDecodeError; KeyError; ValueError] (Exn k "") = true →
  _get_cache_file_path key ∉ pinned w →
  get self now key w = (Return None, without (_get_cache_file_path key) w).
Proof.
  intros Hf Hu Hk Hp. enter_get Hf.
  destruct (read_age_unreadable self now _ w c k Hf Hu) as [msg Hr].
  rewrite Hr. cbn [dispatch].
  change (catches _ (Exn k msg))
    with (catches [JSONDecodeError; KeyError; ValueError] (Exn k "")).
  rewrite Hk. unfold bind. by rewrite (unlink_present _ _ _ _ Hf Hp).
Qed.

(** A failure of any other class leaves [get] with the exception and
    the file where it was. *)
Lemma get_uncaught self now key w c k :
  files w !! _get_cache_file_path key = Some c →
  unreadable now c k →
  catches [JSONDecodeError; KeyError; ValueError] (Exn k "") = false →
  ∃ msg, get self now key w = (Raise (Exn k msg), w).
Proof.
  intros Hf Hu Hk. enter_get Hf.
  destruct (read_age_unreadable self now _ w c k Hf Hu) as [msg Hr].
  rewrite Hr. cbn [dispatch].
  change (catches _ (Exn k msg))
    with (catches [JSONDecodeError; KeyError; ValueError] (Exn k "")).
  rewrite Hk. by exists msg.
Qed.

Lemma get_expired self now key w ms s stamp :
  files w !! _get_cache_file_path key = Some (Doc (JObj ms)) →
  members_get "cached_at" ms = Some (JStr s) →
  fromisoformat s = Some stamp →
  utcoffset now = None → utcoffset stamp = None →
  ttl_in_range self = true →
  seconds_us (expiry_seconds self) < age_us now stamp →
  _get_cache_file_path key ∉ pinned w →
  get self now key w = (Return None, without (_get_cache_file_path key) w).
Proof.
  intros Hf Hm Hs Hnow Hst Httl Hage Hp. enter_get Hf.
  rewrite (read_age_stamped _ _ _ _ _ _ _ Hf Hm Hs Hnow Hst Httl).
  rewrite (proj2 (Z.ltb_lt _ _) Hage). unfold bind.
  by rewrite (unlink_present _ _ _ _ Hf Hp).
Qed.

Lemma get_hit self now key w ms s stamp payload :
  files w !! _get_cache_file_path key = Some (Doc (JObj ms)) →
  members_get "cached_at" ms = Some (JStr s) →
  fromisoformat s = Some stamp →
  members_get "data" ms = Some payload →
  utcoffset now = None → utcoffset stamp = None →
  ttl_in_range self = true →
  age_us now stamp <= seconds_us (expiry_seconds self) →
  get self now key w =
    (Return (Some {| data := payload; cached := true; cached_at := Some stamp |}), w).
Proof.
  intros Hf Hm Hs Hd Hnow Hst Httl Hage. enter_get Hf.
  rewrite (read_age_stamped _ _ _ _ _ _ _ Hf Hm Hs Hnow Hst Httl).
  rewrite (proj2 (Z.ltb_ge _ _) Hage). unfold bind. cbn [subscript].
  by rewrite Hd.
Qed.

(** A record in date but without its payload: the [KeyError] is caught. *)
Lemma get_no_data self now key w ms s stamp :
  files w !! _get_cache_file_path key = Some (Doc (JObj ms)) →
  members_get "cached_at" ms = Some (JStr s) →
  fromisoformat s = Some stamp →
  members_get "data" ms = None →
  utcoffset now = None → utcoffset stamp = None →
  ttl_in_range self = true →
  age_us now stamp <= seconds_us (expiry_seconds self) →
  _get_cache_file_path key ∉ pinned w →
  get self now key w = (Return None, without (_get_cache_file_path key) w).
Proof.
  intros Hf Hm Hs Hd Hnow Hst Httl Hage Hp. enter_get Hf.
  rewrite (read_age_stamped _ _ _ _ _ _ _ Hf Hm Hs Hnow Hst Httl).
  rewrite (proj2 (Z.ltb_ge _ _) Hage). unfold bind at 1. cbn [subscript].
  rewrite Hd. unfold raise. cbn [dispatch].
  change (catches _ _) with true. cbn iota. unfold bind.
  by rewrite (unlink_present _ _ _ _ Hf Hp).
Qed.

(** [read_age] only reads; when it answers, the file holds an object
    whose stamp parses to a naive value, and the flag is the comparison
    of its age. *)
Lemma read_age_inv self now name w o w' :
  utcoffset now = None →
  read_age self now name w = (o, w') →
  w' = w ∧
  ∀ cache_data stamp expired, o = Return (cache_data, stamp, expired) →
    ∃ ms s,
      files w !! name = Some (Doc (JObj ms)) ∧ cache_data = JObj ms ∧
      members_get "cached_at" ms = Some (JStr s) ∧
      fromisoformat s = Some stamp ∧ utcoffset stamp = None ∧
      expired = (seconds_us (expiry_seconds self) <? age_us now stamp).
Proof.
  intros Hnow. unfold read_age, bind at 1, json_load.
  destruct (files w !! name) as [[| | | j] |] eqn:Hf;
    try (intros [= <- <-]; split; [done|]; discriminate).
  unfold bind at 1.
  destruct j as [| b | n | m e | s | items | ms]; cbn [subscript];
    try (intros [= <- <-]; split; [done|]; discriminate).
  destruct (members_get "cached_at" ms) as [v|] eqn:Hm;
    [| intros [= <- <-]; split; [done|]; discriminate].
  unfold ret at 1. unfold bind at 1.
  destruct v as [| b | n | m e | s | items | ms']; cbn [datetime_fromisoformat];
    try (intros [= <- <-]; split; [done|]; discriminate).
  destruct (fromisoformat s) as [stamp|] eqn:Hs;
    [| intros [= <- <-]; split; [done|]; discriminate].
  unfold ret at 1. unfold bind at 1, datetime_sub. rewrite Hnow.
  destruct (utcoffset stamp) as [os|] eqn:Hst;
    [intros [= <- <-]; split; [done|]; discriminate |].
  unfold ret at 1. unfold bind, timedelta_seconds.
  destruct (_ && _); intros [= <- <-]; (split; [done|]); [|discriminate].
  intros cd st ex [= <- <- <-]. by exists ms, s.
Qed.

(** The [except] branch of [get]: the file goes, unless it is pinned. *)
Lemma get_handler_cases (name : string) w c :
  files w !! name = Some c →
  (let* _ := unlink true name in ret (@None result)) w =
    if bool_decide (name ∈ pinned w)
    then (Raise (Exn PermissionError ""), w)
    else (Return None, without name w).
Proof.
  intros Hf. unfold bind, unlink. rewrite Hf. by case_bool_decide.
Qed.

Lemma without_absent name w : files w !! name = None → without name w = w.
Proof.
  intros Hf. unfold without. rewrite delete_id by done. by destruct w.
Qed.

(** Whatever [get] answers, it changes nothing but the key's own file:
    a miss leaves the world without that file, anything else leaves the
    world as it was.  A hit comes from a record that is there and in
    date, and carries that record's payload and stamp. *)
Lemma get_footprint self now key w o w' :
  utcoffset now = None →
  get self now key w = (o, w') →
  w' = match o with
       | Return None => without (_get_cache_file_path key) w
       | _ => w
       end ∧
  (∀ hit, o = Return (Some hit) →
     ∃ ms s stamp,
       files w !! _get_cache_file_path key = Some (Doc (JObj ms)) ∧
       members_get "cached_at" ms = Some (JStr s) ∧
       fromisoformat s = Some stamp ∧ utcoffset stamp = None ∧
       members_get "data" ms = Some (data hit) ∧
       cached hit = true ∧ cached_at hit = Some stamp ∧
       age_us now stamp <= seconds_us (expiry_seconds self)).
Proof.
  intros Hnow. rewrite get_read_age. unfold bind at 1, path_exists.
  destruct (files w !! _get_cache_file_path key) as [c|] eqn:Hf.
  2:{ destruct (name_fits _); cbn; intros [= <- <-]; (split; [|done]);
        [by rewrite without_absent | done]. }
  cbn [negb].
  unfold try_except, bind at 1.
  destruct (read_age self now _ w) as [o1 w1] eqn:Hr.
  apply (read_age_inv _ _ _ _ _ _ Hnow) in Hr as [-> Hinv].
  assert (∀ o w', (let* _ := unlink true (_get_cache_file_path key) in
                   ret (@None result)) w = (o, w') →
            w' = match o with
                 | Return None => without (_get_cache_file_path key) w
                 | _ => w
                 end ∧
            ∀ hit, o ≠ Return (Some hit)) as Hhandler.
  { intros o2 w2. rewrite (get_handler_cases _ _ _ Hf).
    by case_bool_decide; intros [= <- <-]. }
  destruct o1 as [[[cd st] ex] | e].
  - destruct (Hinv cd st ex eq_refl) as (ms & s & Hc & -> & Hm & Hs & Hst & ->).
    destruct (_ <? _) eqn:Hage.
    + unfold bind, unlink. rewrite Hf. case_bool_decide.
      * cbn [dispatch]. change (catches _ _) with false. cbn iota.
        by intros [= <- <-].
      * by intros [= <- <-].
    + unfold bind at 1. cbn [subscript].
      destruct (members_get "data" ms) as [payload|] eqn:Hd.
      * intros [= <- <-]. split; [done|]. intros hit [= <-].
        exists ms, s, st. apply Z.ltb_ge in Hage. by rewrite <- Hc.
      * unfold raise. cbn [dispatch]. change (catches _ _) with true.
        cbn iota. intros Hrun. apply Hhandler in Hrun as [-> Hno].
        split; [done|]. intros hit ->. by destruct (Hno hit).
  - cbn [dispatch]. destruct (catches _ e).
    + intros Hrun. apply Hhandler in Hrun as [-> Hno].
      split; [done|]. intros hit ->. by destruct (Hno hit).
    + by intros [= <- <-].
Qed.

(** *** [set] *)

Lemma issubclass_Exception c : issubclass c Exception = true.
Proof. by destruct c. Qed.

Lemma catches_Exception e : catches [Exception] e = true.
Proof. unfold catches. cbn [existsb]. by rewrite issubclass_Exception. Qed.

Lemma set_returns self now disk key payload w :
  set self now disk key payload w = (Return tt, after_set now disk key payload w).
Proof.
  unfold set, try_except, json_dump, after_set.
  destruct disk as [| e | e]; [done | |];
    cbn [dispatch]; by rewrite catches_Exception.
Qed.

Lemma cache_record_stamp payload now :
  members_get "cached_at" [("data", payload); ("cached_at", JStr (isoformat now))]
    = Some (JStr (isoformat now)).
Proof. reflexivity. Qed.

Lemma cache_record_data payload now :
  members_get "data" [("data", payload); ("cached_at", JStr (isoformat now))]
    = Some payload.
Proof. reflexivity. Qed.

(** Reading back a record [set] wrote at [stamp]. *)
Lemma get_after_write self now key w payload stamp :
  files w !! _get_cache_file_path key = Some (Doc (cache_record payload stamp)) →
  valid_datetime stamp = true → utcoffset stamp = None →
  utcoffset now = None → ttl_in_range self = true →
  get self now key w =
    if seconds_us (expiry_seconds self) <? age_us now stamp then
      if bool_decide (_get_cache_file_path key ∈ pinned w)
      then (Raise (Exn PermissionError ""), w)
      else (Return None, without (_get_cache_file_path key) w)
    else (Return (Some {| data := payload; cached := true;
                          cached_at := Some stamp |}), w).
Proof.
  intros Hf Hv Hst Hnow Httl.
  pose proof (fromisoformat_isoformat stamp Hv Hst) as Hs.
  destruct (_ <? _) eqn:Hage.
  - apply Z.ltb_lt in Hage. case_bool_decide as Hp.
    + enter_get Hf.
      rewrite (read_age_stamped _ _ _ _ _ _ _ Hf
                 (cache_record_stamp _ _) Hs Hnow Hst Httl).
      rewrite (proj2 (Z.ltb_lt _ _) Hage). unfold bind.
      rewrite (unlink_pinned _ _ _ _ Hf Hp). cbn [dispatch].
      by change (catches _ _) with false.
    + by eapply get_expired; eauto using cache_record_stamp.
  - apply Z.ltb_ge in Hage.
    by eapply get_hit; eauto using cache_record_stamp, cache_record_data.
Qed.

End CacheStore.

(** ** The cache store: the sweeps [clear] and [clear_expired] *)

Section Sweeps.
Context `{IsoFormat}.
Import CacheManager.

Implicit Types (self : CacheManager.t) (w : world) (names : list string).

Lemma files_remove_all names w name :
  files (remove_all names w) !! name =
    if bool_decide (name ∈ names) then None else files w !! name.
Proof.
  revert w. induction names as [| x rest IH]; intros w; cbn [remove_all].
  - by rewrite bool_decide_eq_false_2 by apply not_elem_of_nil.
  - rewrite IH. unfold without. cbn [files with_files].
    destruct (decide (name = x)) as [-> | Hne].
    + rewrite lookup_delete_eq.
      rewrite (bool_decide_eq_true_2 (x ∈ x :: rest)) by (by left).
      by case_bool_decide.
    + rewrite lookup_delete_ne by done.
      case_bool_decide as Hin.
      * by rewrite bool_decide_eq_true_2 by (by right).
      * rewrite bool_decide_eq_false_2; [done|].
        by intros [?|?]%elem_of_cons.
Qed.

Lemma pinned_remove_all names w : pinned (remove_all names w) = pinned w.
Proof.
  revert w. induction names as [| x rest IH]; intros w; [done|].
  cbn [remove_all]. by rewrite IH.
Qed.

Lemma heap_remove_all names w : heap (remove_all names w) = heap w.
Proof.
  revert w. induction names as [| x rest IH]; intros w; [done|].
  cbn [remove_all]. by rewrite IH.
Qed.

Lemma requests_remove_all names w : requests (remove_all names w) = requests w.
Proof.
  revert w. induction names as [| x rest IH]; intros w; [done|].
  cbn [remove_all]. by rewrite IH.
Qed.

Lemma stdout_remove_all names w : stdout (remove_all names w) = stdout w.
Proof.
  revert w. induction names as [| x rest IH]; intros w; [done|].
  cbn [remove_all]. by rewrite IH.
Qed.

(** *** [clear] *)

Lemma clear_loop_spec names : ∀ w count,
  NoDup names →
  (∀ name, name ∈ names → is_Some (files w !! name)) →
  clear_loop names count w =
    (Return (count + Z.of_nat (length (filter (λ n, loose w n = true) names))),
     remove_all (filter (λ n, loose w n = true) names) w).
Proof.
  induction names as [| x rest IH]; intros w count Hnd Hall.
  - cbn. by rewrite Z.add_0_r.
  - apply NoDup_cons in Hnd as [Hx Hnd].
    destruct (Hall x) as [c Hc]; [by left|].
    cbn [clear_loop]. unfold bind at 1, try_except, bind at 1.
    destruct (decide (x ∈ pinned w)) as [Hp | Hp].
    + rewrite (unlink_pinned _ _ _ _ Hc Hp). cbn [dispatch].
      rewrite catches_Exception. unfold ret at 1.
      rewrite filter_cons_False
        by (unfold loose; rewrite bool_decide_eq_true_2 by done; discriminate).
      apply IH; [done|]. intros name Hin. apply Hall. by right.
    + rewrite (unlink_present _ _ _ _ Hc Hp). unfold ret at 1.
      rewrite filter_cons_True
        by (unfold loose; by rewrite bool_decide_eq_false_2 by done).
      cbn [length remove_all].
      rewrite IH; [| done |].
      * change (loose (without x w)) with (loose w). do 2 f_equal. lia.
      * intros name Hin. unfold without. cbn [files with_files].
        rewrite lookup_delete_ne by (intros ->; done).
        apply Hall. by right.
Qed.

(** *** [clear_expired] *)

(** One iteration of [clear_expired]'s loop. *)
Lemma clear_expired_step self now rest count w x c b :
  files w !! x = Some c → judged self (now x) c b →
  x ∉ pinned w → utcoffset (now x) = None → ttl_in_range self = true →
  clear_expired_loop self now (x :: rest) count w =
    clear_expired_loop self now rest
      (if b then count + 1 else count) (if b then without x w else w).
Proof.
  intros Hc Hj Hp Hnow Httl. rewrite clear_expired_loop_read_age.
  unfold bind at 1, try_except, bind at 1.
  destruct Hj as [ms s stamp Hm Hs Hst Hage | ms s stamp Hm Hs Hst Hage | c k Hu].
  - rewrite (read_age_stamped _ _ _ _ _ _ _ Hc Hm Hs Hnow Hst Httl).
    by rewrite (proj2 (Z.ltb_ge _ _) Hage).
  - rewrite (read_age_stamped _ _ _ _ _ _ _ Hc Hm Hs Hnow Hst Httl).
    rewrite (proj2 (Z.ltb_lt _ _) Hage). unfold bind at 1.
    by rewrite (unlink_present _ _ _ _ Hc Hp).
  - destruct (read_age_unreadable self (now x) x w c k Hc Hu) as [msg ->].
    cbn [dispatch]. rewrite catches_Exception. unfold bind at 1.
    by rewrite (unlink_present _ _ _ _ Hc Hp).
Qed.

Lemma clear_expired_loop_spec self now (stale : string → bool) names :
  ∀ w count,
  NoDup names →
  (∀ name, name ∈ names →
     ∃ c, files w !! name = Some c ∧ judged self (now name) c (stale name)) →
  (∀ name, name ∈ names → name ∉ pinned w) →
  (∀ name, utcoffset (now name) = None) →
  ttl_in_range self = true →
  clear_expired_loop self now names count w =
    (Return (count + Z.of_nat (length (filter (λ n, stale n = true) names))),
     remove_all (filter (λ n, stale n = true) names) w).
Proof.
  induction names as [| x rest IH]; intros w count Hnd Hall Hpin Hnow Httl.
  - cbn. by rewrite Z.add_0_r.
  - apply NoDup_cons in Hnd as [Hx Hnd].
    destruct (Hall x) as (c & Hc & Hj); [by left|].
    rewrite (clear_expired_step _ _ _ _ _ _ _ _ Hc Hj
               (Hpin x ltac:(by left)) (Hnow x) Httl).
    destruct (stale x) eqn:Hb.
    + rewrite filter_cons_True by done. cbn [length remove_all].
      rewrite IH; [| done | | | done | done].
      * do 2 f_equal. lia.
      * intros name Hin. unfold without. cbn [files with_files].
        rewrite lookup_delete_ne by (intros ->; done).
        apply Hall. by right.
      * intros name Hin. apply Hpin. by right.
    + rewrite filter_cons_False by (rewrite Hb; discriminate).
      apply IH; try done.
      * intros name Hin. apply Hall. by right.
      * intros name Hin. apply Hpin. by right.
Qed.

(** *** The listing *)

Lemma glob_json_listdir w : glob_json (listdir w) w.
Proof.
  split.
  - unfold listdir. apply NoDup_filter, NoDup_fst_map_to_list.
  - intros name. unfold listdir.
    rewrite list_elem_of_filter, list_elem_of_fmap. split.
    + intros [Hj ([n c] & -> & Hin)]. apply elem_of_map_to_list in Hin.
      split; [by exists c | done].
    + intros [[c Hc] Hj]. split; [done|].
      exists (name, c). split; [done|]. by apply elem_of_map_to_list.
Qed.

Lemma filter_all (P : string → Prop) `{∀ n, Decision (P n)} names :
  (∀ n, n ∈ names → P n) → filter P names = names.
Proof.
  induction names as [| x rest IH]; intros Hall; [done|].
  rewrite filter_cons_True by (apply Hall; by left).
  f_equal. apply IH. intros n Hin. apply Hall. by right.
Qed.

Lemma elem_of_filter_stale (stale : string → bool) names name :
  name ∈ filter (λ n, stale n = true) names ↔ name ∈ names ∧ stale name = true.
Proof. rewrite list_elem_of_filter. tauto. Qed.

End Sweeps.

(** ** The fetch path *)

Section Fetch.
Context `{IsoFormat}.
Import WeatherService.

Implicit Types (self : WeatherService.t) (E : env) (w : world)
               (params : ref) (endpoint key : string).

Lemma build_url_spec self endpoint params w :
  _build_url self endpoint params w =
    (Return (url_of self endpoint params w), with_credentials self params w).
Proof. reflexivity. Qed.

Lemma fetch_hit self E endpoint params key w hit w0 :
  CacheManager.get (cache self) (now_get E) key w = (Return (Some hit), w0) →
  _fetch_data self E endpoint params key w = (Return hit, w0).
Proof. intros Hget. unfold _fetch_data, bind. by rewrite Hget. Qed.

Lemma fetch_lookup_raises self E endpoint params key w e w0 :
  CacheManager.get (cache self) (now_get E) key w = (Raise e, w0) →
  _fetch_data self E endpoint params key w = (Raise e, w0).
Proof. intros Hget. unfold _fetch_data, bind. by rewrite Hget. Qed.

(** The miss path, step by step: the dictionary gets the credential and
    the unit, the request goes out, and the answer decides the rest. *)
Lemma fetch_miss self E endpoint params key w w0 :
  CacheManager.get (cache self) (now_get E) key w = (Return None, w0) →
  let url := url_of self endpoint params w0 in
  let w2 := sent url (with_credentials self params w0) in
  _fetch_data self E endpoint params key w =
    match classify self (default [] (heap w2 !! params)) (upstream E url) with
    | inl e => (Raise e, w2)
    | inr payload =>
        (Return {| data := payload; cached := false; cached_at := None |},
         after_set (now_set E) (disk E) key payload w2)
    end.
Proof.
  intros Hget url w2. unfold _fetch_data. unfold bind at 1. rewrite Hget.
  unfold bind at 1. rewrite build_url_spec. fold url.
  unfold try_except, bind at 1, client_get.
  fold (sent url (with_credentials self params w0)). fold w2.
  unfold classify.
  destruct (upstream E url) as [e | r].
  - cbn [dispatch]. unfold catches. cbn [existsb]. rewrite !orb_false_r.
    destruct (issubclass (exn_cls e) httpx_TimeoutException); [done|].
    destruct (issubclass (exn_cls e) httpx_NetworkError); [done|].
    destruct (issubclass (exn_cls e) httpx_HTTPError); [done|].
    by destruct e.
  - unfold bind at 1.
    destruct (status_code r =? 404) eqn:H404; [done|].
    destruct (status_code r =? 401) eqn:H401; [done|].
    destruct (status_code r =? 200) eqn:H200; cbn [negb]; [|done].
    unfold ret at 1. unfold bind at 1, try_except, response_json.
    destruct r as [st tx [e | payload]]; cbn [parsed].
    + cbn [dispatch]. unfold reraise at 1. cbn beta iota.
      by rewrite catches_Exception.
    + unfold ret at 1. unfold bind. by rewrite set_returns.
Qed.

End Fetch.

(* ================================================================== *)
(** * The claims of the specification *)
(* ================================================================== *)

(** ** The cache store *)

Section CacheClaims.
Context `{IsoFormat}.
Import CacheManager.

(** [get] on the stored file's condition, for a file the directory lets
    go: no file is a miss, for a name the file system can look up; a
    file that is not JSON or not UTF-8, an
    object without [cached_at] or without [data], and a [cached_at]
    string that is not a timestamp are a miss that removes the file; so
    is a record past its time-to-live; a record in date is a hit with
    its payload and its own stamp. *)
Lemma get_outcomes (self : CacheManager.t) (now : datetime) (key : string)
    (w : world) :
  utcoffset now = None → ttl_in_range self = true →
  _get_cache_file_path key ∉ pinned w →
  let name := _get_cache_file_path key in
  (files w !! name = None → name_fits name = true →
   get self now key w = (Return None, w)) ∧
  (∀ c k, files w !! name = Some c → unreadable now c k →
          k = JSONDecodeError ∨ k = UnicodeError ∨ k = KeyError ∨ k = ValueError →
          get self now key w = (Return None, without name w)) ∧
  (∀ ms s stamp,
     files w !! name = Some (Doc (JObj ms)) →
     members_get "cached_at" ms = Some (JStr s) →
     fromisoformat s = Some stamp → utcoffset stamp = None →
     (seconds_us (expiry_seconds self) < age_us now stamp →
      get self now key w = (Return None, without name w)) ∧
     (age_us now stamp <= seconds_us (expiry_seconds self) →
      (∀ payload, members_get "data" ms = Some payload →
         get self now key w =
           (Return (Some {| data := payload; cached := true;
                            cached_at := Some stamp |}), w)) ∧
      (members_get "data" ms = None →
         get self now key w = (Return None, without name w)))).
Proof.
  intros Hnow Httl Hp name. split; [| split].
  - apply get_absent.
  - intros c k Hf Hu Hk. eapply get_caught; eauto.
    by destruct Hk as [-> | [-> | [-> | ->]]].
  - intros ms s stamp Hf Hm Hs Hst. split; [| split].
    + intros Hage. by eapply get_expired.
    + intros payload Hd. by eapply get_hit.
    + intros Hd. by eapply get_no_data.
Qed.

(** C6, write-replace.  After [set(k, v1)] and then [set(k, v2)] whose
    write reached the disk at time [t2], the directory holds for [k] the
    one record of [v2], and a [get(k)] no later than the time-to-live
    after [t2] answers [v2] with the stamp [t2]; it does not answer
    [v1]. *)
Theorem last_write_wins (self : CacheManager.t) (k : string) (v1 v2 : json)
    (t1 t2 t3 : datetime) (disk1 : write_outcome) (w : world) :
  valid_datetime t2 = true → utcoffset t2 = None → utcoffset t3 = None →
  ttl_in_range self = true →
  age_us t3 t2 <= seconds_us (expiry_seconds self) →
  let w1 := snd (set self t1 disk1 k v1 w) in
  let w2 := snd (set self t2 Written k v2 w1) in
  files w2 !! _get_cache_file_path k = Some (Doc (cache_record v2 t2)) ∧
  get self t3 k w2 =
    (Return (Some {| data := v2; cached := true; cached_at := Some t2 |}), w2) ∧
  (v1 ≠ v2 →
   ∀ hit w', get self t3 k w2 = (Return (Some hit), w') → data hit ≠ v1).
Proof.
  intros Hv Ht2 Ht3 Httl Hage w1 w2.
  assert (files w2 !! _get_cache_file_path k = Some (Doc (cache_record v2 t2)))
    as Hf.
  { unfold w2. rewrite set_returns. cbn [snd after_set files with_files].
    apply lookup_insert_eq. }
  assert (get self t3 k w2 =
            (Return (Some {| data := v2; cached := true; cached_at := Some t2 |}), w2))
    as Hget.
  { rewrite (get_after_write _ _ _ _ _ _ Hf Hv Ht2 Ht3 Httl).
    by rewrite (proj2 (Z.ltb_ge _ _) Hage). }
  split; [done | split; [done|]].
  intros Hne hit w'. rewrite Hget. by intros [= <- _].
Qed.

(** C9, the boundary.  For a stored record whose stamp parses, [get] and
    [clear_expired] compare strictly: at an age of exactly the
    time-to-live the record is a hit and the sweep keeps it; up to that
    age it is a hit; only past it is it a miss, removed by either. *)
Theorem ttl_boundary_is_fresh (self : CacheManager.t) (now : datetime)
    (key : string) (w : world) (ms : list (string * json)) (s : string)
    (stamp : datetime) (payload : json) :
  let name := _get_cache_file_path key in
  files w !! name = Some (Doc (JObj ms)) →
  members_get "cached_at" ms = Some (JStr s) →
  fromisoformat s = Some stamp →
  members_get "data" ms = Some payload →
  utcoffset now = None → utcoffset stamp = None →
  ttl_in_range self = true → name ∉ pinned w →
  let hit := {| data := payload; cached := true; cached_at := Some stamp |} in
  (age_us now stamp = seconds_us (expiry_seconds self) →
     get self now key w = (Return (Some hit), w) ∧
     clear_expired self (λ _, now) [name] w = (Return 0, w)) ∧
  (age_us now stamp <= seconds_us (expiry_seconds self) →
     get self now key w = (Return (Some hit), w) ∧
     clear_expired self (λ _, now) [name] w = (Return 0, w)) ∧
  (seconds_us (expiry_seconds self) < age_us now stamp →
     get self now key w = (Return None, without name w) ∧
     clear_expired self (λ _, now) [name] w = (Return 1, without name w)).
Proof.
  intros name Hf Hm Hs Hd Hnow Hst Httl Hp hit.
  assert (age_us now stamp <= seconds_us (expiry_seconds self) →
          get self now key w = (Return (Some hit), w) ∧
          clear_expired self (λ _, now) [name] w = (Return 0, w)) as Hfresh.
  { intros Hage. split; [by eapply get_hit|].
    unfold clear_expired.
    rewrite (clear_expired_step self (λ _, now) [] 0 w name _ false Hf);
      try done.
    by eapply judged_fresh. }
  split; [| split; [done|]].
  - intros Heq. apply Hfresh. lia.
  - intros Hage. split; [by eapply get_expired|].
    unfold clear_expired.
    rewrite (clear_expired_step self (λ _, now) [] 0 w name _ true Hf);
      try done.
    by eapply judged_expired.
Qed.

End CacheClaims.

Section BulkEviction.
Context `{IsoFormat}.
Import CacheManager.

(** C8, bulk eviction.  Take a cache directory whose [.json] files are
    [e] stale ones (records past the time-to-live when the sweep looks at
    them, or files that do not read as a record) and [f] records in
    date, none of them pinned.  [clear_expired] returns [e] and removes
    exactly the stale files; whatever the glob then yields is the [f]
    records in date, and [clear] on them returns [f] and leaves no
    [.json] file.  Besides, in any directory, [clear] removes every
    listed file the file system lets go and counts those: a file it
    cannot unlink is skipped, and the sweep goes on. *)
Theorem clear_expired_then_clear :
  (∀ (self : CacheManager.t) (now : string → datetime)
     (stale : string → bool) (w : world) (listing : list string) (e f : nat),
     glob_json listing w →
     (∀ name, name ∈ listing → name ∉ pinned w) →
     (∀ name, utcoffset (now name) = None) →
     ttl_in_range self = true →
     (∀ name c, name ∈ listing → files w !! name = Some c →
                judged self (now name) c (stale name)) →
     length (filter (λ n, stale n = true) listing) = e →
     length (filter (λ n, stale n = false) listing) = f →
     ∃ w1,
       clear_expired self now listing w = (Return (Z.of_nat e), w1) ∧
       (∀ name, files w1 !! name =
                  if bool_decide (name ∈ listing) && stale name
                  then None else files w !! name) ∧
       ∀ listing1, glob_json listing1 w1 →
         listing1 ≡ₚ filter (λ n, stale n = false) listing ∧
         ∃ w2,
           clear self listing1 w1 = (Return (Z.of_nat f), w2) ∧
           ∀ name, is_json_name name = true → files w2 !! name = None) ∧
  (∀ (self : CacheManager.t) (w : world) (listing : list string),
     glob_json listing w →
     ∃ w',
       clear self listing w =
         (Return (Z.of_nat (length (filter (λ n, loose w n = true) listing))), w') ∧
       ∀ name, files w' !! name =
                 if bool_decide (name ∈ listing) && loose w name
                 then None else files w !! name).
Proof.
  split.
  - intros self now stale w listing e f [Hnd Hglob] Hpin Hnow Httl Hj He Hf.
    exists (remove_all (filter (λ n, stale n = true) listing) w).
    assert (∀ name, files (remove_all (filter (λ n, stale n = true) listing) w) !! name
              = if bool_decide (name ∈ listing) && stale name
                then None else files w !! name) as Hfiles.
    { intros name. rewrite files_remove_all.
      case_bool_decide as Hin.
      - apply elem_of_filter_stale in Hin as [Hin ->].
        by rewrite bool_decide_eq_true_2.
      - case_bool_decide as Hl; [|done].
        destruct (stale name) eqn:Hs; [|done].
        destruct Hin. by apply elem_of_filter_stale. }
    split; [| split; [done|]].
    + unfold clear_expired.
      rewrite (clear_expired_loop_spec self now stale); try done.
      * by rewrite He.
      * intros name Hin. destruct (proj1 (Hglob name) Hin) as [[c Hc] _].
        exists c. split; [done|]. by apply Hj.
    + intros listing1 [Hnd1 Hglob1].
      assert (∀ name, name ∈ listing1 ↔
                      name ∈ filter (λ n, stale n = false) listing) as Hsame.
      { intros name. rewrite list_elem_of_filter. split.
        - intros Hin. apply Hglob1 in Hin as [Hsome Hjs].
          rewrite Hfiles in Hsome.
          case_bool_decide as Hl.
          + destruct (stale name); [by destruct Hsome | done].
          + destruct Hl. by apply Hglob.
        - intros [Hs Hin]. apply Hglob1.
          destruct (proj1 (Hglob name) Hin) as [Hsome Hjs].
          split; [|done]. by rewrite Hfiles, Hs, andb_false_r. }
      assert (listing1 ≡ₚ filter (λ n, stale n = false) listing) as Hperm.
      { apply NoDup_Permutation; [done | by apply NoDup_filter | done]. }
      split; [done|].
      set (w1 := remove_all _ w) in *.
      assert (∀ name, name ∈ listing1 → is_Some (files w1 !! name)) as Hall
        by (intros name Hin; by apply Hglob1).
      assert (filter (λ n, loose w1 n = true) listing1 = listing1) as Hloose.
      { apply filter_all. intros name Hin.
        unfold loose, w1. rewrite pinned_remove_all.
        rewrite bool_decide_eq_false_2; [done|].
        apply Hpin. apply Hsame in Hin.
        by apply list_elem_of_filter in Hin as [_ ?]. }
      exists (remove_all listing1 w1). split.
      * assert (length listing1 = f) as Hlen by (by rewrite Hperm).
        unfold clear. rewrite (clear_loop_spec listing1 w1 0 Hnd1 Hall).
        by rewrite Hloose, Hlen.
      * intros name Hjson. rewrite files_remove_all.
        case_bool_decide as Hin; [done|].
        destruct (files w1 !! name) eqn:Hlook; [|done].
        destruct Hin. apply Hglob1. split; [by eexists | done].
  - intros self w listing [Hnd Hglob].
    exists (remove_all (filter (λ n, loose w n = true) listing) w). split.
    + unfold clear. rewrite clear_loop_spec; [done | done |].
      intros name Hin. by apply Hglob.
    + intros name. rewrite files_remove_all.
      case_bool_decide as Hin.
      * apply list_elem_of_filter in Hin as [-> Hin].
        by rewrite bool_decide_eq_true_2.
      * case_bool_decide as Hl; [|done].
        destruct (loose w name) eqn:Hs; [|done].
        destruct Hin. by apply list_elem_of_filter.
Qed.
End BulkEviction.

(** ** The fetch orchestrator *)

Section FetchClaims.
Context `{IsoFormat}.
Import WeatherService.

Implicit Types (self : WeatherService.t) (E : env) (w : world)
               (params : ref) (endpoint key : string).

(** [get] leaves everything but the cache directory alone. *)
Lemma get_frame (manager : CacheManager.t) now key w o w0 :
  utcoffset now = None →
  CacheManager.get manager now key w = (o, w0) →
  heap w0 = heap w ∧ requests w0 = requests w ∧ stdout w0 = stdout w ∧
  pinned w0 = pinned w.
Proof.
  intros Hnow Hget. apply (get_footprint _ _ _ _ _ _ Hnow) in Hget as [-> _].
  by destruct o as [[hit|]|e].
Qed.

(** C2, the two ways [_fetch_data] succeeds.  With a clock that reads
    naive local time: (1) when [get] has an entry, the call returns that
    entry and leaves the world as it was, so no request went out; the
    entry is marked cached and carries the payload and the stamp of the
    stored record; (2) in particular a record [set] wrote at [stamp],
    still in date, comes back with [cached_at = stamp] whatever the
    clock reads now; (3) when [get] misses and the upstream answers 200
    with a body that parses, the call sends one request, hands the
    payload to [set] under the same key and returns it uncached with no
    [cached_at]; when the write reaches the disk the key's file is the
    record of that payload; (4) whatever the call returns, uncached
    means no [cached_at], and cached means the stamp of the record that
    was stored under the key. *)
Theorem fetch_serves_cache_then_upstream self E endpoint params key w :
  utcoffset (now_get E) = None →
  let name := CacheManager._get_cache_file_path key in
  (∀ hit w0,
     CacheManager.get (cache self) (now_get E) key w = (Return (Some hit), w0) →
     _fetch_data self E endpoint params key w = (Return hit, w) ∧
     cached hit = true ∧
     ∃ ms s stamp,
       files w !! name = Some (Doc (JObj ms)) ∧
       members_get "cached_at" ms = Some (JStr s) ∧
       fromisoformat s = Some stamp ∧
       members_get "data" ms = Some (data hit) ∧
       cached_at hit = Some stamp) ∧
  (∀ payload stamp,
     files w !! name = Some (Doc (CacheManager.cache_record payload stamp)) →
     valid_datetime stamp = true → utcoffset stamp = None →
     ttl_in_range (cache self) = true →
     age_us (now_get E) stamp <= seconds_us (CacheManager.expiry_seconds (cache self)) →
     _fetch_data self E endpoint params key w =
       (Return {| data := payload; cached := true; cached_at := Some stamp |}, w)) ∧
  (∀ w0 r payload,
     CacheManager.get (cache self) (now_get E) key w = (Return None, w0) →
     let url := url_of self endpoint params w0 in
     upstream E url = Responds r → status_code r = 200 → parsed r = inr payload →
     ∃ w',
       _fetch_data self E endpoint params key w =
         (Return {| data := payload; cached := false; cached_at := None |}, w') ∧
       w' = after_set (now_set E) (disk E) key payload
              (sent url (with_credentials self params w0)) ∧
       requests w' = requests w ++ [url] ∧
       (disk E = Written →
        files w' !! name =
          Some (Doc (CacheManager.cache_record payload (now_set E))))) ∧
  (∀ res w',
     _fetch_data self E endpoint params key w = (Return res, w') →
     (cached res = false → cached_at res = None) ∧
     (cached res = true →
        ∃ ms s stamp,
          files w !! name = Some (Doc (JObj ms)) ∧
          members_get "cached_at" ms = Some (JStr s) ∧
          fromisoformat s = Some stamp ∧
          cached_at res = Some stamp)).
Proof.
  intros Hnow name. split; [| split; [| split]].
  - intros hit w0 Hget.
    pose proof (get_footprint _ _ _ _ _ _ Hnow Hget) as [-> Hhit].
    destruct (Hhit hit eq_refl)
      as (ms & s & stamp & Hf & Hm & Hs & _ & Hd & Hc & Hat & _).
    split; [by apply fetch_hit | split; [done|]].
    by exists ms, s, stamp.
  - intros payload stamp Hf Hv Hst Httl Hage. apply fetch_hit.
    rewrite (get_after_write _ _ _ _ _ _ Hf Hv Hst Hnow Httl).
    by rewrite (proj2 (Z.ltb_ge _ _) Hage).
  - intros w0 r payload Hget url Hup Hst Hp.
    pose proof (get_frame _ _ _ _ _ _ Hnow Hget) as (Hheap & Hreq & Hout & Hpin).
    eexists. split; [| split; [reflexivity | split]].
    + rewrite (fetch_miss _ _ _ _ _ _ _ Hget). fold url. rewrite Hup.
      unfold classify. rewrite Hst, Hp. reflexivity.
    + destruct (disk E); cbn; by rewrite Hreq.
    + intros ->. cbn. apply lookup_insert_eq.
  - intros res w' Hrun.
    destruct (CacheManager.get (cache self) (now_get E) key w)
      as [[[hit|]|e] w0] eqn:Hget.
    + rewrite (fetch_hit _ _ _ _ _ _ _ _ Hget) in Hrun. injection Hrun as <- <-.
      apply (get_footprint _ _ _ _ _ _ Hnow) in Hget as [_ Hhit].
      destruct (Hhit hit eq_refl)
        as (ms & s & stamp & Hf & Hm & Hs & _ & Hd & Hc & Hat & _).
      split; [congruence|]. intros _. by exists ms, s, stamp.
    + rewrite (fetch_miss _ _ _ _ _ _ _ Hget) in Hrun.
      destruct (classify _ _ _); [done|]. by injection Hrun as <- <-.
    + by rewrite (fetch_lookup_raises _ _ _ _ _ _ _ _ Hget) in Hrun.
Qed.

Lemma fails_with_unique {A} (run : outcome A * world) k k' msg msg' wa wb :
  fails_with run k msg wa → fails_with run k' msg' wb → k = k'.
Proof.
  intros (c & -> & Hk) (c' & [= <- _ _] & Hk'). congruence.
Qed.

(** C3, classification.  On a miss, what the transport did decides the
    failure [_fetch_data] leaves with, one kind per case: a raised
    httpx timeout is [Timeout]; any other raised httpx error, a network
    error first, is [NetworkFailure]; a response is looked at only when
    there is one, and then 404 is [NotFound], 401 is [Unauthorized], any
    other status but 200 is [InvalidResponse] with the status and the
    body in the text, and 200 with a body that does not parse is
    [InvalidResponse].  No run fails with two kinds. *)
Theorem fetch_classifies_upstream_failure self E endpoint params key w w0 :
  CacheManager.get (cache self) (now_get E) key w = (Return None, w0) →
  let url := url_of self endpoint params w0 in
  let w2 := sent url (with_credentials self params w0) in
  let run := _fetch_data self E endpoint params key w in
  (∀ e, upstream E url = Raises e →
     (issubclass (exn_cls e) httpx_TimeoutException = true →
      fails_with run Timeout
        ("Request timeout after " +:+ pretty (timeout self)
         +:+ " seconds: " +:+ exn_msg e) w2) ∧
     (issubclass (exn_cls e) httpx_TimeoutException = false →
      issubclass (exn_cls e) httpx_HTTPError = true →
      fails_with run NetworkFailure
        ((if issubclass (exn_cls e) httpx_NetworkError
          then "Network error occurred: " else "HTTP error occurred: ")
         +:+ exn_msg e) w2)) ∧
  (∀ r, upstream E url = Responds r →
     (status_code r = 404 →
      fails_with run NotFound
        ("City not found: " +:+ city_of (default [] (heap w2 !! params))) w2) ∧
     (status_code r = 401 →
      fails_with run Unauthorized "Invalid API key" w2) ∧
     (status_code r ≠ 404 → status_code r ≠ 401 → status_code r ≠ 200 →
      fails_with run InvalidResponse
        ("API returned status code " +:+ pretty (status_code r)
         +:+ ": " +:+ text r) w2) ∧
     (status_code r = 200 → ∀ e, parsed r = inl e →
      fails_with run InvalidResponse
        ("Failed to parse JSON response: " +:+ exn_msg e) w2)) ∧
  (∀ k k' msg msg' wa wb,
     fails_with run k msg wa → fails_with run k' msg' wb → k = k').
Proof.
  intros Hget url w2 run.
  assert (run = match classify self (default [] (heap w2 !! params))
                        (upstream E url) with
                | inl e => (Raise e, w2)
                | inr payload =>
                    (Return {| data := payload; cached := false;
                               cached_at := None |},
                     after_set (now_set E) (disk E) key payload w2)
                end) as Hrun by apply (fetch_miss _ _ _ _ _ _ _ Hget).
  split; [| split].
  - intros e Hup. rewrite Hup in Hrun. cbn [classify] in Hrun. split.
    + intros Ht. rewrite Ht in Hrun. by eexists.
    + intros Ht Hh. rewrite Ht, Hh in Hrun.
      destruct (issubclass (exn_cls e) httpx_NetworkError); by eexists.
  - intros r Hup. rewrite Hup in Hrun. cbn [classify] in Hrun.
    split; [| split; [| split]].
    + intros Hst. rewrite (proj2 (Z.eqb_eq _ _) Hst) in Hrun. by eexists.
    + intros Hst. destruct (status_code r =? 404) eqn:H404; [lia|].
      rewrite (proj2 (Z.eqb_eq _ _) Hst) in Hrun. by eexists.
    + intros H404 H401 H200.
      rewrite (proj2 (Z.eqb_neq _ _) H404), (proj2 (Z.eqb_neq _ _) H401),
        (proj2 (Z.eqb_neq _ _) H200) in Hrun.
      cbn [negb] in Hrun. by eexists.
    + intros Hst e Hp. rewrite Hst, Hp in Hrun.
      change (200 =? 404) with false in Hrun.
      change (200 =? 401) with false in Hrun.
      change (200 =? 200) with true in Hrun.
      cbn [negb] in Hrun. by eexists.
  - intros k k' msg msg' wa wb. apply fails_with_unique.
Qed.

(** C4, as the code has it.  When [get] misses and the upstream request
    fails, [_fetch_data] leaves with one of the five failures and calls
    no [set]: the cache directory is as the lookup left it, which is the
    directory from before the call without the key's file (the lookup
    removes an expired or unreadable record; where the key had no file
    the directory is unchanged), and nothing is printed. *)
Theorem failed_fetch_writes_nothing self E endpoint params key w w0 :
  utcoffset (now_get E) = None →
  CacheManager.get (cache self) (now_get E) key w = (Return None, w0) →
  upstream_failed (upstream E (url_of self endpoint params w0)) = true →
  let name := CacheManager._get_cache_file_path key in
  ∃ k msg w',
    fails_with (_fetch_data self E endpoint params key w) k msg w' ∧
    files w' = files w0 ∧
    files w' = delete name (files w) ∧
    (files w !! name = None → files w' = files w) ∧
    stdout w' = stdout w.
Proof.
  intros Hnow Hget Hfail name.
  pose proof (get_footprint _ _ _ _ _ _ Hnow Hget) as [Hw0 _].
  rewrite (fetch_miss _ _ _ _ _ _ _ Hget).
  set (url := url_of self endpoint params w0) in *.
  set (w2 := sent url (with_credentials self params w0)).
  assert (files w2 = files w0 ∧ files w2 = delete name (files w) ∧
          (files w !! name = None → files w2 = files w) ∧
          stdout w2 = stdout w) as Hframe.
  { subst w0. cbn. repeat split. intros Hf. by apply delete_id. }
  assert (∀ k c msg, error_kind c = Some k →
            ∃ k msg' w',
              fails_with (@Raise result (Exn c msg), w2) k msg' w' ∧
              files w' = files w0 ∧ files w' = delete name (files w) ∧
              (files w !! name = None → files w' = files w) ∧
              stdout w' = stdout w) as Hdone.
  { intros k c msg Hk. exists k, msg, w2. split; [by exists c | done]. }
  unfold upstream_failed in Hfail. unfold classify.
  destruct (upstream E url) as [e | r].
  - rewrite Hfail.
    destruct (issubclass (exn_cls e) httpx_TimeoutException);
      [by eapply Hdone|].
    destruct (issubclass (exn_cls e) httpx_NetworkError); by eapply Hdone.
  - destruct (status_code r =? 404); [by eapply Hdone|].
    destruct (status_code r =? 401); [by eapply Hdone|].
    destruct (status_code r =? 200); cbn [negb orb] in *; [|by eapply Hdone].
    destruct (parsed r); [by eapply Hdone | done].
Qed.

(** C5, cache-write failures.  [set] never raises: when the write
    reaches the disk the key's file is the record of the payload and the
    time, [{"data": payload, "cached_at": now.isoformat()}], whatever was
    there before, and nothing is printed; when it does not, [set] prints
    the warning and returns all the same (a file that could not be opened
    is left as it was, a write that failed midway leaves a file that no
    longer reads as JSON).  And a [_fetch_data] whose upstream call
    succeeded returns the fresh payload whatever the write met: the
    record of that payload is in the key's file when the write reached
    the disk, and the warning is the only trace when it did not. *)
Theorem cache_write_failure_is_swallowed :
  (∀ (manager : CacheManager.t) now disk key payload w,
     let name := CacheManager._get_cache_file_path key in
     let record :=
       JObj [("data", payload); ("cached_at", JStr (isoformat now))] in
     ∃ w',
       CacheManager.set manager now disk key payload w = (Return tt, w') ∧
       (∀ other, other ≠ name → files w' !! other = files w !! other) ∧
       pinned w' = pinned w ∧ heap w' = heap w ∧ requests w' = requests w ∧
       match disk with
       | Written =>
           files w' = <[name := Doc record]> (files w) ∧
           files w' !! name = Some (Doc record) ∧
           members_get "data" [("data", payload);
                               ("cached_at", JStr (isoformat now))]
             = Some payload ∧
           members_get "cached_at" [("data", payload);
                                    ("cached_at", JStr (isoformat now))]
             = Some (JStr (isoformat now)) ∧
           stdout w' = stdout w
       | OpenFailed e =>
           files w' = files w ∧
           stdout w' = stdout w ++ ["Warning: Failed to cache data: " +:+ exn_msg e]
       | DumpFailed e =>
           files w' = <[name := NotJson]> (files w) ∧
           stdout w' = stdout w ++ ["Warning: Failed to cache data: " +:+ exn_msg e]
       end) ∧
  (∀ self E endpoint params key w w0 r payload,
     utcoffset (now_get E) = None →
     CacheManager.get (cache self) (now_get E) key w = (Return None, w0) →
     upstream E (url_of self endpoint params w0) = Responds r →
     status_code r = 200 → parsed r = inr payload →
     ∃ w',
       _fetch_data self E endpoint params key w =
         (Return {| data := payload; cached := false; cached_at := None |}, w') ∧
       (disk E = Written →
        files w' !! CacheManager._get_cache_file_path key =
          Some (Doc (JObj [("data", payload);
                           ("cached_at", JStr (isoformat (now_set E)))])) ∧
        stdout w' = stdout w) ∧
       ∀ e, disk E = OpenFailed e ∨ disk E = DumpFailed e →
            stdout w' = stdout w ++ ["Warning: Failed to cache data: " +:+ exn_msg e]).
Proof.
  split.
  - intros manager now disk key payload w name record.
    exists (after_set now disk key payload w). split; [apply set_returns|].
    split; [|split; [by destruct disk | split; [by destruct disk|]]].
    + intros other Hne. unfold after_set.
      destruct disk; cbn [files with_files with_stdout];
        by rewrite ?lookup_insert_ne by done.
    + split; [by destruct disk|].
      destruct disk; [|done|done].
      repeat split. apply lookup_insert_eq.
  - intros self E endpoint params key w w0 r payload Hnow Hget Hup Hst Hp.
    pose proof (get_frame _ _ _ _ _ _ Hnow Hget) as (_ & _ & Hout & _).
    eexists. split; [|split].
    + rewrite (fetch_miss _ _ _ _ _ _ _ Hget), Hup.
      unfold classify. rewrite Hst, Hp. reflexivity.
    + intros ->. cbn. split; [apply lookup_insert_eq | done].
    + intros e [-> | ->]; cbn; by rewrite Hout.
Qed.

Lemma dict_lookup_setitem k k' v d :
  dict_lookup k' (dict_setitem k v d) =
    if String.eqb k k' then Some v else dict_lookup k' d.
Proof.
  induction d as [| [k0 v0] rest IH]; cbn [dict_setitem dict_lookup].
  - by destruct (String.eqb_spec k k').
  - destruct (String.eqb_spec k0 k) as [-> | Hne]; cbn [dict_lookup].
    + by destruct (String.eqb_spec k k').
    + rewrite IH. destruct (String.eqb_spec k0 k') as [-> | Hne'].
      * by rewrite (proj2 (String.eqb_neq _ _)) by done.
      * done.
Qed.

(** C10, the caller's dictionary.  [_fetch_data] works on the very
    dictionary the caller passed: on a miss, when the call is over
    (returned or raised), that dictionary holds the credential under
    ['appid'] and ['metric'] under ['units'], its other entries as they
    were; when [get] had an entry (or raised) the dictionary is
    untouched. *)
Theorem fetch_writes_into_caller_params self E endpoint params key w d o w' :
  utcoffset (now_get E) = None →
  heap w !! params = Some d →
  _fetch_data self E endpoint params key w = (o, w') →
  match fst (CacheManager.get (cache self) (now_get E) key w) with
  | Return None =>
      let d' := dict_setitem "units" (PStr "metric")
                  (dict_setitem "appid" (PStr (api_key self)) d) in
      heap w' !! params = Some d' ∧
      dict_lookup "appid" d' = Some (PStr (api_key self)) ∧
      dict_lookup "units" d' = Some (PStr "metric") ∧
      ∀ k, k ≠ "appid" → k ≠ "units" → dict_lookup k d' = dict_lookup k d
  | _ => heap w' = heap w
  end.
Proof.
  intros Hnow Hd Hrun.
  destruct (CacheManager.get (cache self) (now_get E) key w)
    as [got w0] eqn:Hget.
  pose proof (get_frame _ _ _ _ _ _ Hnow Hget) as (Hheap & _).
  destruct got as [[hit|]|e]; cbn [fst].
  - rewrite (fetch_hit _ _ _ _ _ _ _ _ Hget) in Hrun. by injection Hrun as <- <-.
  - rewrite (fetch_miss _ _ _ _ _ _ _ Hget) in Hrun.
    assert (heap w' = heap (with_credentials self params w0)) as ->.
    { destruct (classify _ _ _); injection Hrun as <- <-; [done|].
      by destruct (disk E). }
    cbn [with_credentials heap with_heap]. rewrite Hheap.
    rewrite !lookup_alter_eq, Hd. cbn [fmap option_fmap option_map].
    split; [done|]. split; [| split].
    + by rewrite !dict_lookup_setitem.
    + by rewrite !dict_lookup_setitem.
    + intros k Ha Hu. rewrite !dict_lookup_setitem.
      rewrite (proj2 (String.eqb_neq "units" k)) by done.
      by rewrite (proj2 (String.eqb_neq "appid" k)) by done.
  - rewrite (fetch_lookup_raises _ _ _ _ _ _ _ _ Hget) in Hrun.
    by injection Hrun as <- <-.
Qed.

End FetchClaims.

(** ** The key codec *)

Section KeyCodec.
Import CacheManager.

Lemma sanitise_replaced c :
  (let c1 := if Ascii.eqb c "/" then "_" else c in
   let c2 := if Ascii.eqb c1 ":" then "_" else c1 in
   let c3 := if Ascii.eqb c2 "?" then "_" else c2 in
   if Ascii.eqb c3 "&" then "_" else c3)%char = sanitise c.
Proof. by destruct c as [[] [] [] [] [] [] [] []]. Qed.

Lemma safe_key_map key : safe_key key = map_chars sanitise key.
Proof.
  unfold safe_key. induction key as [| c rest IH]; [done|].
  cbn [replace map_chars]. by rewrite IH, <- sanitise_replaced.
Qed.

Lemma sanitise_not_reserved c : reserved (sanitise c) = false.
Proof. by destruct c as [[] [] [] [] [] [] [] []]. Qed.

Lemma sanitise_plain c : reserved c = false → sanitise c = c.
Proof. unfold sanitise. by intros ->. Qed.

Lemma map_sanitise_plain key : plain key = true → map_chars sanitise key = key.
Proof.
  induction key as [| c rest IH]; [done|]. cbn [plain all_chars map_chars].
  intros [Hc Hrest]%andb_prop. apply negb_true_iff in Hc.
  by rewrite (sanitise_plain _ Hc), IH.
Qed.

Lemma append_cons c (s t : string) : String c s +:+ t = String c (s +:+ t).
Proof. reflexivity. Qed.

Lemma append_length (s t : string) :
  String.length (s +:+ t) = (String.length s + String.length t)%nat.
Proof.
  induction s as [| c rest IH]; [done|].
  rewrite append_cons. cbn [String.length]. by rewrite IH.
Qed.

Lemma append_inj_r (s1 s2 t : string) : s1 +:+ t = s2 +:+ t → s1 = s2.
Proof.
  revert s2. induction s1 as [| c1 r1 IH]; intros [| c2 r2] Heq; [done| | |].
  - apply (f_equal String.length) in Heq.
    rewrite append_cons in Heq. cbn [String.length] in Heq.
    rewrite !append_length in Heq. cbn [String.length] in Heq. lia.
  - apply (f_equal String.length) in Heq.
    rewrite append_cons in Heq. cbn [String.length] in Heq.
    rewrite !append_length in Heq. cbn [String.length] in Heq. lia.
  - rewrite !append_cons in Heq. injection Heq as -> Heq. f_equal. by apply IH.
Qed.

(** C7, as the code has it.  The encoding replaces each ['/'], [':'],
    ['?'] and ['&'] of the key by ['_'] and changes nothing else: the
    length stays, the result has none of the four characters, a key
    without them is its own encoding.  Two keys get the same file name
    exactly when they agree after the replacement; so the encoding is
    injective on the keys that have none of the four characters. *)
Theorem safe_key_replaces_reserved :
  (∀ key, safe_key key = map_chars sanitise key) ∧
  (∀ key, String.length (safe_key key) = String.length key) ∧
  (∀ key, plain (safe_key key) = true) ∧
  (∀ key, plain key = true → safe_key key = key) ∧
  (∀ k1 k2, _get_cache_file_path k1 = _get_cache_file_path k2 ↔
            map_chars sanitise k1 = map_chars sanitise k2) ∧
  (∀ k1 k2, plain k1 = true → plain k2 = true →
            _get_cache_file_path k1 = _get_cache_file_path k2 → k1 = k2).
Proof.
  assert (∀ k1 k2, _get_cache_file_path k1 = _get_cache_file_path k2 ↔
                   map_chars sanitise k1 = map_chars sanitise k2) as Hsame.
  { intros k1 k2. unfold _get_cache_file_path. rewrite !safe_key_map. split.
    - apply append_inj_r.
    - by intros ->. }
  repeat split.
  - apply safe_key_map.
  - intros key. rewrite safe_key_map.
    induction key as [| c rest IH]; [done|]. cbn. by rewrite IH.
  - intros key. rewrite safe_key_map.
    induction key as [| c rest IH]; [done|]. cbn [map_chars plain all_chars].
    rewrite sanitise_not_reserved. apply IH.
  - intros key Hp. by rewrite safe_key_map, map_sanitise_plain.
  - apply Hsame.
  - apply Hsame.
  - intros k1 k2 Hp1 Hp2 Heq. apply Hsame in Heq.
    by rewrite !map_sanitise_plain in Heq.
Qed.

(** C7 as stated fails: two different keys, one file name. *)
Lemma safe_key_collision :
  "weather_Frankfurt/Oder" ≠ "weather_Frankfurt:Oder" ∧
  _get_cache_file_path "weather_Frankfurt/Oder" =
    _get_cache_file_path "weather_Frankfurt:Oder".
Proof. split; [discriminate | reflexivity]. Qed.

(** The encoding of the specification's example key, and two plain keys
    kept apart. *)
Lemma safe_key_replaces_reserved_witness :
  safe_key "forecast/London?cnt=8" = "forecast_London_cnt=8" ∧
  ("weather_London" ≠ "weather_Paris" →
   _get_cache_file_path "weather_London" ≠ _get_cache_file_path "weather_Paris").
Proof.
  destruct safe_key_replaces_reserved as (Hmap & _ & _ & _ & _ & Hinj).
  split.
  - rewrite Hmap. reflexivity.
  - intros Hne Heq. apply Hne. by apply Hinj.
Defined.

End KeyCodec.

(* ================================================================== *)
(** * The claims at concrete inputs *)
(* ================================================================== *)

Section Instances.
Import Examples.
#[local] Existing Instance iso8601.

(** C1 at a record whose [cached_at] is a number: [get] leaves with a
    [TypeError] and the file stays, where the claim has a miss and the
    file removed. *)
Lemma get_numeric_stamp_raises :
  CacheManager.get manager (at_time 12 5 0) "weather_London" numeric_stamp =
    (Raise (Exn TypeError "fromisoformat: argument must be str"), numeric_stamp).
Proof. reflexivity. Qed.

(** The sweep's [except Exception] does remove that file. *)
Lemma clear_expired_numeric_stamp :
  CacheManager.clear_expired manager (λ _, at_time 12 5 0)
    ["weather_London.json"] numeric_stamp =
    (Return 1, without "weather_London.json" numeric_stamp).
Proof. reflexivity. Qed.

(** A record stored at 12:00:00 and fetched at 12:04:00 comes back as
    stored, with the stamp of 12:00:00. *)
Lemma fetch_serves_cache_then_upstream_witness :
  WeatherService._fetch_data service
    (env_at (at_time 12 4 0) (Responds (ok_response paris)))
    "weather" 1%nat "weather_London" one_record =
    (Return {| data := london; cached := true;
               cached_at := Some (at_time 12 0 0) |}, one_record).
Proof.
  apply (proj1 (proj2 (fetch_serves_cache_then_upstream service
           (env_at (at_time 12 4 0) (Responds (ok_response paris)))
           "weather" 1%nat "weather_London" one_record eq_refl)));
    [reflexivity | reflexivity | reflexivity | reflexivity | by vm_compute].
Defined.

(** No record, and the upstream answers 404 for London. *)
Lemma fetch_classifies_upstream_failure_witness :
  ∃ w',
    fails_with
      (WeatherService._fetch_data service
         (env_at (at_time 12 0 0) (Responds not_found))
         "weather" 1%nat "weather_London" no_record)
      NotFound "City not found: London" w'.
Proof.
  eexists.
  refine (proj1 (proj1 (proj2 (fetch_classifies_upstream_failure service
            (env_at (at_time 12 0 0) (Responds not_found))
            "weather" 1%nat "weather_London" no_record no_record eq_refl))
            not_found eq_refl) eq_refl).
Defined.

(** C4 as stated fails: the record for the key is past its
    time-to-live, the upstream times out, and after the failed call the
    key's file is gone. *)
Lemma failed_fetch_drops_stale_file :
  fst (WeatherService._fetch_data service (env_at (at_time 12 5 1) timed_out)
         "weather" 1%nat "weather_London" one_record) =
    Raise (Exn TimeoutException "Request timeout after 10 seconds: timed out") ∧
  files (snd (WeatherService._fetch_data service (env_at (at_time 12 5 1) timed_out)
                "weather" 1%nat "weather_London" one_record))
    !! "weather_London.json" ≠
  files one_record !! "weather_London.json".
Proof. split; [reflexivity | by vm_compute]. Qed.

(** The same call, read with the amended statement: the directory is the
    one the lookup left. *)
Lemma failed_fetch_writes_nothing_witness :
  ∃ k msg w',
    fails_with
      (WeatherService._fetch_data service (env_at (at_time 12 5 1) timed_out)
         "weather" 1%nat "weather_London" one_record) k msg w' ∧
    files w' = files (without "weather_London.json" one_record) ∧
    files w' = delete "weather_London.json" (files one_record) ∧
    (files one_record !! "weather_London.json" = None →
     files w' = files one_record) ∧
    stdout w' = stdout one_record.
Proof.
  exact (failed_fetch_writes_nothing service (env_at (at_time 12 5 1) timed_out)
           "weather" 1%nat "weather_London" one_record
           (without "weather_London.json" one_record)
           eq_refl eq_refl eq_refl).
Defined.

(** A write of Paris at 12:01:00 over the record of London: the file is
    the new record.  A fetch on a disk that takes the write leaves the
    record of what it fetched; on a disk that refuses it, it still
    returns the payload, and prints the warning. *)
Lemma cache_write_failure_is_swallowed_witness :
  (∃ w',
     CacheManager.set manager (at_time 12 1 0) Written "weather_London" paris
       one_record = (Return tt, w') ∧
     files w' !! "weather_London.json" =
       Some (Doc (JObj [("data", paris);
                        ("cached_at", JStr "2024-01-15T12:01:00")])) ∧
     stdout w' = stdout one_record) ∧
  (∃ w',
     WeatherService._fetch_data service
       (env_at (at_time 12 0 0) (Responds (ok_response paris)))
       "weather" 1%nat "weather_London" no_record =
       (Return {| data := paris; cached := false; cached_at := None |}, w') ∧
     files w' !! "weather_London.json" =
       Some (Doc (JObj [("data", paris);
                        ("cached_at", JStr "2024-01-15T12:00:00")]))) ∧
  (∃ w',
     WeatherService._fetch_data service
       (env_readonly (at_time 12 0 0) (Responds (ok_response paris)))
       "weather" 1%nat "weather_London" no_record =
       (Return {| data := paris; cached := false; cached_at := None |}, w') ∧
     files w' = files no_record ∧
     stdout w' =
       stdout no_record ++
         ["Warning: Failed to cache data: [Errno 13] Permission denied"]).
Proof.
  split; [|split].
  - destruct (proj1 (@cache_write_failure_is_swallowed iso8601) manager
                (at_time 12 1 0) Written "weather_London" paris one_record)
      as (w' & Hrun & _ & _ & _ & _ & _ & Hfile & _ & _ & Hout).
    by exists w'.
  - destruct (proj2 (@cache_write_failure_is_swallowed iso8601) service
                (env_at (at_time 12 0 0) (Responds (ok_response paris)))
                "weather" 1%nat "weather_London" no_record no_record
                (ok_response paris) paris eq_refl eq_refl eq_refl eq_refl eq_refl)
      as (w' & Hrun & Hwritten & _).
    exists w'. split; [exact Hrun | exact (proj1 (Hwritten eq_refl))].
  - destruct (proj2 (@cache_write_failure_is_swallowed iso8601) service
                (env_readonly (at_time 12 0 0) (Responds (ok_response paris)))
                "weather" 1%nat "weather_London" no_record no_record
                (ok_response paris) paris eq_refl eq_refl eq_refl eq_refl eq_refl)
      as (w' & Hrun & _ & Hfailed).
    exists w'. split; [exact Hrun|]. split.
    + injection Hrun as <-. reflexivity.
    + exact (Hfailed (Exn PermissionError "[Errno 13] Permission denied")
               (or_introl eq_refl)).
Defined.

(** C6 as stated fails: the second write is refused by the disk, [set]
    returns all the same, and [get] within the time-to-live answers the
    first payload; when the second write fails midway, [get] answers
    neither. *)
Lemma second_write_can_be_lost :
  (CacheManager.get manager (at_time 12 3 0) "weather_London"
     (CacheManager.set manager (at_time 12 2 0)
        (OpenFailed (Exn PermissionError "[Errno 13] Permission denied"))
        "weather_London" paris
        (CacheManager.set manager (at_time 12 0 0) Written "weather_London"
           london empty).2).2).1 =
    Return (Some {| data := london; cached := true;
                    cached_at := Some (at_time 12 0 0) |}) ∧
  (CacheManager.get manager (at_time 12 3 0) "weather_London"
     (CacheManager.set manager (at_time 12 2 0)
        (DumpFailed (Exn OSError "[Errno 28] No space left on device"))
        "weather_London" paris
        (CacheManager.set manager (at_time 12 0 0) Written "weather_London"
           london empty).2).2).1 =
    Return None.
Proof. split; reflexivity. Qed.

(** London at 11:00, Paris at 12:00 under the same key, read at 12:03. *)
Lemma last_write_wins_witness :
  CacheManager.get manager (at_time 12 3 0) "weather_London"
    (snd (CacheManager.set manager (at_time 12 0 0) Written "weather_London" paris
       (snd (CacheManager.set manager (at_time 11 0 0) Written "weather_London"
               london empty)))) =
    (Return (Some {| data := paris; cached := true;
                     cached_at := Some (at_time 12 0 0) |}),
     snd (CacheManager.set manager (at_time 12 0 0) Written "weather_London" paris
       (snd (CacheManager.set manager (at_time 11 0 0) Written "weather_London"
               london empty)))).
Proof.
  refine (proj1 (proj2 (last_write_wins manager "weather_London" london paris
            (at_time 11 0 0) (at_time 12 0 0) (at_time 12 3 0) Written empty
            eq_refl eq_refl eq_refl eq_refl _))).
  by vm_compute.
Defined.

(** A record stored at 12:00:00, read at 12:05:00 with a time-to-live of
    300 seconds. *)
Lemma ttl_boundary_is_fresh_witness :
  age_us (at_time 12 5 0) (at_time 12 0 0) =
    seconds_us (CacheManager.expiry_seconds manager) ∧
  CacheManager.get manager (at_time 12 5 0) "weather_London" one_record =
    (Return (Some {| data := london; cached := true;
                     cached_at := Some (at_time 12 0 0) |}), one_record) ∧
  CacheManager.clear_expired manager (λ _, at_time 12 5 0)
    ["weather_London.json"] one_record = (Return 0, one_record).
Proof.
  split; [reflexivity|].
  refine (proj1 (ttl_boundary_is_fresh manager (at_time 12 5 0) "weather_London"
            one_record _ _ (at_time 12 0 0) london
            eq_refl eq_refl eq_refl eq_refl eq_refl eq_refl eq_refl _) eq_refl).
  by vm_compute.
Defined.

(** The caller's [{'q': 'London'}] after a fetch that missed and timed
    out. *)
Lemma fetch_writes_into_caller_params_witness :
  heap (snd (WeatherService._fetch_data service
               (env_at (at_time 12 0 0) timed_out)
               "weather" 1%nat "weather_London" no_record)) !! 1%nat =
    Some [("q", PStr "London"); ("appid", PStr "k3y"); ("units", PStr "metric")].
Proof.
  refine (proj1 (fetch_writes_into_caller_params service
            (env_at (at_time 12 0 0) timed_out)
            "weather" 1%nat "weather_London" no_record
            [("q", PStr "London")] _ _ eq_refl eq_refl _)).
  apply surjective_pairing.
Defined.

(** Five records at 12:00:00, two of them written at 11:50 and three at
    11:58, with a time-to-live of 300 seconds. *)
Lemma clear_expired_then_clear_witness :
  ∃ w1,
    CacheManager.clear_expired manager (λ _, at_time 12 0 0)
      (CacheManager.listdir five_records) five_records = (Return 2, w1) ∧
    (∀ name, files w1 !! name =
               if bool_decide (name ∈ CacheManager.listdir five_records) && early name
               then None else files five_records !! name) ∧
    ∀ listing1, CacheManager.glob_json listing1 w1 →
      listing1 ≡ₚ
        filter (λ n, early n = false) (CacheManager.listdir five_records) ∧
      ∃ w2,
        CacheManager.clear manager listing1 w1 = (Return 3, w2) ∧
        ∀ name, CacheManager.is_json_name name = true → files w2 !! name = None.
Proof.
  refine (proj1 clear_expired_then_clear manager (λ _, at_time 12 0 0) early
            five_records (CacheManager.listdir five_records) 2%nat 3%nat
            (glob_json_listdir _) _ _ eq_refl _ eq_refl eq_refl).
  - intros name _. apply not_elem_of_empty.
  - reflexivity.
  - intros name c Hin Hf.
    let l := eval vm_compute in (CacheManager.listdir five_records) in
    change (CacheManager.listdir five_records) with l in Hin.
    repeat (apply elem_of_cons in Hin as [-> | Hin]);
      [| | | | | by apply elem_of_nil in Hin];
      vm_compute in Hf; injection Hf as <-.
    + change (early "weather_Oslo.json") with false.
      eapply judged_fresh; [reflexivity | reflexivity | reflexivity | by vm_compute].
    + change (early "weather_Rome.json") with false.
      eapply judged_fresh; [reflexivity | reflexivity | reflexivity | by vm_compute].
    + change (early "weather_Bern.json") with false.
      eapply judged_fresh; [reflexivity | reflexivity | reflexivity | by vm_compute].
    + change (early "weather_London.json") with true.
      eapply judged_expired; [reflexivity | reflexivity | reflexivity | by vm_compute].
    + change (early "weather_Paris.json") with true.
      eapply judged_expired; [reflexivity | reflexivity | reflexivity | by vm_compute].
Defined.

End Instances.
(* ================================================================== *)
(** * Further properties of the code *)
(* ================================================================== *)

(** ** [get], whatever the clock and the file *)

Section CacheReads.
Context `{IsoFormat}.
Import CacheManager.

Implicit Types (self : CacheManager.t) (w : world) (now : datetime).

(** A computation that reads nothing of the world and leaves it alone. *)
Definition stateless {A} (m : py A) : Prop := ∃ o, ∀ w, m w = (o, w).

Lemma stateless_ret {A} (a : A) : stateless (ret a).
Proof. by exists (Return a). Qed.

Lemma stateless_raise {A} c msg : stateless (@raise A c msg).
Proof. by exists (Raise (Exn c msg)). Qed.

Lemma stateless_bind {A B} (m : py A) (k : A → py B) :
  stateless m → (∀ a, stateless (k a)) → stateless (bind m k).
Proof.
  intros [[a|e] Hm] Hk.
  - destruct (Hk a) as [o Ho]. exists o. intros w. unfold bind.
    by rewrite Hm, Ho.
  - exists (Raise e). intros w. unfold bind. by rewrite Hm.
Qed.

Lemma stateless_subscript value key : stateless (subscript value key).
Proof.
  destruct value; cbn [subscript]; try apply stateless_raise.
  destruct (members_get _ _); [apply stateless_ret | apply stateless_raise].
Qed.

Lemma stateless_fromisoformat value : stateless (datetime_fromisoformat value).
Proof.
  destruct value; cbn [datetime_fromisoformat]; try apply stateless_raise.
  destruct (fromisoformat _); [apply stateless_ret | apply stateless_raise].
Qed.

Lemma stateless_datetime_sub a b : stateless (datetime_sub a b).
Proof.
  unfold datetime_sub.
  destruct (utcoffset a), (utcoffset b);
    first [apply stateless_ret | apply stateless_raise].
Qed.

Lemma stateless_timedelta_seconds s : stateless (timedelta_seconds s).
Proof.
  unfold timedelta_seconds.
  destruct (_ && _); [apply stateless_ret | apply stateless_raise].
Qed.

(** What [read_age] does with the document once it is loaded. *)
Definition age_of_record self now (cache_data : json)
  : py (json * datetime * bool) :=
  let* stamp := subscript cache_data "cached_at" in
  let* cached_at := datetime_fromisoformat stamp in
  let* age := datetime_sub now cached_at in
  let* ttl := timedelta_seconds (expiry_seconds self) in
  ret (cache_data, cached_at, ttl <? age).

Lemma stateless_age_of_record self now cache_data :
  stateless (age_of_record self now cache_data).
Proof.
  unfold age_of_record.
  apply stateless_bind; [apply stateless_subscript | intros stamp].
  apply stateless_bind; [apply stateless_fromisoformat | intros cached_at].
  apply stateless_bind; [apply stateless_datetime_sub | intros age].
  apply stateless_bind; [apply stateless_timedelta_seconds | intros ttl].
  apply stateless_ret.
Qed.

(** [read_age] looks at the world only through the named file, and
    changes nothing. *)
Lemma read_age_local self now name w1 w2 :
  files w1 !! name = files w2 !! name →
  ∃ o, read_age self now name w1 = (o, w1) ∧
       read_age self now name w2 = (o, w2).
Proof.
  intros Hsame.
  change (read_age self now name)
    with (bind (json_load name) (age_of_record self now)).
  unfold bind, json_load. rewrite Hsame.
  destruct (files w2 !! name) as [[| | | j] |];
    try (eexists; split; reflexivity).
  destruct (stateless_age_of_record self now j) as [o Ho].
  exists o. by rewrite !Ho.
Qed.


(** An answer of [read_age] means the time-to-live is one [timedelta]
    can hold. *)
Lemma read_age_returns_in_range self now name w r w' :
  read_age self now name w = (Return r, w') → ttl_in_range self = true.
Proof.
  change (read_age self now name)
    with (bind (json_load name) (age_of_record self now)).
  unfold bind at 1. destruct (json_load name w) as [[j|e] w1]; [|done].
  unfold age_of_record, bind.
  destruct (subscript j "cached_at" w1) as [[stamp|e] w2]; [|done].
  destruct (datetime_fromisoformat stamp w2) as [[cached_at|e] w3]; [|done].
  destruct (datetime_sub now cached_at w3) as [[age|e] w4]; [|done].
  unfold timedelta_seconds, ttl_in_range. by destruct (_ && _).
Qed.

(** What the [try] statement of [get] makes of the answer of [read_age]:
    the outcome, and whether the file goes.  [is_pinned] says whether the
    file system refuses to unlink the file. *)
Definition get_verdict (o : outcome (json * datetime * bool)) (is_pinned : bool)
  : outcome (option result) * bool :=
  let evicted :=
    if is_pinned then (Raise (Exn PermissionError ""), false)
    else (Return None, true) in
  match o with
  | Return (cache_data, stamp, expired) =>
      if expired then evicted
      else
        match cache_data with
        | JObj ms =>
            match members_get "data" ms with
            | Some payload =>
                (Return (Some {| data := payload; cached := true;
                                 cached_at := Some stamp |}), false)
            | None => evicted
            end
        | _ => (Raise (Exn TypeError ""), false)
        end
  | Raise e =>
      if catches [JSONDecodeError; KeyError; ValueError] e then evicted
      else (Raise e, false)
  end.

Lemma get_by_read_age self now key w c o :
  files w !! _get_cache_file_path key = Some c →
  read_age self now (_get_cache_file_path key) w = (o, w) →
  get self now key w =
    let '(r, gone) :=
      get_verdict o (bool_decide (_get_cache_file_path key ∈ pinned w)) in
    (r, if gone then without (_get_cache_file_path key) w else w).
Proof.
  intros Hf Hr. rewrite get_read_age. unfold bind at 1.
  rewrite (path_exists_present _ _ _ Hf). cbn [negb].
  unfold try_except, bind at 1. rewrite Hr.
  assert (∀ e, dispatch
            [([JSONDecodeError; KeyError; ValueError],
              λ _ : exn, let* _ := unlink true (_get_cache_file_path key) in
                         ret (@None result))] e w =
          let '(r, gone) :=
            (if catches [JSONDecodeError; KeyError; ValueError] e
             then if bool_decide (_get_cache_file_path key ∈ pinned w)
                  then (Raise (Exn PermissionError ""), false)
                  else (Return None, true)
             else (Raise e, false)) in
          (r, if gone then without (_get_cache_file_path key) w else w))
    as Hhandler.
  { intros e. cbn [dispatch]. destruct (catches _ e); [|done].
    rewrite (get_handler_cases _ _ _ Hf). by case_bool_decide. }
  unfold get_verdict.
  destruct o as [[[cache_data stamp] [|]] | e].
  - unfold bind, unlink. rewrite Hf. case_bool_decide; [|done].
    cbn [dispatch]. by change (catches _ _) with false.
  - unfold bind at 1.
    destruct cache_data as [| b | n | m e | s | items | ms]; cbn [subscript];
      try (unfold raise; cbn [dispatch]; by change (catches _ _) with false).
    destruct (members_get "data" ms) as [payload|]; [done|].
    unfold raise. rewrite Hhandler. by change (catches _ _) with true.
  - apply Hhandler.
Qed.

(** [get] looks at the world only through the key's file and whether it
    is pinned, and at most removes that file. *)
Lemma get_local self now key w1 w2 :
  files w1 !! _get_cache_file_path key = files w2 !! _get_cache_file_path key →
  (_get_cache_file_path key ∈ pinned w1 ↔ _get_cache_file_path key ∈ pinned w2) →
  ∃ o (gone : bool),
    get self now key w1 =
      (o, if gone then without (_get_cache_file_path key) w1 else w1) ∧
    get self now key w2 =
      (o, if gone then without (_get_cache_file_path key) w2 else w2) ∧
    (gone = true ↔ o = Return None).
Proof.
  intros Hsame Hpin.
  destruct (files w2 !! _get_cache_file_path key) as [c|] eqn:Hf.
  - destruct (read_age_local self now (_get_cache_file_path key) w1 w2)
      as (o & Hr1 & Hr2); [by rewrite Hf|].
    rewrite (get_by_read_age _ _ _ _ _ _ Hsame Hr1),
            (get_by_read_age _ _ _ _ _ _ Hf Hr2).
    rewrite (bool_decide_ext _ _ Hpin).
    destruct (get_verdict o _) as [r gone] eqn:Hv.
    exists r, gone. split; [done|]. split; [done|].
    unfold get_verdict in Hv.
    repeat case_match; simplify_eq; split; intros; simplify_eq; done.
  - destruct (name_fits (_get_cache_file_path key)) eqn:Hfits.
    + exists (Return None), true.
      rewrite !get_absent, !without_absent by done. done.
    + exists (Raise (Exn OSError "")), false.
      rewrite !get_name_too_long by done. done.
Qed.

(** Whatever the clock reads and whatever the file holds: a miss leaves
    the world without the key's file, anything else leaves it as it was. *)
Lemma get_changes self now key w o w' :
  get self now key w = (o, w') →
  w' = match o with
       | Return None => without (_get_cache_file_path key) w
       | _ => w
       end.
Proof.
  intros Hget.
  destruct (get_local self now key w w) as (o1 & gone & Hrun & _ & Hgone);
    [done | done |].
  rewrite Hget in Hrun. injection Hrun as -> ->.
  destruct gone.
  - by rewrite (proj1 Hgone).
  - destruct o1 as [[hit|]|e]; try done.
    pose proof (proj2 Hgone eq_refl). discriminate.
Qed.

(** X1: whatever the clock reads and whatever the file holds, [get] changes
    nothing but the key's own file, and that only by removing it when it
    answers with a miss; the other files, the pinned names, the heap, the
    request log and the console are as before. *)
Theorem get_touches_only_its_file self now key w o w' :
  get self now key w = (o, w') →
  w' = match o with
       | Return None => without (_get_cache_file_path key) w
       | _ => w
       end ∧
  (∀ name, name ≠ _get_cache_file_path key → files w' !! name = files w !! name) ∧
  files w' ⊆ files w ∧
  pinned w' = pinned w ∧ heap w' = heap w ∧
  requests w' = requests w ∧ stdout w' = stdout w.
Proof.
  intros Hget. apply get_changes in Hget as ->.
  split; [done|].
  destruct o as [[hit|]|e]; try (repeat split; done).
  unfold without. cbn [files pinned heap requests stdout with_files].
  repeat split; try done.
  - intros name Hne. by rewrite lookup_delete_ne.
  - apply delete_subseteq.
Qed.

(** X2: a miss is final.  Once [get] has answered with a miss the key's
    file is not there, and every later [get] for the key, at any time and
    with any time-to-live, finds no file and changes nothing: it is a
    miss again, the name being one the file system can look up (were the
    name too long for it, the test for the file would raise
    [OSError]). *)
Theorem get_miss_is_stable self now key w w' :
  get self now key w = (Return None, w') →
  files w' !! _get_cache_file_path key = None ∧
  ∀ self' now',
    get self' now' key w' =
      if name_fits (_get_cache_file_path key) then (Return None, w')
      else (Raise (Exn OSError ""), w').
Proof.
  intros Hget. apply get_changes in Hget as ->.
  assert (files (without (_get_cache_file_path key) w)
            !! _get_cache_file_path key = None) as Hgone
    by apply lookup_delete_eq.
  split; [done|]. intros self' now'.
  destruct (name_fits _) eqn:Hfits;
    [by apply get_absent | by apply get_name_too_long].
Qed.

(** X3: a hit is repeatable.  A hit leaves the world as it was and comes
    from a record no older than the time-to-live; a later [get] gives the
    very same hit as long as the record's age stays within the
    time-to-live, and evicts the record once it does not. *)
Theorem get_hit_then_later_reads self t1 t2 key w hit w1 :
  utcoffset t1 = None → utcoffset t2 = None →
  get self t1 key w = (Return (Some hit), w1) →
  ∃ stamp,
    cached_at hit = Some stamp ∧ cached hit = true ∧ w1 = w ∧
    age_us t1 stamp <= seconds_us (expiry_seconds self) ∧
    get self t2 key w1 =
      if seconds_us (expiry_seconds self) <? age_us t2 stamp then
        if bool_decide (_get_cache_file_path key ∈ pinned w1)
        then (Raise (Exn PermissionError ""), w1)
        else (Return None, without (_get_cache_file_path key) w1)
      else (Return (Some hit), w1).
Proof.
  intros Ht1 Ht2 Hget.
  destruct (get_footprint _ _ _ _ _ _ Ht1 Hget) as [-> Hhit].
  destruct (Hhit hit eq_refl)
    as (ms & s & stamp & Hf & Hm & Hs & Hst & Hd & Hc & Hat & Hage).
  exists stamp. repeat (split; [done|]).
  assert (ttl_in_range self = true) as Httl.
  { destruct (read_age_local self t1 (_get_cache_file_path key) w w eq_refl)
      as (o & Hr & _).
    destruct o as [r|e]; [by eapply read_age_returns_in_range|].
    rewrite (get_by_read_age _ _ _ _ _ _ Hf Hr) in Hget.
    unfold get_verdict in Hget.
    destruct (catches _ e); [destruct (bool_decide _)|]; discriminate. }
  rewrite (get_by_read_age _ _ _ _ _ _ Hf
             (read_age_stamped _ _ _ _ _ _ _ Hf Hm Hs Ht2 Hst Httl)).
  unfold get_verdict. destruct (_ <? _).
  - by case_bool_decide.
  - rewrite Hd. destruct hit as [payload c at_]. cbn in Hc, Hat. by subst.
Qed.

(** *** [set] next to [get] *)

Lemma after_set_without now disk key payload name w :
  name ≠ _get_cache_file_path key →
  after_set now disk key payload (without name w) =
  without name (after_set now disk key payload w).
Proof.
  intros Hne. unfold after_set, without.
  destruct disk; cbn [files pinned heap requests stdout with_files with_stdout];
    by rewrite ?delete_insert_ne by done.
Qed.

Lemma files_after_set now disk key payload name w :
  name ≠ _get_cache_file_path key →
  files (after_set now disk key payload w) !! name = files w !! name.
Proof.
  intros Hne. unfold after_set.
  destruct disk; cbn [files with_files with_stdout];
    by rewrite ?lookup_insert_ne by done.
Qed.

Lemma pinned_after_set now disk key payload w :
  pinned (after_set now disk key payload w) = pinned w.
Proof. by destruct disk. Qed.

(** X4: keys stored in different files do not disturb each other.  A [get]
    for one key answers the same before and after a [set] for the other,
    whatever the write met, and the two leave the same world in either
    order. *)
Theorem set_then_get_other_key self now t disk k k' payload w :
  _get_cache_file_path k ≠ _get_cache_file_path k' →
  get self now k' (set self t disk k payload w).2 =
    ((get self now k' w).1,
     (set self t disk k payload (get self now k' w).2).2).
Proof.
  intros Hne. rewrite !set_returns. cbn [snd].
  destruct (get_local self now k' w (after_set t disk k payload w))
    as (o & gone & Hrun & Hrun' & _).
  { by rewrite files_after_set. }
  { by rewrite pinned_after_set. }
  rewrite Hrun, Hrun'. cbn [fst snd]. f_equal.
  destruct gone; [|done]. by rewrite after_set_without.
Qed.

(** X5: keys that differ only in the replaced characters share one entry.
    What [set] stored under one of them, [get] serves under the other. *)
Theorem colliding_keys_share_entry self t now k1 k2 payload w :
  map_chars sanitise k1 = map_chars sanitise k2 →
  valid_datetime t = true → utcoffset t = None → utcoffset now = None →
  ttl_in_range self = true →
  age_us now t <= seconds_us (expiry_seconds self) →
  ∃ w1,
    set self t Written k1 payload w = (Return tt, w1) ∧
    get self now k2 w1 =
      (Return (Some {| data := payload; cached := true; cached_at := Some t |}),
       w1).
Proof.
  intros Hsame Hv Ht Hnow Httl Hage.
  assert (_get_cache_file_path k1 = _get_cache_file_path k2) as Hpath.
  { unfold _get_cache_file_path. by rewrite !safe_key_map, Hsame. }
  eexists. split; [apply set_returns|].
  rewrite (get_after_write self now k2 _ payload t); try done.
  - by rewrite (proj2 (Z.ltb_ge _ _) Hage).
  - unfold after_set. cbn [files with_files]. rewrite Hpath.
    apply lookup_insert_eq.
Qed.

(** X6: what a failed write does to the entry.  When [json.dump] fails
    midway the key's previous record is lost: the next [get] finds the
    broken file, removes it and answers with a miss.  When the file
    cannot even be opened the next [get] answers exactly as it would have
    without the [set]. *)
Theorem failed_write_then_get self t now key payload e w :
  (_get_cache_file_path key ∉ pinned w →
   ∃ w1, set self t (DumpFailed e) key payload w = (Return tt, w1) ∧
         get self now key w1 =
           (Return None, without (_get_cache_file_path key) w1) ∧
         stdout w1 = stdout w ++ [warning e]) ∧
  (∃ w1, set self t (OpenFailed e) key payload w = (Return tt, w1) ∧
         files w1 = files w ∧
         (get self now key w1).1 = (get self now key w).1).
Proof.
  split.
  - intros Hp. eexists. split; [apply set_returns|]. split; [|done].
    eapply (get_caught self now key _ NotJson JSONDecodeError);
      [apply lookup_insert_eq | constructor | done | done].
  - eexists. split; [apply set_returns|]. split; [done|].
    destruct (get_local self now key w
                (after_set t (OpenFailed e) key payload w))
      as (o & gone & -> & -> & _); done.
Qed.

End CacheReads.

(** ** The sweeps, whatever the directory holds *)

Section SweepsMore.
Context `{IsoFormat}.
Import CacheManager.

Implicit Types (self : CacheManager.t) (w : world) (names : list string).

(** Whether a sweep at [now] removes a file with this content: a record
    past its time-to-live, or anything that does not read as a record
    with a naive stamp. *)
Definition stale_content self (now : datetime) (c : content) : bool :=
  match c with
  | Doc (JObj ms) =>
      match members_get "cached_at" ms with
      | Some (JStr s) =>
          match fromisoformat s with
          | Some stamp =>
              match utcoffset stamp with
              | None => seconds_us (expiry_seconds self) <? age_us now stamp
              | Some _ => true
              end
          | None => true
          end
      | _ => true
      end
  | _ => true
  end.

(** The same, for a name of the directory; the clock is read per file. *)
Definition stale_file self (now : string → datetime) w (name : string) : bool :=
  match files w !! name with
  | Some c => stale_content self (now name) c
  | None => false
  end.

(** With a naive clock every content is judged one way or the other. *)
Lemma judged_stale_content self now c :
  utcoffset now = None → judged self now c (stale_content self now c).
Proof.
  intros Hnow. unfold stale_content.
  destruct c as [| | | j]; try (by econstructor; constructor).
  destruct j as [| b | n | m e | s | items | ms];
    try (by eapply judged_unreadable, not_object).
  destruct (members_get "cached_at" ms) as [v|] eqn:Hm;
    [| by eapply judged_unreadable, no_stamp].
  destruct v as [| b | n | m e | s | items | ms'];
    try (by eapply judged_unreadable, stamp_not_str).
  destruct (fromisoformat s) as [stamp|] eqn:Hs;
    [| by eapply judged_unreadable, bad_stamp].
  destruct (utcoffset stamp) as [o|] eqn:Hst;
    [by eapply judged_unreadable, aware_stamp |].
  destruct (_ <? _) eqn:Hage.
  - apply Z.ltb_lt in Hage. by eapply judged_expired.
  - apply Z.ltb_ge in Hage. by eapply judged_fresh.
Qed.

Lemma size_remove_all names : ∀ w,
  NoDup names → (∀ name, name ∈ names → is_Some (files w !! name)) →
  (size (files (remove_all names w)) + length names = size (files w))%nat.
Proof.
  induction names as [| x rest IH]; intros w Hnd Hall; cbn [remove_all length].
  - lia.
  - apply NoDup_cons in Hnd as [Hx Hnd].
    rewrite Nat.add_succ_r, IH; [| done |].
    + unfold without. cbn [files with_files].
      rewrite map_size_delete_Some by (apply Hall; by left).
      destruct (Hall x ltac:(by left)) as [c Hc].
      assert (size (files w) ≠ 0%nat); [|lia].
      apply map_size_ne_0_lookup_2 with x. eauto.
    + intros name Hin. unfold without. cbn [files with_files].
      rewrite lookup_delete_ne by (intros ->; done).
      apply Hall. by right.
Qed.

Lemma ends_with_append (s suffix : string) : ends_with suffix (s +:+ suffix) = true.
Proof.
  induction s as [| c s IH].
  - change ("" +:+ suffix) with suffix.
    destruct suffix; cbn [ends_with]; by rewrite String.eqb_refl.
  - rewrite append_cons. cbn [ends_with]. rewrite IH. apply orb_true_r.
Qed.

(** Every cache file is one the glob matches. *)
Lemma cache_file_is_json key : is_json_name (_get_cache_file_path key) = true.
Proof. apply ends_with_append. Qed.

(** [clear] on what the glob listed: the matched files the file system
    lets go are gone, and their number is returned. *)
Lemma clear_removes_loose self listing w :
  glob_json listing w →
  ∃ n w',
    clear self listing w = (Return n, w') ∧
    Z.of_nat (size (files w)) = n + Z.of_nat (size (files w')) ∧
    pinned w' = pinned w ∧
    ∀ name, files w' !! name =
      if is_json_name name && loose w name then None else files w !! name.
Proof.
  intros [Hnd Hglob]. unfold clear.
  rewrite clear_loop_spec; [| done | by intros name [? _]%Hglob].
  eexists _, _. split; [reflexivity|].
  set (gone := filter (λ n, loose w n = true) listing).
  split; [|split; [apply pinned_remove_all|]].
  - pose proof (size_remove_all gone w) as Hsize.
    rewrite <- Hsize; [lia | by apply NoDup_filter |].
    intros name [_ [? _]%Hglob]%list_elem_of_filter. done.
  - intros name. rewrite files_remove_all. unfold gone.
    case_bool_decide as Hin.
    + apply list_elem_of_filter in Hin as [Hl [_ Hj]%Hglob].
      by rewrite Hj, Hl.
    + destruct (is_json_name name) eqn:Hj; [|done].
      destruct (loose w name) eqn:Hl; [|done]. cbn [andb].
      destruct (files w !! name) as [c|] eqn:Hc; [|done].
      destruct Hin. apply list_elem_of_filter. split; [done|].
      apply Hglob. eauto.
Qed.

(** X7: [clear] always returns, and the number it returns is the number of
    files that left the directory: the matched files the file system let
    go.  Files the glob does not match are not touched.  Afterwards a
    [get] for a key whose file is not pinned finds no file: it is a miss
    when the file system can look the name up, and raises the [OSError]
    of the test for the file when the name is too long for it. *)
Theorem clear_counts_removed_files self listing w :
  glob_json listing w →
  ∃ n w',
    clear self listing w = (Return n, w') ∧
    Z.of_nat (size (files w)) = n + Z.of_nat (size (files w')) ∧
    (∀ name, files w' !! name =
       if is_json_name name && loose w name then None else files w !! name) ∧
    ∀ self' now key,
      _get_cache_file_path key ∉ pinned w →
      get self' now key w' =
        if name_fits (_get_cache_file_path key) then (Return None, w')
        else (Raise (Exn OSError ""), w').
Proof.
  intros Hglob.
  destruct (clear_removes_loose self listing w Hglob)
    as (n & w' & Hrun & Hsize & _ & Hfiles).
  exists n, w'. repeat (split; [done|]).
  intros self' now key Hp.
  assert (files w' !! _get_cache_file_path key = None) as Hgone.
  { rewrite Hfiles. rewrite cache_file_is_json. unfold loose.
    by rewrite bool_decide_eq_false_2. }
  destruct (name_fits _) eqn:Hfits;
    [by apply get_absent | by apply get_name_too_long].
Qed.

(** X8: with a naive clock and files the file system lets go,
    [clear_expired] always returns, whatever the files hold; it removes
    exactly the matched files that are past their time-to-live or do not
    read as a record, and returns their number, which is the number of
    files that left the directory.  A [get] afterwards returns, with one
    exception: for a key whose file name is too long for the file system
    the test for the file raises [OSError]. *)
Theorem clear_expired_total self now listing w :
  glob_json listing w →
  (∀ name, name ∉ pinned w) →
  (∀ name, utcoffset (now name) = None) →
  ttl_in_range self = true →
  ∃ n w',
    clear_expired self now listing w = (Return n, w') ∧
    Z.of_nat (size (files w)) = n + Z.of_nat (size (files w')) ∧
    (∀ name, files w' !! name =
       if is_json_name name && stale_file self now w name then None
       else files w !! name) ∧
    ∀ now' key,
      utcoffset now' = None →
      (∃ r w'', get self now' key w' = (Return r, w'')) ∨
      (name_fits (_get_cache_file_path key) = false ∧
       get self now' key w' = (Raise (Exn OSError ""), w')).
Proof.
  intros [Hnd Hglob] Hpin Hnow Httl. unfold clear_expired.
  rewrite (clear_expired_loop_spec self now (stale_file self now w));
    [| done | | done | done | done].
  2:{ intros name [[c Hc] _]%Hglob. exists c. split; [done|].
      unfold stale_file. rewrite Hc. by apply judged_stale_content. }
  eexists _, _. split; [reflexivity|].
  set (gone := filter (λ n, stale_file self now w n = true) listing).
  assert (∀ name, files (remove_all gone w) !! name =
            if is_json_name name && stale_file self now w name then None
            else files w !! name) as Hfiles.
  { intros name. rewrite files_remove_all. unfold gone.
    case_bool_decide as Hin.
    - apply list_elem_of_filter in Hin as [Hl [_ Hj]%Hglob].
      by rewrite Hj, Hl.
    - destruct (is_json_name name) eqn:Hj; [|done].
      destruct (stale_file self now w name) eqn:Hl; [|done]. cbn [andb].
      destruct (files w !! name) as [c|] eqn:Hc; [|done].
      destruct Hin. apply list_elem_of_filter. split; [done|].
      apply Hglob. eauto. }
  split; [|split; [done|]].
  - pose proof (size_remove_all gone w) as Hsize.
    rewrite <- Hsize; [lia | by apply NoDup_filter |].
    intros name [_ [? _]%Hglob]%list_elem_of_filter. done.
  - intros now' key Hnow'.
    set (w1 := remove_all gone w). set (name := _get_cache_file_path key).
    destruct (files w1 !! name) as [c|] eqn:Hc.
    2:{ destruct (name_fits name) eqn:Hfits.
        - left. eexists _, _. by apply get_absent.
        - right. split; [done|]. by apply get_name_too_long. }
    left.
    assert (name ∉ pinned w1) as Hp
      by (unfold w1; rewrite pinned_remove_all; apply Hpin).
    pose proof Hc as Hkept. unfold w1 in Hkept. rewrite Hfiles in Hkept.
    fold name in Hkept. unfold name in Hkept at 1.
    rewrite cache_file_is_json in Hkept. cbn [andb] in Hkept.
    fold name in Hkept.
    destruct (stale_file self now w name) eqn:Hstale; [done|].
    unfold stale_file in Hstale. rewrite Hkept in Hstale.
    unfold stale_content in Hstale.
    destruct c as [| | | [| | | | | | ms]]; try done.
    destruct (members_get "cached_at" ms) as [[| | | | s | |]|] eqn:Hm; try done.
    destruct (fromisoformat s) as [stamp|] eqn:Hs; [|done].
    destruct (utcoffset stamp) eqn:Hst; [done|].
    rewrite (get_by_read_age _ _ _ _ _ _ Hc
               (read_age_stamped _ _ _ _ _ _ _ Hc Hm Hs Hnow' Hst Httl)).
    rewrite bool_decide_eq_false_2 by done. unfold get_verdict.
    destruct (_ <? age_us now' stamp); [eexists _, _; reflexivity|].
    destruct (members_get "data" ms); eexists _, _; reflexivity.
Qed.


(** [clear] returns whatever the listing and the directory are. *)
Lemma clear_loop_returns names : ∀ count w,
  ∃ n w', clear_loop names count w = (Return n, w').
Proof.
  induction names as [| x rest IH]; intros count w; [by eexists _, _|].
  cbn [clear_loop]. unfold bind at 1, try_except, bind at 1.
  destruct (unlink false x w) as [[[]|e] w1].
  - apply IH.
  - cbn [dispatch]. rewrite catches_Exception. apply IH.
Qed.

(** The loop of [clear_expired] over the first files of the listing. *)
Lemma clear_expired_loop_app self now (stale : string → bool) pre tail :
  ∀ w count,
  NoDup (pre ++ tail) →
  (∀ name, name ∈ pre →
     ∃ c, files w !! name = Some c ∧ judged self (now name) c (stale name)) →
  (∀ name, name ∈ pre → name ∉ pinned w) →
  (∀ name, utcoffset (now name) = None) →
  ttl_in_range self = true →
  clear_expired_loop self now (pre ++ tail) count w =
    clear_expired_loop self now tail
      (count + Z.of_nat (length (filter (λ n, stale n = true) pre)))
      (remove_all (filter (λ n, stale n = true) pre) w).
Proof.
  induction pre as [| x rest IH]; intros w count Hnd Hall Hpin Hnow Httl.
  - cbn. by rewrite Z.add_0_r.
  - cbn [app] in *. apply NoDup_cons in Hnd as [Hx Hnd].
    destruct (Hall x) as (c & Hc & Hj); [by left|].
    rewrite (clear_expired_step _ _ _ _ _ _ _ _ Hc Hj
               (Hpin x ltac:(by left)) (Hnow x) Httl).
    assert (x ∉ rest) as Hx' by (intros Hin; apply Hx, elem_of_app; by left).
    destruct (stale x) eqn:Hb.
    + rewrite filter_cons_True by done. cbn [length remove_all].
      rewrite IH; [| done | | | done | done].
      * f_equal. lia.
      * intros name Hin. unfold without. cbn [files with_files].
        rewrite lookup_delete_ne by (intros ->; done).
        apply Hall. by right.
      * intros name Hin. apply Hpin. by right.
    + rewrite filter_cons_False by (rewrite Hb; discriminate).
      apply IH; try done.
      * intros name Hin. apply Hall. by right.
      * intros name Hin. apply Hpin. by right.
Qed.

(** The iteration on a stale file the file system refuses to unlink:
    the handler's own [unlink] raises. *)
Lemma clear_expired_step_pinned self now rest count w x c :
  files w !! x = Some c → judged self (now x) c true → x ∈ pinned w →
  utcoffset (now x) = None → ttl_in_range self = true →
  clear_expired_loop self now (x :: rest) count w =
    (Raise (Exn PermissionError ""), w).
Proof.
  intros Hc Hj Hp Hnow Httl. rewrite clear_expired_loop_read_age.
  unfold bind at 1, try_except, bind at 1.
  inversion Hj as [| ms s stamp Hm Hs Hst Hage | c' k Hu]; subst.
  - rewrite (read_age_stamped _ _ _ _ _ _ _ Hc Hm Hs Hnow Hst Httl).
    rewrite (proj2 (Z.ltb_lt _ _) Hage). unfold bind at 1.
    rewrite (unlink_pinned _ _ _ _ Hc Hp). cbn [dispatch].
    rewrite catches_Exception. unfold bind at 1.
    by rewrite (unlink_pinned _ _ _ _ Hc Hp).
  - destruct (read_age_unreadable self (now x) x w c k Hc Hu) as [msg ->].
    cbn [dispatch]. rewrite catches_Exception. unfold bind at 1.
    by rewrite (unlink_pinned _ _ _ _ Hc Hp).
Qed.

(** The sweep up to a stale file the file system refuses to unlink. *)
Lemma clear_expired_raises_at_pinned self now pre x rest w c :
  NoDup (pre ++ x :: rest) →
  (∀ name, name ∈ pre → is_Some (files w !! name) ∧ name ∉ pinned w) →
  files w !! x = Some c → stale_content self (now x) c = true →
  x ∈ pinned w →
  (∀ name, utcoffset (now name) = None) →
  ttl_in_range self = true →
  clear_expired self now (pre ++ x :: rest) w =
    (Raise (Exn PermissionError ""),
     remove_all (filter (λ n, stale_file self now w n = true) pre) w).
Proof.
  intros Hnd Hpre Hc Hstale Hp Hnow Httl. unfold clear_expired.
  rewrite (clear_expired_loop_app self now (stale_file self now w));
    [| done | | | done | done].
  2:{ intros name [[c' Hc'] _]%Hpre. exists c'. split; [done|].
      unfold stale_file. rewrite Hc'. by apply judged_stale_content. }
  2:{ by intros name [_ ?]%Hpre. }
  apply (clear_expired_step_pinned _ _ _ _ _ _ c); try done.
  - rewrite files_remove_all. rewrite bool_decide_eq_false_2; [done|].
    intros [_ Hin']%list_elem_of_filter.
    apply NoDup_app in Hnd as (_ & Hdisj & _). apply (Hdisj x Hin'). by left.
  - rewrite <- Hstale. by apply judged_stale_content.
  - by rewrite pinned_remove_all.
Qed.

(** X9: one stale file the file system refuses to unlink aborts
    [clear_expired].  The [unlink] in its [except] branch raises again,
    outside the [try]: the sweep leaves with [PermissionError], the count
    of the files already removed is lost and the files listed after it
    are not examined.  [clear], on the same directory, returns. *)
Theorem clear_expired_stops_at_pinned_file self now pre x rest w c :
  NoDup (pre ++ x :: rest) →
  (∀ name, name ∈ pre → is_Some (files w !! name) ∧ name ∉ pinned w) →
  files w !! x = Some c → stale_content self (now x) c = true →
  x ∈ pinned w →
  (∀ name, utcoffset (now name) = None) →
  ttl_in_range self = true →
  ∃ w',
    clear_expired self now (pre ++ x :: rest) w =
      (Raise (Exn PermissionError ""), w') ∧
    (∀ name, name ∈ x :: rest → files w' !! name = files w !! name) ∧
    (∀ name, name ∈ pre →
       files w' !! name =
         if stale_file self now w name then None else files w !! name) ∧
    ∃ n w'', clear self (pre ++ x :: rest) w = (Return n, w'').
Proof.
  intros Hnd Hpre Hc Hstale Hp Hnow Httl.
  eexists. split; [by eapply clear_expired_raises_at_pinned|].
  set (gone := filter (λ n, stale_file self now w n = true) pre).
  split; [|split].
  - intros name Hin. rewrite files_remove_all.
    rewrite bool_decide_eq_false_2; [done|].
    intros [_ Hin']%list_elem_of_filter.
    apply NoDup_app in Hnd as (_ & Hdisj & _). by apply (Hdisj name).
  - intros name Hin. rewrite files_remove_all. unfold gone.
    destruct (stale_file self now w name) eqn:Hs.
    + rewrite bool_decide_eq_true_2; [done|].
      by apply list_elem_of_filter.
    + rewrite bool_decide_eq_false_2; [done|].
      intros [Hs' _]%list_elem_of_filter. congruence.
  - apply clear_loop_returns.
Qed.

End SweepsMore.

(** ** The service: [_build_url] and repeated fetches *)

Section ServiceMore.
Context `{IsoFormat}.
Import WeatherService.

Implicit Types (self : WeatherService.t) (E : env) (w : world)
               (params : ref) (endpoint key : string) (d : pydict).

Lemma dict_setitem_absent k v d :
  dict_lookup k d = None → dict_setitem k v d = d ++ [(k, v)].
Proof.
  induction d as [| [k0 v0] rest IH]; cbn [dict_lookup dict_setitem app];
    [done|].
  destruct (String.eqb k0 k); [done|]. intros Hrest. by rewrite IH.
Qed.

Lemma dict_setitem_same k v d :
  dict_lookup k d = Some v → dict_setitem k v d = d.
Proof.
  induction d as [| [k0 v0] rest IH]; cbn [dict_lookup dict_setitem];
    [done|].
  destruct (String.eqb k0 k); [by intros [= ->]|].
  intros Hrest. by rewrite IH.
Qed.

Lemma dict_lookup_app k d d' :
  dict_lookup k (d ++ d') =
    match dict_lookup k d with Some v => Some v | None => dict_lookup k d' end.
Proof.
  induction d as [| [k0 v0] rest IH]; cbn [dict_lookup app]; [done|].
  by destruct (String.eqb k0 k).
Qed.

(** The two entries, written a second time, change nothing. *)
Lemma credentials_twice self d :
  let once :=
    dict_setitem "units" (PStr "metric")
      (dict_setitem "appid" (PStr (api_key self)) d) in
  dict_setitem "units" (PStr "metric")
    (dict_setitem "appid" (PStr (api_key self)) once) = once.
Proof.
  intros once.
  rewrite (dict_setitem_same "appid" _ once).
  - apply dict_setitem_same. unfold once. by rewrite dict_lookup_setitem.
  - unfold once. by rewrite !dict_lookup_setitem.
Qed.

Lemma with_credentials_twice self params w :
  with_credentials self params (with_credentials self params w) =
  with_credentials self params w.
Proof.
  unfold with_credentials. cbn [heap with_heap].
  destruct w as [f p h r o]. unfold with_heap.
  cbn [files pinned heap requests stdout]. f_equal.
  apply map_eq. intros i. destruct (decide (i = params)) as [-> | Hne].
  - rewrite !lookup_alter_eq. destruct (h !! params) as [d|]; [|done].
    cbn [fmap option_fmap option_map]. f_equal. apply credentials_twice.
  - by rewrite !lookup_alter_ne by done.
Qed.

(** The two entries on a dictionary that has neither: they go after the
    caller's. *)
Lemma credentials_fresh self endpoint params d w :
  heap w !! params = Some d →
  dict_lookup "appid" d = None → dict_lookup "units" d = None →
  let sent_params :=
    d ++ [("appid", PStr (api_key self)); ("units", PStr "metric")] in
  with_credentials self params w =
    with_heap (<[params := sent_params]> (heap w)) w ∧
  url_of self endpoint params w =
    base_url self +:+ "/" +:+ endpoint +:+ "?" +:+
    join "&" (map (λ '(k, v), k +:+ "=" +:+ str v) sent_params).
Proof.
  intros Hd Happid Hunits sent_params.
  assert (dict_setitem "units" (PStr "metric")
            (dict_setitem "appid" (PStr (api_key self)) d) = sent_params) as Hset.
  { rewrite (dict_setitem_absent "appid") by done.
    rewrite dict_setitem_absent
      by (rewrite dict_lookup_app, Hunits; reflexivity).
    unfold sent_params. by rewrite <- app_assoc. }
  assert (with_credentials self params w =
          with_heap (<[params := sent_params]> (heap w)) w) as Hw1.
  { unfold with_credentials. f_equal. apply map_eq. intros i.
    destruct (decide (i = params)) as [-> | Hne].
    - rewrite !lookup_alter_eq, lookup_insert_eq, Hd.
      cbn [fmap option_fmap option_map]. by rewrite Hset.
    - by rewrite !lookup_alter_ne, lookup_insert_ne by done. }
  split; [done|].
  unfold url_of. rewrite Hw1. cbn [heap with_heap].
  by rewrite lookup_insert_eq.
Qed.

(** X10: [_build_url] on a dictionary that has neither ['appid'] nor
    ['units'] appends the two, in this order, after the caller's entries:
    the query string is the caller's parameters, then the credential,
    then the unit, and the dictionary is left holding all of them.
    Calling [_build_url] again returns the same URL and changes nothing
    more. *)
Theorem build_url_appends_credentials self endpoint params d w :
  heap w !! params = Some d →
  dict_lookup "appid" d = None → dict_lookup "units" d = None →
  let sent_params :=
    d ++ [("appid", PStr (api_key self)); ("units", PStr "metric")] in
  let url :=
    base_url self +:+ "/" +:+ endpoint +:+ "?" +:+
    join "&" (map (λ '(k, v), k +:+ "=" +:+ str v) sent_params) in
  let w1 := with_heap (<[params := sent_params]> (heap w)) w in
  _build_url self endpoint params w = (Return url, w1) ∧
  _build_url self endpoint params w1 = (Return url, w1).
Proof.
  intros Hd Happid Hunits sent_params url w1.
  destruct (credentials_fresh self endpoint params d w Hd Happid Hunits)
    as [Hw1 Hurl].
  fold sent_params in Hw1, Hurl. fold w1 in Hw1. fold url in Hurl.
  split.
  - by rewrite build_url_spec, Hw1, Hurl.
  - rewrite build_url_spec. rewrite <- Hw1 at 2.
    unfold url_of. rewrite <- Hw1. rewrite !with_credentials_twice.
    fold (url_of self endpoint params w). by rewrite Hurl, Hw1.
Qed.

(** X11: the cache shields the caller from the upstream.  After one fetch
    that missed, got a 200 with a body that parses and wrote the record,
    every fetch for the key within the time-to-live, for any endpoint and
    parameters and whatever the upstream would answer now, returns that
    payload marked cached with the time of the write, and sends nothing. *)
Theorem second_fetch_is_served_from_cache
    self E1 endpoint params key w w0 r payload :
  CacheManager.get (cache self) (now_get E1) key w = (Return None, w0) →
  upstream E1 (url_of self endpoint params w0) = Responds r →
  status_code r = 200 → parsed r = inr payload →
  disk E1 = Written →
  valid_datetime (now_set E1) = true → utcoffset (now_set E1) = None →
  ttl_in_range (cache self) = true →
  ∃ w1,
    _fetch_data self E1 endpoint params key w =
      (Return {| data := payload; cached := false; cached_at := None |}, w1) ∧
    ∀ E2 endpoint' params',
      utcoffset (now_get E2) = None →
      age_us (now_get E2) (now_set E1)
        <= seconds_us (CacheManager.expiry_seconds (cache self)) →
      _fetch_data self E2 endpoint' params' key w1 =
        (Return {| data := payload; cached := true;
                   cached_at := Some (now_set E1) |}, w1).
Proof.
  intros Hget Hup Hst Hbody Hdisk Hv Hnaive Httl.
  rewrite (fetch_miss _ _ _ _ _ _ _ Hget). cbn zeta. rewrite Hup.
  unfold classify. rewrite Hst, Hbody. cbn [Z.eqb Pos.eqb negb].
  eexists. split; [reflexivity|].
  intros E2 endpoint' params' Hnow Hage.
  apply fetch_hit.
  rewrite (get_after_write _ _ _ _ payload (now_set E1));
    try done.
  - by rewrite (proj2 (Z.ltb_ge _ _) Hage).
  - rewrite Hdisk. unfold after_set. cbn [files with_files].
    apply lookup_insert_eq.
Qed.

(** X12: a failure is not remembered.  After a fetch for a key with no
    file (and a file name the file system can look up, so that the
    lookup is a miss) failed upstream, the cache still has no file for
    the key, and the next fetch with the same dictionary sends the very
    same request again. *)
Theorem failed_fetch_is_retried self E1 E2 endpoint params key w :
  files w !! CacheManager._get_cache_file_path key = None →
  name_fits (CacheManager._get_cache_file_path key) = true →
  upstream_failed (upstream E1 (url_of self endpoint params w)) = true →
  let url := url_of self endpoint params w in
  ∃ e w1,
    _fetch_data self E1 endpoint params key w = (Raise e, w1) ∧
    files w1 = files w ∧ requests w1 = requests w ++ [url] ∧
    requests (_fetch_data self E2 endpoint params key w1).2 =
      requests w ++ [url; url].
Proof.
  intros Hf Hfits Hfail url. fold url in Hfail.
  rewrite (fetch_miss _ _ _ _ _ _ _ (get_absent _ _ _ _ Hf Hfits)).
  cbn zeta. fold url.
  set (w1 := sent url (with_credentials self params w)).
  assert (∃ e, classify self (default [] (heap w1 !! params))
                 (upstream E1 url) = inl e) as [e ->].
  { unfold classify, upstream_failed in *.
    destruct (upstream E1 url) as [e | r].
    - rewrite Hfail. repeat case_match; eauto.
    - destruct (status_code r =? 404); [eauto|].
      destruct (status_code r =? 401); [eauto|].
      destruct (status_code r =? 200); cbn [negb orb] in *; [|eauto].
      destruct (parsed r); [eauto | done]. }
  exists e, w1. split; [done|]. split; [done|]. split; [done|].
  assert (files w1 !! CacheManager._get_cache_file_path key = None) as Hf1
    by done.
  rewrite (fetch_miss _ _ _ _ _ _ _ (get_absent _ _ _ _ Hf1 Hfits)).
  cbn zeta.
  assert (url_of self endpoint params w1 = url) as ->.
  { unfold url_of, url.
    change (with_credentials self params w1)
      with (sent url (with_credentials self params
                        (with_credentials self params w))).
    by rewrite with_credentials_twice. }
  destruct (classify _ _ _); cbn [snd].
  - unfold sent at 1. cbn [requests with_requests with_credentials with_heap].
    unfold w1, sent. cbn [requests with_requests with_credentials with_heap].
    by rewrite <- app_assoc.
  - unfold after_set. destruct (disk E2);
      cbn [requests with_files with_stdout];
      unfold sent at 1; cbn [requests with_requests with_credentials with_heap];
      unfold w1, sent; cbn [requests with_requests with_credentials with_heap];
      by rewrite <- app_assoc.
Qed.

End ServiceMore.

(* ================================================================== *)
(** * The rest of the application *)
(* ================================================================== *)

(** ** src/models/weather_models.py *)

(** The pydantic models, one module per class; a Python [float] is a
    binary64 value. *)

Module CoordinateData.
Record t : Set := { lon : float; lat : float }.
End CoordinateData.

Module WeatherDescription.
Record t : Set := {
  id : Z;
  main : string;
  description : string;
  icon : string
}.
End WeatherDescription.

Module MainData.
Record t : Set := {
  temp : float;
  feels_like : float;
  temp_min : float;
  temp_max : float;
  pressure : Z;
  humidity : Z;
  sea_level : option Z;
  grnd_level : option Z
}.
End MainData.

Module WindData.
Record t : Set := { speed : float; deg : Z; gust : option float }.
End WindData.

Module CloudsData.
Record t : Set := { all : Z }.
End CloudsData.

Module WeatherItem.
Record t : Set := {
  coord : CoordinateData.t;
  weather : list WeatherDescription.t;
  base : string;
  main : MainData.t;
  visibility : Z;
  wind : WindData.t;
  clouds : CloudsData.t;
  dt : Z;
  timezone : Z;
  id : Z;
  name : string;
  cod : Z
}.

(** The property [temp_celsius]. *)
Definition temp_celsius (self : t) : float := MainData.temp (main self).

(** The property [weather_main]. *)
Definition weather_main (self : t) : string :=
  match weather self with
  | first :: _ => WeatherDescription.main first
  | [] => "Unknown"
  end.
End WeatherItem.

Module ForecastItem.
Record t : Set := {
  dt : Z;
  main : MainData.t;
  weather : list WeatherDescription.t;
  clouds : CloudsData.t;
  wind : WindData.t;
  visibility : Z;
  pop : float;
  dt_txt : string
}.

(** The property [weather_main]. *)
Definition weather_main (self : t) : string :=
  match weather self with
  | first :: _ => WeatherDescription.main first
  | [] => "Unknown"
  end.
End ForecastItem.

Module CityData.
Record t : Set := {
  id : Z;
  name : string;
  coord : CoordinateData.t;
  country : string;
  population : Z;
  timezone : Z;
  sunrise : Z;
  sunset : Z
}.
End CityData.

Module WeatherResponse.
Record t : Set := {
  data : WeatherItem.t;
  cached : bool;
  cached_at : option datetime
}.
End WeatherResponse.

Module ForecastResponse.
Record t : Set := {
  cod : string;
  message : Z;
  cnt : Z;
  list : list ForecastItem.t;
  city : CityData.t;
  cached : bool;
  cached_at : option datetime
}.

(** The model with its two cache fields set. *)
Definition with_cache (self : t) (flag : bool) (stamp : option datetime) : t :=
  {| cod := cod self; message := message self; cnt := cnt self;
     list := list self; city := city self;
     cached := flag; cached_at := stamp |}.
End ForecastResponse.

(** Validation is pydantic's: which keyword arguments make a model, and
    which model.  [inl msg] is a [ValidationError], which is a
    [ValueError].  [ForecastResponse_validate] sees the arguments other
    than [cached] and [cached_at] and answers the model with the defaults
    of those two fields. *)
Class Pydantic : Type := {
  WeatherItem_validate : list (string * json) → string + WeatherItem.t;
  ForecastResponse_validate : list (string * json) → string + ForecastResponse.t
}.

(** ** src/services/weather_service.py: the public methods *)

Module WeatherServiceMethods.
Import WeatherService.

(** A dictionary display [{...}]: a new object, at a reference no
    object has. *)
Definition new_dict (d : pydict) : py ref :=
  λ w, let params := fresh (dom (heap w)) in
       (Return params, with_heap (<[params := d]> (heap w)) w).

(** [**value] in a call: the value must be a mapping. *)
Definition keywords (value : json) : py (list (string * json)) :=
  match value with
  | JObj ms => ret ms
  | _ => raise TypeError ""
  end.

(** [value[key] = ...] on what [json.load] returned: only a [dict] takes
    a string key. *)
Definition assignable (value : json) : py (list (string * json)) :=
  match value with
  | JObj ms => ret ms
  | _ => raise TypeError ""
  end.

(** The members other than [key]. *)
Definition members_del (key : string) (ms : list (string * json))
  : list (string * json) :=
  filter (λ m, m.1 ≠ key) ms.

(** What the model's constructor does with pydantic's verdict. *)
Definition validated {A} (verdict : string + A) : py A :=
  match verdict with
  | inl msg => raise ValueError msg
  | inr model => ret model
  end.

Section WithLibraries.
Context `{IsoFormat} `{Pydantic}.

Definition get_current_weather (self : t) (E : env) (city : string)
  : py WeatherResponse.t :=
  let cache_key := "weather_" +:+ city in
  let* params := new_dict [("q", PStr city)] in
  let* result := _fetch_data self E "weather" params cache_key in
  let* kw := keywords (data result) in
  let* item := validated (WeatherItem_validate kw) in
  ret {| WeatherResponse.data := item;
         WeatherResponse.cached := cached result;
         WeatherResponse.cached_at := cached_at result |}.

Definition get_weather_by_id (self : t) (E : env) (city_id : Z)
  : py WeatherResponse.t :=
  let cache_key := "weather_id_" +:+ pretty city_id in
  let* params := new_dict [("id", PInt city_id)] in
  let* result := _fetch_data self E "weather" params cache_key in
  let* kw := keywords (data result) in
  let* item := validated (WeatherItem_validate kw) in
  ret {| WeatherResponse.data := item;
         WeatherResponse.cached := cached result;
         WeatherResponse.cached_at := cached_at result |}.

Definition get_forecast (self : t) (E : env) (city : string) (cnt : Z)
  : py ForecastResponse.t :=
  let cache_key := "forecast_" +:+ city +:+ "_" +:+ pretty cnt in
  let* params := new_dict [("q", PStr city); ("cnt", PInt cnt)] in
  let* result := _fetch_data self E "forecast" params cache_key in
  let* forecast_data := assignable (data result) in
  let* model :=
    validated (ForecastResponse_validate
                 (members_del "cached_at" (members_del "cached" forecast_data))) in
  ret (ForecastResponse.with_cache model (cached result) (cached_at result)).

Definition get_forecast_by_id (self : t) (E : env) (city_id : Z) (cnt : Z)
  : py ForecastResponse.t :=
  let cache_key := "forecast_id_" +:+ pretty city_id +:+ "_" +:+ pretty cnt in
  let* params := new_dict [("id", PInt city_id); ("cnt", PInt cnt)] in
  let* result := _fetch_data self E "forecast" params cache_key in
  let* forecast_data := assignable (data result) in
  let* model :=
    validated (ForecastResponse_validate
                 (members_del "cached_at" (members_del "cached" forecast_data))) in
  ret (ForecastResponse.with_cache model (cached result) (cached_at result)).

(** [clear_cache()]; [listing] is what the glob yields. *)
Definition clear_cache (self : t) (listing : list string) : py Z :=
  CacheManager.clear (cache self) listing.

(** [clear_expired_cache()]. *)
Definition clear_expired_cache (self : t) (now : string → datetime)
    (listing : list string) : py Z :=
  CacheManager.clear_expired (cache self) now listing.

End WithLibraries.
End WeatherServiceMethods.

(** ** src/api/weather_routes.py *)

(** How a route handler ends: it returns a body, it raises
    [HTTPException], or another exception leaves it. *)
Inductive reply (A : Type) : Type :=
  | Sent (body : A)
  | HTTPException (status_code : Z) (detail : string)
  | Unhandled (e : exn).
Arguments Sent {A} body.
Arguments HTTPException {A} status_code detail.
Arguments Unhandled {A} e.

Definition route (A : Type) : Type := world → reply A * world.

Module weather_routes.

(** The [except] clauses the five weather routes share, in their order. *)
Definition weather_errors {A} (body : py A) : route A :=
  λ w, match body w with
       | (Return a, w') => (Sent a, w')
       | (Raise e, w') =>
           if catches [CityNotFoundException] e then
             (HTTPException 404 (exn_msg e), w')
           else if catches [APIKeyException] e then
             (HTTPException 401 (exn_msg e), w')
           else if catches [TimeoutException] e then
             (HTTPException 504 (exn_msg e), w')
           else if catches [NetworkException] e then
             (HTTPException 503 (exn_msg e), w')
           else if catches [InvalidResponseException] e then
             (HTTPException 502 (exn_msg e), w')
           else if catches [WeatherAPIException] e then
             (HTTPException 500 (exn_msg e), w')
           else (Unhandled e, w')
       end.

(** The [except Exception] clause of the two cache routes; [what] is the
    text in front of the message. *)
Definition cache_errors {A} (what : string) (body : py A) : route A :=
  λ w, match body w with
       | (Return a, w') => (Sent a, w')
       | (Raise e, w') =>
           if catches [Exception] e then
             (HTTPException 500 (what +:+ exn_msg e), w')
           else (Unhandled e, w')
       end.

(** The body of the two cache routes: [{"message": ..., "count": ...}]. *)
Record Cleared : Set := { message : string; count : Z }.

(** The query parameters of the filter route. *)
Record Filters : Set := {
  weather_condition : option string;
  min_temp : option float;
  max_temp : option float;
  min_humidity : option Z;
  max_humidity : option Z
}.

Section WithLibraries.
Context `{IsoFormat} `{Pydantic}.
(** [str.lower]. *)
Variable lower : string → string.

Definition get_current_weather (settings : Settings) (E : env) (city : string)
  : route WeatherResponse.t :=
  weather_errors
    (let* service := WeatherService.__init__ settings in
     WeatherServiceMethods.get_current_weather service E city).

Definition get_current_weather_by_id (settings : Settings) (E : env) (city_id : Z)
  : route WeatherResponse.t :=
  weather_errors
    (let* service := WeatherService.__init__ settings in
     WeatherServiceMethods.get_weather_by_id service E city_id).

Definition get_forecast (settings : Settings) (E : env) (city : string) (cnt : Z)
  : route ForecastResponse.t :=
  weather_errors
    (let* service := WeatherService.__init__ settings in
     WeatherServiceMethods.get_forecast service E city cnt).

Definition get_forecast_by_id (settings : Settings) (E : env)
    (city_id : Z) (cnt : Z) : route ForecastResponse.t :=
  weather_errors
    (let* service := WeatherService.__init__ settings in
     WeatherServiceMethods.get_forecast_by_id service E city_id cnt).

(** The filters of [get_filtered_forecast], applied one after the
    other. *)
Definition apply_filters (q : Filters) (items : list ForecastItem.t)
  : list ForecastItem.t :=
  let filtered_items := items in
  let filtered_items :=
    match weather_condition q with
    | Some condition =>
        if String.eqb condition "" then filtered_items
        else
          filter (λ item, lower (ForecastItem.weather_main item) = lower condition)
                 filtered_items
    | None => filtered_items
    end in
  let filtered_items :=
    match min_temp q with
    | Some bound =>
        filter (λ item, (bound <=? MainData.temp (ForecastItem.main item))%float
                        = true)
               filtered_items
    | None => filtered_items
    end in
  let filtered_items :=
    match max_temp q with
    | Some bound =>
        filter (λ item, (MainData.temp (ForecastItem.main item) <=? bound)%float
                        = true)
               filtered_items
    | None => filtered_items
    end in
  let filtered_items :=
    match min_humidity q with
    | Some bound =>
        filter (λ item, bound <= MainData.humidity (ForecastItem.main item))
               filtered_items
    | None => filtered_items
    end in
  let filtered_items :=
    match max_humidity q with
    | Some bound =>
        filter (λ item, MainData.humidity (ForecastItem.main item) <= bound)
               filtered_items
    | None => filtered_items
    end in
  filtered_items.

Definition get_filtered_forecast (settings : Settings) (E : env)
    (city : string) (q : Filters) (cnt : Z) : route (list ForecastItem.t) :=
  weather_errors
    (let* service := WeatherService.__init__ settings in
     let* forecast := WeatherServiceMethods.get_forecast service E city cnt in
     ret (apply_filters q (ForecastResponse.list forecast))).

Definition clear_cache (settings : Settings) (listing : list string)
  : route Cleared :=
  cache_errors "Failed to clear cache: "
    (let* service := WeatherService.__init__ settings in
     let* count := WeatherServiceMethods.clear_cache service listing in
     ret {| message := "Successfully cleared " +:+ pretty count +:+ " cache files";
            count := count |}).

Definition clear_expired_cache (settings : Settings) (now : string → datetime)
    (listing : list string) : route Cleared :=
  cache_errors "Failed to clear expired cache: "
    (let* service := WeatherService.__init__ settings in
     let* count := WeatherServiceMethods.clear_expired_cache service now listing in
     ret {| message :=
              "Successfully cleared " +:+ pretty count +:+ " expired cache files";
            count := count |}).

End WithLibraries.
End weather_routes.

(** ** src/main.py *)

Module main.

(** The body of [/health]. *)
Record Health : Set := {
  status : string;
  api_configured : bool;
  cache_enabled : bool
}.

Definition health_check (settings : Settings) : Health :=
  {| status := "healthy";
     api_configured := negb (String.eqb (openweather_api_key settings) "");
     cache_enabled := true |}.

End main.

(** ** The public methods of the service *)

(** The two entries [_build_url] adds. *)
Definition credentials (self : WeatherService.t) : pydict :=
  [("appid", PStr (WeatherService.api_key self)); ("units", PStr "metric")].

(** The URL requested for the parameters [d]. *)
Definition query_url (self : WeatherService.t) (endpoint : string) (d : pydict)
  : string :=
  WeatherService.base_url self +:+ "/" +:+ endpoint +:+ "?" +:+
  join "&" (map (λ '(k, v), k +:+ "=" +:+ str v) (d ++ credentials self)).

(** The service a configured application constructs. *)
Definition service_of (settings : Settings) : WeatherService.t :=
  {| WeatherService.base_url := openweather_base_url settings;
     WeatherService.api_key := openweather_api_key settings;
     WeatherService.timeout := api_timeout settings;
     WeatherService.cache := CacheManager.__init__ settings None |}.

(** The status the routes answer with for each failure. *)
Definition http_status (k : ErrorKind) : Z :=
  match k with
  | NotFound => 404
  | Unauthorized => 401
  | Timeout => 504
  | NetworkFailure => 503
  | InvalidResponse => 502
  end.

Section QueryMethods.
Context `{IsoFormat} `{Pydantic}.
Import WeatherService WeatherServiceMethods.

Implicit Types (self : WeatherService.t) (E : env) (w : world)
               (d : pydict) (endpoint key : string).

Lemma stateless_run {A} (m : py A) w : stateless m → (m w).2 = w.
Proof. intros [o Ho]. by rewrite Ho. Qed.

Lemma stateless_keywords value : stateless (keywords value).
Proof. destruct value; first [apply stateless_ret | apply stateless_raise]. Qed.

Lemma stateless_assignable value : stateless (assignable value).
Proof. destruct value; first [apply stateless_ret | apply stateless_raise]. Qed.

Lemma stateless_validated {A} (verdict : string + A) : stateless (validated verdict).
Proof. destruct verdict; [apply stateless_raise | apply stateless_ret]. Qed.

(** What the methods do with the result of [_fetch_data]. *)
Definition weather_response (result : result) : py WeatherResponse.t :=
  let* kw := keywords (data result) in
  let* item := validated (WeatherItem_validate kw) in
  ret {| WeatherResponse.data := item;
         WeatherResponse.cached := cached result;
         WeatherResponse.cached_at := cached_at result |}.

Definition forecast_response (result : result) : py ForecastResponse.t :=
  let* forecast_data := assignable (data result) in
  let* model :=
    validated (ForecastResponse_validate
                 (members_del "cached_at" (members_del "cached" forecast_data))) in
  ret (ForecastResponse.with_cache model (cached result) (cached_at result)).

Lemma stateless_weather_response result : stateless (weather_response result).
Proof.
  unfold weather_response.
  apply stateless_bind; [apply stateless_keywords | intros kw].
  apply stateless_bind; [apply stateless_validated | intros item].
  apply stateless_ret.
Qed.

Lemma stateless_forecast_response result : stateless (forecast_response result).
Proof.
  unfold forecast_response.
  apply stateless_bind; [apply stateless_assignable | intros kw].
  apply stateless_bind; [apply stateless_validated | intros item].
  apply stateless_ret.
Qed.

(** A query: a new dictionary, the fetch, and the response built from
    its result. *)
Definition query {A} self E d endpoint key (respond : result → py A) : py A :=
  let* params := new_dict d in
  let* result := _fetch_data self E endpoint params key in
  respond result.

Lemma heap_after_set now disk key payload w :
  heap (after_set now disk key payload w) = heap w.
Proof. by destruct disk. Qed.

Lemma requests_after_set now disk key payload w :
  requests (after_set now disk key payload w) = requests w.
Proof. by destruct disk. Qed.

(** A query for a key that has no file, and a file name the file system
    can look up. *)
Lemma query_miss {A} self E d endpoint key (respond : result → py A) w :
  files w !! CacheManager._get_cache_file_path key = None →
  name_fits (CacheManager._get_cache_file_path key) = true →
  dict_lookup "appid" d = None → dict_lookup "units" d = None →
  let params := fresh (dom (heap w)) in
  let url := query_url self endpoint d in
  let w2 :=
    sent url (with_heap (<[params := d ++ credentials self]> (heap w)) w) in
  query self E d endpoint key respond w =
    match classify self (d ++ credentials self) (upstream E url) with
    | inl e => (Raise e, w2)
    | inr payload =>
        respond {| data := payload; cached := false; cached_at := None |}
                (after_set (now_set E) (disk E) key payload w2)
    end.
Proof.
  intros Hf Hfits Happid Hunits params url w2.
  unfold query, bind at 1, new_dict. fold params.
  set (w1 := with_heap (<[params := d]> (heap w)) w).
  unfold bind at 1.
  rewrite (fetch_miss self E endpoint params key w1 w1)
    by (by apply get_absent).
  cbn zeta.
  destruct (credentials_fresh self endpoint params d w1) as [Hw Hurl];
    [apply lookup_insert_eq | done | done |].
  rewrite Hw, Hurl. fold (credentials self). fold (query_url self endpoint d).
  fold url.
  assert (with_heap (<[params := d ++ credentials self]> (heap w1)) w1 =
          with_heap (<[params := d ++ credentials self]> (heap w)) w) as ->.
  { unfold w1, with_heap. cbn [files pinned heap requests stdout].
    by rewrite insert_insert_eq. }
  fold w2.
  assert (heap w2 !! params = Some (d ++ credentials self)) as ->
    by apply lookup_insert_eq.
  cbn [default from_option]. by destruct (classify _ _ _).
Qed.

(** A query for a key whose file is a record [set] wrote at [stamp]. *)
Lemma query_hit {A} self E d endpoint key (respond : result → py A) w
    payload stamp :
  files w !! CacheManager._get_cache_file_path key =
    Some (Doc (CacheManager.cache_record payload stamp)) →
  valid_datetime stamp = true → utcoffset stamp = None →
  utcoffset (now_get E) = None → ttl_in_range (cache self) = true →
  age_us (now_get E) stamp
    <= seconds_us (CacheManager.expiry_seconds (cache self)) →
  query self E d endpoint key respond w =
    respond {| data := payload; cached := true; cached_at := Some stamp |}
            (with_heap (<[fresh (dom (heap w)) := d]> (heap w)) w).
Proof.
  intros Hf Hv Hst Hnow Httl Hage.
  unfold query, bind at 1, new_dict. unfold bind at 1.
  rewrite (fetch_hit self E endpoint _ key _
             {| data := payload; cached := true; cached_at := Some stamp |}
             (with_heap (<[fresh (dom (heap w)) := d]> (heap w)) w)); [done|].
  rewrite (get_after_write _ _ _ _ payload stamp); try done.
  by rewrite (proj2 (Z.ltb_ge _ _) Hage).
Qed.

(** [_fetch_data] writes to no dictionary but the one it was given. *)
Lemma fetch_heap_frame self E endpoint params key w (r : ref) :
  r ≠ params →
  heap (_fetch_data self E endpoint params key w).2 !! r = heap w !! r.
Proof.
  intros Hne.
  destruct (CacheManager.get (cache self) (now_get E) key w) as [o w0] eqn:Hget.
  pose proof (get_changes _ _ _ _ _ _ Hget) as Hw0.
  assert (heap w0 = heap w) as Hheap
    by (subst w0; by destruct o as [[hit|]|e]).
  destruct o as [[hit|]|e].
  - rewrite (fetch_hit _ _ _ _ _ _ _ _ Hget). cbn [snd]. by rewrite Hheap.
  - rewrite (fetch_miss _ _ _ _ _ _ _ Hget). cbn zeta.
    destruct (classify _ _ _); cbn [snd]; rewrite ?heap_after_set;
      unfold sent, with_credentials; cbn [heap with_requests with_heap];
      by rewrite !lookup_alter_ne, Hheap by done.
  - rewrite (fetch_lookup_raises _ _ _ _ _ _ _ _ Hget). cbn [snd].
    by rewrite Hheap.
Qed.

(** A query leaves the dictionaries that exist alone. *)
Lemma query_heap_frame {A} self E d endpoint key (respond : result → py A)
    w (r : ref) :
  (∀ result, stateless (respond result)) →
  r ∈ dom (heap w) →
  heap (query self E d endpoint key respond w).2 !! r = heap w !! r.
Proof.
  intros Hk Hr. unfold query, bind at 1, new_dict.
  set (params := fresh (dom (heap w))).
  set (w1 := with_heap (<[params := d]> (heap w)) w).
  assert (r ≠ params) as Hne.
  { intros ->. by apply (is_fresh (dom (heap w))). }
  pose proof (fetch_heap_frame self E endpoint params key w1 r Hne) as Hfetch.
  unfold bind.
  destruct (_fetch_data self E endpoint params key w1) as [[result|e] w2].
  - rewrite (stateless_run _ _ (Hk result)). cbn [snd] in Hfetch.
    rewrite Hfetch. unfold w1. cbn [heap with_heap].
    by rewrite lookup_insert_ne.
  - cbn [snd] in *. rewrite Hfetch. unfold w1. cbn [heap with_heap].
    by rewrite lookup_insert_ne.
Qed.

Lemma get_current_weather_query self E city :
  get_current_weather self E city =
    query self E [("q", PStr city)] "weather" ("weather_" +:+ city)
      weather_response.
Proof. reflexivity. Qed.

Lemma get_weather_by_id_query self E city_id :
  get_weather_by_id self E city_id =
    query self E [("id", PInt city_id)] "weather"
      ("weather_id_" +:+ pretty city_id) weather_response.
Proof. reflexivity. Qed.

Lemma get_forecast_query self E city cnt :
  get_forecast self E city cnt =
    query self E [("q", PStr city); ("cnt", PInt cnt)] "forecast"
      ("forecast_" +:+ city +:+ "_" +:+ pretty cnt) forecast_response.
Proof. reflexivity. Qed.

Lemma get_forecast_by_id_query self E city_id cnt :
  get_forecast_by_id self E city_id cnt =
    query self E [("id", PInt city_id); ("cnt", PInt cnt)] "forecast"
      ("forecast_id_" +:+ pretty city_id +:+ "_" +:+ pretty cnt)
      forecast_response.
Proof. reflexivity. Qed.


(** X13: the public methods build their own parameter dictionary.  Whatever
    comes of the call, every dictionary that existed before it is as it
    was: the entries [_build_url] writes go into an object no caller
    holds. *)
Theorem public_methods_leave_dictionaries_alone self E city city_id cnt w r :
  r ∈ dom (heap w) →
  heap (get_current_weather self E city w).2 !! r = heap w !! r ∧
  heap (get_weather_by_id self E city_id w).2 !! r = heap w !! r ∧
  heap (get_forecast self E city cnt w).2 !! r = heap w !! r ∧
  heap (get_forecast_by_id self E city_id cnt w).2 !! r = heap w !! r.
Proof.
  intros Hr.
  rewrite get_current_weather_query, get_weather_by_id_query,
    get_forecast_query, get_forecast_by_id_query.
  repeat split; apply query_heap_frame;
    auto using stateless_weather_response, stateless_forecast_response.
Qed.

Lemma query_miss_requests {A} self E d endpoint key (respond : result → py A) w :
  (∀ result, stateless (respond result)) →
  files w !! CacheManager._get_cache_file_path key = None →
  name_fits (CacheManager._get_cache_file_path key) = true →
  dict_lookup "appid" d = None → dict_lookup "units" d = None →
  requests (query self E d endpoint key respond w).2 =
    requests w ++ [query_url self endpoint d].
Proof.
  intros Hk Hf Hfits Happid Hunits. rewrite query_miss by done.
  destruct (classify _ _ _) as [e | payload]; [done|].
  by rewrite (stateless_run _ _ (Hk _)), requests_after_set.
Qed.

(** A query for a key that has no file and whose file name is too long
    for the file system: the lookup raises before anything is sent. *)
Lemma query_name_too_long {A} self E d endpoint key (respond : result → py A) w :
  files w !! CacheManager._get_cache_file_path key = None →
  name_fits (CacheManager._get_cache_file_path key) = false →
  query self E d endpoint key respond w =
    (Raise (Exn OSError ""),
     with_heap (<[fresh (dom (heap w)) := d]> (heap w)) w).
Proof.
  intros Hf Hfits. unfold query, bind at 1, new_dict. unfold bind.
  by rewrite (fetch_lookup_raises self E endpoint _ key _ (Exn OSError "") _
                (get_name_too_long (cache self) (now_get E) key
                   (with_heap (<[fresh (dom (heap w)) := d]> (heap w)) w)
                   Hf Hfits)).
Qed.

Lemma query_absent_requests {A} self E d endpoint key (respond : result → py A) w :
  (∀ result, stateless (respond result)) →
  files w !! CacheManager._get_cache_file_path key = None →
  dict_lookup "appid" d = None → dict_lookup "units" d = None →
  requests (query self E d endpoint key respond w).2 =
    requests w ++
      if name_fits (CacheManager._get_cache_file_path key)
      then [query_url self endpoint d] else [].
Proof.
  intros Hk Hf Happid Hunits.
  destruct (name_fits _) eqn:Hfits.
  - by apply query_miss_requests.
  - rewrite query_name_too_long by done. cbn. by rewrite app_nil_r.
Qed.

(** X14: what a public method asks the upstream for.  For a key that has
    no file each method sends exactly one request, whatever the answer
    turns out to be, and its URL is the base URL, the endpoint and the
    parameters in this order, the values spliced in as they are.  The
    one exception is a key whose file name is too long for the file
    system: the lookup raises and no request is sent. *)
Theorem public_methods_request_urls self E city city_id cnt w :
  (files w !! CacheManager._get_cache_file_path ("weather_" +:+ city) = None →
   requests (get_current_weather self E city w).2 =
     requests w ++
       if name_fits (CacheManager._get_cache_file_path ("weather_" +:+ city))
       then [base_url self +:+ "/weather?q=" +:+ city +:+
             "&appid=" +:+ api_key self +:+ "&units=metric"]
       else []) ∧
  (files w !! CacheManager._get_cache_file_path
                ("weather_id_" +:+ pretty city_id) = None →
   requests (get_weather_by_id self E city_id w).2 =
     requests w ++
       if name_fits (CacheManager._get_cache_file_path
                       ("weather_id_" +:+ pretty city_id))
       then [base_url self +:+ "/weather?id=" +:+ pretty city_id +:+
             "&appid=" +:+ api_key self +:+ "&units=metric"]
       else []) ∧
  (files w !! CacheManager._get_cache_file_path
                ("forecast_" +:+ city +:+ "_" +:+ pretty cnt) = None →
   requests (get_forecast self E city cnt w).2 =
     requests w ++
       if name_fits (CacheManager._get_cache_file_path
                       ("forecast_" +:+ city +:+ "_" +:+ pretty cnt))
       then [base_url self +:+ "/forecast?q=" +:+ city +:+
             "&cnt=" +:+ pretty cnt +:+
             "&appid=" +:+ api_key self +:+ "&units=metric"]
       else []) ∧
  (files w !! CacheManager._get_cache_file_path
                ("forecast_id_" +:+ pretty city_id +:+ "_" +:+ pretty cnt) = None →
   requests (get_forecast_by_id self E city_id cnt w).2 =
     requests w ++
       if name_fits (CacheManager._get_cache_file_path
                       ("forecast_id_" +:+ pretty city_id +:+ "_" +:+ pretty cnt))
       then [base_url self +:+ "/forecast?id=" +:+ pretty city_id +:+
             "&cnt=" +:+ pretty cnt +:+
             "&appid=" +:+ api_key self +:+ "&units=metric"]
       else []).
Proof.
  rewrite get_current_weather_query, get_weather_by_id_query,
    get_forecast_query, get_forecast_by_id_query.
  repeat split; intros Hf;
    (rewrite query_absent_requests;
     [| auto using stateless_weather_response, stateless_forecast_response
      | done | done | done]);
    f_equal; (destruct (name_fits _); [|done]);
    f_equal; unfold query_url, credentials;
    cbn [map app join str];
    reflexivity.
Qed.

(** X15: the by-name and the by-id methods share their keys.  The key of
    [get_weather_by_id n] is the key of [get_current_weather] for the
    city named [id_n]: once the first has cached its payload, the second
    returns that payload as the weather of that city, marked cached, and
    sends nothing.  (The key's file name is one the file system takes,
    as it must be for the record to be written.) *)
Theorem city_named_like_an_id_shares_entry self E1 city_id w r ms item :
  files w !! CacheManager._get_cache_file_path
               ("weather_id_" +:+ pretty city_id) = None →
  name_fits (CacheManager._get_cache_file_path
               ("weather_id_" +:+ pretty city_id)) = true →
  upstream E1 (query_url self "weather" [("id", PInt city_id)]) = Responds r →
  status_code r = 200 → parsed r = inr (JObj ms) →
  WeatherItem_validate ms = inr item →
  disk E1 = Written →
  valid_datetime (now_set E1) = true → utcoffset (now_set E1) = None →
  ttl_in_range (cache self) = true →
  ∃ w1,
    get_weather_by_id self E1 city_id w =
      (Return {| WeatherResponse.data := item;
                 WeatherResponse.cached := false;
                 WeatherResponse.cached_at := None |}, w1) ∧
    ∀ E2,
      utcoffset (now_get E2) = None →
      age_us (now_get E2) (now_set E1)
        <= seconds_us (CacheManager.expiry_seconds (cache self)) →
      ∃ w2,
        get_current_weather self E2 ("id_" +:+ pretty city_id) w1 =
          (Return {| WeatherResponse.data := item;
                     WeatherResponse.cached := true;
                     WeatherResponse.cached_at := Some (now_set E1) |}, w2) ∧
        requests w2 = requests w1 ∧ files w2 = files w1.
Proof.
  intros Hf Hfits Hup Hst Hbody Hitem Hdisk Hv Hnaive Httl.
  rewrite get_weather_by_id_query, query_miss by done.
  cbn zeta. rewrite Hup. unfold classify. rewrite Hst, Hbody.
  cbn [Z.eqb Pos.eqb negb]. unfold weather_response at 1.
  cbn [data cached cached_at keywords]. unfold bind at 1, ret at 1.
  rewrite Hitem. cbn [validated]. unfold bind at 1, ret at 1.
  eexists. split; [reflexivity|].
  intros E2 Hnow Hage. rewrite get_current_weather_query.
  change ("weather_" +:+ "id_" +:+ pretty city_id)
    with ("weather_id_" +:+ pretty city_id).
  erewrite (query_hit self E2 _ _ _ _ _ (JObj ms) (now_set E1)); try done.
  - unfold weather_response. cbn [data cached cached_at keywords].
    unfold bind at 1, ret at 1. rewrite Hitem. cbn [validated].
    unfold bind at 1, ret at 1. eexists. split; [reflexivity|].
    by rewrite Hdisk.
  - rewrite Hdisk. unfold after_set. cbn [files with_files].
    apply lookup_insert_eq.
Qed.

End QueryMethods.

(** ** The routes *)

Lemma leb_nan_l (x : float) : (nan <=? x)%float = false.
Proof.
  rewrite leb_spec. unfold SFleb, SFcompare.
  change (Prim2SF nan) with S754_nan. reflexivity.
Qed.

Lemma leb_nan_r (x : float) : (x <=? nan)%float = false.
Proof.
  rewrite leb_spec. unfold SFleb, SFcompare.
  change (Prim2SF nan) with S754_nan. by destruct (Prim2SF x).
Qed.

Section ExceptionClasses.
Context `{IsoFormat}.
Import CacheManager.

(** A computation that never raises [WeatherAPIException] itself (as
    opposed to one of its five subclasses). *)
Definition never_raises_base {A} (m : py A) : Prop :=
  ∀ w e w', m w = (Raise e, w') → exn_cls e ≠ WeatherAPIException.

Lemma never_raises_base_bind {A B} (m : py A) (k : A → py B) :
  never_raises_base m → (∀ a, never_raises_base (k a)) →
  never_raises_base (bind m k).
Proof.
  intros Hm Hk w e w'. unfold bind.
  destruct (m w) as [[a|e1] w1] eqn:Hrun.
  - apply Hk.
  - intros [= <- <-]. by eapply Hm.
Qed.

Lemma never_raises_base_ret {A} (a : A) : never_raises_base (ret a).
Proof. by intros w e w'. Qed.

Lemma never_raises_base_raise {A} c msg :
  c ≠ WeatherAPIException → never_raises_base (@raise A c msg).
Proof. intros Hc w e w' [= <- <-]. done. Qed.

Lemma read_age_never_raises_base self now name :
  never_raises_base (read_age self now name).
Proof.
  change (read_age self now name)
    with (bind (json_load name) (age_of_record self now)).
  apply never_raises_base_bind.
  - intros w e w'. unfold json_load.
    destruct (files w !! name) as [[| | | j] |]; by intros [= <- <-].
  - intros j. unfold age_of_record.
    apply never_raises_base_bind.
    { destruct j; cbn [subscript];
        try (by apply never_raises_base_raise).
      destruct (members_get _ _);
        [apply never_raises_base_ret | by apply never_raises_base_raise]. }
    intros stamp. apply never_raises_base_bind.
    { destruct stamp; cbn [datetime_fromisoformat];
        try (by apply never_raises_base_raise).
      destruct (fromisoformat _);
        [apply never_raises_base_ret | by apply never_raises_base_raise]. }
    intros cached_at. apply never_raises_base_bind.
    { unfold datetime_sub. destruct (utcoffset now), (utcoffset cached_at);
        first [apply never_raises_base_ret | by apply never_raises_base_raise]. }
    intros age. apply never_raises_base_bind.
    { unfold timedelta_seconds. destruct (_ && _);
        [apply never_raises_base_ret | by apply never_raises_base_raise]. }
    intros ttl. apply never_raises_base_ret.
Qed.

Lemma get_never_raises_base self now key : never_raises_base (get self now key).
Proof.
  intros w e w' Hget.
  destruct (files w !! _get_cache_file_path key) as [c|] eqn:Hf.
  2:{ destruct (name_fits (_get_cache_file_path key)) eqn:Hfits.
      - by rewrite get_absent in Hget.
      - rewrite get_name_too_long in Hget by done. by injection Hget as <- _. }
  destruct (read_age_local self now (_get_cache_file_path key) w w eq_refl)
    as (o & Hr & _).
  rewrite (get_by_read_age _ _ _ _ _ _ Hf Hr) in Hget.
  unfold get_verdict in Hget.
  destruct o as [[[cache_data stamp] [|]] | e1].
  - destruct (bool_decide _); cbn in Hget; by simplify_eq.
  - destruct cache_data; try (cbn in Hget; by simplify_eq).
    destruct (members_get _ _); [cbn in Hget; by simplify_eq|].
    destruct (bool_decide _); cbn in Hget; by simplify_eq.
  - destruct (catches _ e1).
    + destruct (bool_decide _); cbn in Hget; by simplify_eq.
    + cbn in Hget. simplify_eq. by eapply read_age_never_raises_base.
Qed.

End ExceptionClasses.

(** The text [WeatherService()] raises with when no key is configured. *)
Definition not_configured : string :=
  "OpenWeather API key is not configured. Please set OPENWEATHER_API_KEY in .env file".

(** What the weather routes answer when the upstream's answer [t] to the
    request for [d] is a failure: the status and the detail. *)
Definition failure_of (self : WeatherService.t) (d : pydict) (t : transport)
  : option (Z * string) :=
  match classify self d t with
  | inl e =>
      match error_kind (exn_cls e) with
      | Some k => Some (http_status k, exn_msg e)
      | None => None
      end
  | inr _ => None
  end.

(** A route's run that answers the failed request for [d] at [endpoint]
    with its status and detail, the request sent and the cache
    directory as it was. *)
Definition answers_failure {A} (self : WeatherService.t) (E : env)
    (d : pydict) (endpoint : string) (w : world) (run : reply A * world) : Prop :=
  ∃ status detail w',
    run = (HTTPException status detail, w') ∧
    failure_of self (d ++ credentials self)
      (upstream E (query_url self endpoint d)) = Some (status, detail) ∧
    status ∈ [404; 401; 504; 503; 502] ∧
    files w' = files w ∧
    requests w' = requests w ++ [query_url self endpoint d].

Section Routes.
Context `{IsoFormat} `{Pydantic}.
Variable lower : string → string.
Import WeatherService.

Implicit Types (self : WeatherService.t) (E : env) (w : world)
               (d : pydict) (endpoint key : string) (settings : Settings).

Lemma init_configured settings w :
  openweather_api_key settings ≠ "" →
  __init__ settings w = (Return (service_of settings), w).
Proof.
  intros Hk. unfold __init__. cbn [api_key].
  by rewrite (proj2 (String.eqb_neq _ _) Hk).
Qed.

Lemma init_unconfigured settings w :
  openweather_api_key settings = "" →
  __init__ settings w = (Raise (Exn APIKeyException not_configured), w).
Proof. intros Hk. unfold __init__. cbn [api_key]. by rewrite Hk. Qed.

(** The clause that answers each of the five failures. *)
Lemma weather_errors_kind {A} (body : py A) w c msg k w' :
  body w = (Raise (Exn c msg), w') → error_kind c = Some k →
  weather_routes.weather_errors body w = (HTTPException (http_status k) msg, w').
Proof.
  intros Hbody Hk. unfold weather_routes.weather_errors. rewrite Hbody.
  by destruct c; simplify_eq/=.
Qed.

(** The last clause answers [WeatherAPIException] itself, and nothing
    else. *)
Lemma weather_errors_500 {A} (body : py A) w detail w' :
  weather_routes.weather_errors body w = (HTTPException 500 detail, w') →
  ∃ e, body w = (Raise e, w') ∧ exn_cls e = WeatherAPIException.
Proof.
  unfold weather_routes.weather_errors.
  destruct (body w) as [[a | [c msg]] w1]; [done|].
  destruct c; intros Hrun; vm_compute in Hrun; simplify_eq.
  eexists; split; reflexivity.
Qed.

Lemma classify_failed self d t :
  upstream_failed t = true →
  ∃ c msg k, classify self d t = inl (Exn c msg) ∧ error_kind c = Some k.
Proof.
  unfold classify, upstream_failed. destruct t as [e | r].
  - intros Hfail. rewrite Hfail. repeat case_match; eauto.
  - destruct (status_code r =? 404); [eauto|].
    destruct (status_code r =? 401); [eauto|].
    destruct (status_code r =? 200); cbn [negb orb]; [|eauto].
    destruct (parsed r); [eauto | done].
Qed.

Lemma classify_never_base self d t e :
  (∀ e', t = Raises e' → exn_cls e' ≠ WeatherAPIException) →
  classify self d t = inl e → exn_cls e ≠ WeatherAPIException.
Proof.
  intros Ht. unfold classify. destruct t as [e' | r].
  - repeat case_match; intros [= <-]; try done. by apply Ht.
  - repeat case_match; by intros [= <-].
Qed.

Lemma fetch_never_raises_base self E endpoint params key :
  (∀ url e, upstream E url = Raises e → exn_cls e ≠ WeatherAPIException) →
  never_raises_base (_fetch_data self E endpoint params key).
Proof.
  intros Hup w e w' Hrun.
  destruct (CacheManager.get (cache self) (now_get E) key w)
    as [[[hit|]|e1] w0] eqn:Hget.
  - by rewrite (fetch_hit _ _ _ _ _ _ _ _ Hget) in Hrun.
  - rewrite (fetch_miss _ _ _ _ _ _ _ Hget) in Hrun. cbn zeta in Hrun.
    destruct (classify _ _ _) as [e1 | payload] eqn:Hc; [|done].
    injection Hrun as -> _.
    eapply classify_never_base; [|done]. intros e' He'. by eapply Hup.
  - rewrite (fetch_lookup_raises _ _ _ _ _ _ _ _ Hget) in Hrun.
    injection Hrun as -> _. by eapply get_never_raises_base.
Qed.

Lemma query_never_raises_base {A} self E d endpoint key (respond : result → py A) :
  (∀ url e, upstream E url = Raises e → exn_cls e ≠ WeatherAPIException) →
  (∀ result, never_raises_base (respond result)) →
  never_raises_base (query self E d endpoint key respond).
Proof.
  intros Hup Hk. unfold query.
  apply never_raises_base_bind; [by intros w e w' |]. intros params.
  apply never_raises_base_bind; [by apply fetch_never_raises_base | done].
Qed.

Lemma weather_response_never_raises_base result :
  never_raises_base (weather_response result).
Proof.
  unfold weather_response.
  apply never_raises_base_bind.
  { destruct (data result);
      first [apply never_raises_base_ret | by apply never_raises_base_raise]. }
  intros kw. apply never_raises_base_bind; [|intros; apply never_raises_base_ret].
  destruct (WeatherItem_validate kw);
    [by apply never_raises_base_raise | apply never_raises_base_ret].
Qed.

Lemma forecast_response_never_raises_base result :
  never_raises_base (forecast_response result).
Proof.
  unfold forecast_response.
  apply never_raises_base_bind.
  { destruct (data result);
      first [apply never_raises_base_ret | by apply never_raises_base_raise]. }
  intros kw. apply never_raises_base_bind; [|intros; apply never_raises_base_ret].
  destruct (ForecastResponse_validate _);
    [by apply never_raises_base_raise | apply never_raises_base_ret].
Qed.

Lemma init_never_raises_base settings : never_raises_base (__init__ settings).
Proof.
  unfold __init__. destruct (String.eqb _ _);
    [by apply never_raises_base_raise | apply never_raises_base_ret].
Qed.

(** A query of a configured service whose request fails upstream. *)
Lemma query_upstream_failure {A} settings E d endpoint key
    (respond : result → py A) w :
  files w !! CacheManager._get_cache_file_path key = None →
  name_fits (CacheManager._get_cache_file_path key) = true →
  dict_lookup "appid" d = None → dict_lookup "units" d = None →
  upstream_failed (upstream E (query_url (service_of settings) endpoint d)) = true →
  ∃ c msg k w',
    query (service_of settings) E d endpoint key respond w =
      (Raise (Exn c msg), w') ∧
    error_kind c = Some k ∧
    failure_of (service_of settings) (d ++ credentials (service_of settings))
      (upstream E (query_url (service_of settings) endpoint d)) =
      Some (http_status k, msg) ∧
    files w' = files w ∧
    requests w' = requests w ++ [query_url (service_of settings) endpoint d].
Proof.
  intros Hf Hfits Happid Hunits Hfail.
  rewrite query_miss by done. cbn zeta.
  destruct (classify_failed (service_of settings)
              (d ++ credentials (service_of settings)) _ Hfail)
    as (c & msg & k & Hc & Hk).
  unfold failure_of. rewrite Hc. cbn [exn_cls exn_msg]. rewrite Hk.
  by exists c, msg, k; eexists.
Qed.

Lemma http_status_known k : http_status k ∈ [404; 401; 504; 503; 502].
Proof. destruct k; cbn; set_solver. Qed.

(** A route of a configured application whose service call raises one
    of the five failures. *)
Lemma route_raises {A} settings (body : WeatherService.t → py A) w c msg k w' :
  openweather_api_key settings ≠ "" →
  body (service_of settings) w = (Raise (Exn c msg), w') →
  error_kind c = Some k →
  weather_routes.weather_errors
    (let* service := __init__ settings in body service) w =
    (HTTPException (http_status k) msg, w').
Proof.
  intros Hkey Hbody Hk. eapply weather_errors_kind; [|exact Hk].
  unfold bind. by rewrite (init_configured _ _ Hkey).
Qed.

(** The status and detail for each way the upstream fails. *)
Lemma failure_of_cases self d :
  (∀ r, status_code r = 404 →
     failure_of self d (Responds r) =
       Some (404, "City not found: " +:+ city_of d)) ∧
  (∀ r, status_code r = 401 →
     failure_of self d (Responds r) = Some (401, "Invalid API key")) ∧
  (∀ r, status_code r ≠ 404 → status_code r ≠ 401 → status_code r ≠ 200 →
     failure_of self d (Responds r) =
       Some (502, "API returned status code " +:+ pretty (status_code r)
                  +:+ ": " +:+ text r)) ∧
  (∀ r e, status_code r = 200 → parsed r = inl e →
     failure_of self d (Responds r) =
       Some (502, "Failed to parse JSON response: " +:+ exn_msg e)) ∧
  (∀ e, issubclass (exn_cls e) httpx_TimeoutException = true →
     failure_of self d (Raises e) =
       Some (504, "Request timeout after " +:+ pretty (timeout self)
                  +:+ " seconds: " +:+ exn_msg e)) ∧
  (∀ e, issubclass (exn_cls e) httpx_TimeoutException = false →
     issubclass (exn_cls e) httpx_HTTPError = true →
     ∃ text, failure_of self d (Raises e) = Some (503, text +:+ exn_msg e)).
Proof.
  unfold failure_of, classify. repeat split.
  - intros r ->. done.
  - intros r ->. done.
  - intros r H404 H401 H200.
    rewrite (proj2 (Z.eqb_neq _ _) H404), (proj2 (Z.eqb_neq _ _) H401),
      (proj2 (Z.eqb_neq _ _) H200). done.
  - intros r e -> ->. done.
  - intros e ->. done.
  - intros e -> Hhttp. rewrite Hhttp.
    destruct (issubclass (exn_cls e) httpx_NetworkError); by eexists.
Qed.

(** X16: the weather routes turn a failed upstream request into an HTTP
    error.  With a key configured, no file for the key and a file name
    the file system can look up, each of the five routes sends its one
    request and, when that fails, raises [HTTPException] with the status
    of the failure and the text of the service's exception as detail,
    leaving the cache directory as it was: 404 for an upstream 404, 401
    for a 401, 502 for any other status but 200 and for a body that does
    not parse, 504 for a timeout, 503 for any other transport error.
    For a city so long that the file name is beyond what the file system
    takes, the route never gets that far: the [OSError] of the lookup
    leaves it unhandled and nothing is sent. *)
Theorem weather_routes_map_upstream_failure settings E city city_id cnt q w :
  openweather_api_key settings ≠ "" →
  (∀ url, upstream_failed (upstream E url) = true) →
  ((files w !! CacheManager._get_cache_file_path ("weather_" +:+ city) = None →
    name_fits (CacheManager._get_cache_file_path ("weather_" +:+ city)) = true →
    answers_failure (service_of settings) E [("q", PStr city)] "weather" w
      (weather_routes.get_current_weather settings E city w)) ∧
   (files w !! CacheManager._get_cache_file_path
                 ("weather_id_" +:+ pretty city_id) = None →
    name_fits (CacheManager._get_cache_file_path
                 ("weather_id_" +:+ pretty city_id)) = true →
    answers_failure (service_of settings) E [("id", PInt city_id)] "weather" w
      (weather_routes.get_current_weather_by_id settings E city_id w)) ∧
   (files w !! CacheManager._get_cache_file_path
                 ("forecast_" +:+ city +:+ "_" +:+ pretty cnt) = None →
    name_fits (CacheManager._get_cache_file_path
                 ("forecast_" +:+ city +:+ "_" +:+ pretty cnt)) = true →
    answers_failure (service_of settings) E
      [("q", PStr city); ("cnt", PInt cnt)] "forecast" w
      (weather_routes.get_forecast settings E city cnt w) ∧
    answers_failure (service_of settings) E
      [("q", PStr city); ("cnt", PInt cnt)] "forecast" w
      (weather_routes.get_filtered_forecast lower settings E city q cnt w)) ∧
   (files w !! CacheManager._get_cache_file_path
                 ("forecast_id_" +:+ pretty city_id +:+ "_" +:+ pretty cnt) = None →
    name_fits (CacheManager._get_cache_file_path
                 ("forecast_id_" +:+ pretty city_id +:+ "_" +:+ pretty cnt)) = true →
    answers_failure (service_of settings) E
      [("id", PInt city_id); ("cnt", PInt cnt)] "forecast" w
      (weather_routes.get_forecast_by_id settings E city_id cnt w))) ∧
  (files w !! CacheManager._get_cache_file_path ("weather_" +:+ city) = None →
   name_fits (CacheManager._get_cache_file_path ("weather_" +:+ city)) = false →
   ∃ w',
     weather_routes.get_current_weather settings E city w =
       (Unhandled (Exn OSError ""), w') ∧
     files w' = files w ∧ requests w' = requests w) ∧
  ∀ d,
    (∀ r, status_code r = 404 →
       failure_of (service_of settings) d (Responds r) =
         Some (404, "City not found: " +:+ city_of d)) ∧
    (∀ r, status_code r = 401 →
       failure_of (service_of settings) d (Responds r) =
         Some (401, "Invalid API key")) ∧
    (∀ r, status_code r ≠ 404 → status_code r ≠ 401 → status_code r ≠ 200 →
       failure_of (service_of settings) d (Responds r) =
         Some (502, "API returned status code " +:+ pretty (status_code r)
                    +:+ ": " +:+ text r)) ∧
    (∀ r e, status_code r = 200 → parsed r = inl e →
       failure_of (service_of settings) d (Responds r) =
         Some (502, "Failed to parse JSON response: " +:+ exn_msg e)) ∧
    (∀ e, issubclass (exn_cls e) httpx_TimeoutException = true →
       failure_of (service_of settings) d (Raises e) =
         Some (504, "Request timeout after " +:+ pretty (api_timeout settings)
                    +:+ " seconds: " +:+ exn_msg e)) ∧
    (∀ e, issubclass (exn_cls e) httpx_TimeoutException = false →
       issubclass (exn_cls e) httpx_HTTPError = true →
       ∃ text,
         failure_of (service_of settings) d (Raises e) =
           Some (503, text +:+ exn_msg e)).
Proof.
  intros Hkey Hfail.
  split; [|split; [|intros d; apply failure_of_cases]].
  2:{ intros Hf Hfits. eexists. split.
      - unfold weather_routes.get_current_weather,
          weather_routes.weather_errors.
        unfold bind at 1. rewrite (init_configured _ _ Hkey).
        rewrite get_current_weather_query.
        rewrite (query_name_too_long _ _ _ _ _ _ _ Hf Hfits). reflexivity.
      - done. }
  assert (∀ {A B} d endpoint key (respond : result → py A)
            (body : WeatherService.t → py B),
            (∀ c msg w',
               query (service_of settings) E d endpoint key respond w =
                 (Raise (Exn c msg), w') →
               body (service_of settings) w = (Raise (Exn c msg), w')) →
            files w !! CacheManager._get_cache_file_path key = None →
            name_fits (CacheManager._get_cache_file_path key) = true →
            dict_lookup "appid" d = None → dict_lookup "units" d = None →
            answers_failure (service_of settings) E d endpoint w
              (weather_routes.weather_errors
                 (let* service := __init__ settings in body service) w))
    as Hroute.
  { intros A B d endpoint key respond body Hbody Hf Hfits Happid Hunits.
    destruct (query_upstream_failure settings E d endpoint key respond w
                Hf Hfits Happid Hunits (Hfail _))
      as (c & msg & k & w' & Hrun & Hk & Hfailure & Hfiles & Hreq).
    exists (http_status k), msg, w'.
    split; [|by auto using http_status_known].
    eapply route_raises; [done | | exact Hk]. by apply Hbody. }
  split; [|split; [|split]]; intros Hf Hfits; [| |split|].
  - by eapply (Hroute _ _ _ _ _ weather_response).
  - by eapply (Hroute _ _ _ _ _ weather_response).
  - by eapply (Hroute _ _ _ _ _ forecast_response).
  - eapply (Hroute _ _ _ _ _ forecast_response); try done.
    intros c msg w' Hrun. unfold bind.
    by rewrite get_forecast_query, Hrun.
  - by eapply (Hroute _ _ _ _ _ forecast_response).
Qed.

(** X17: the [except WeatherAPIException] clause of the weather routes is
    never taken.  As long as the transport does not itself raise the
    application's own base exception, none of the five routes answers
    500: the service raises only the five subclasses, and anything else
    (a [TypeError] from a damaged cache record, a validation error) is
    not a [WeatherAPIException] and leaves the route unhandled. *)
Theorem weather_routes_never_answer_500 settings E city city_id cnt q w :
  (∀ url e, upstream E url = Raises e → exn_cls e ≠ WeatherAPIException) →
  ∀ detail w',
    weather_routes.get_current_weather settings E city w
      ≠ (HTTPException 500 detail, w') ∧
    weather_routes.get_current_weather_by_id settings E city_id w
      ≠ (HTTPException 500 detail, w') ∧
    weather_routes.get_forecast settings E city cnt w
      ≠ (HTTPException 500 detail, w') ∧
    weather_routes.get_forecast_by_id settings E city_id cnt w
      ≠ (HTTPException 500 detail, w') ∧
    weather_routes.get_filtered_forecast lower settings E city q cnt w
      ≠ (HTTPException 500 detail, w').
Proof.
  intros Hup detail w'.
  assert (∀ {A} (body : WeatherService.t → py A),
            (∀ service, never_raises_base (body service)) →
            weather_routes.weather_errors
              (let* service := __init__ settings in body service) w
              ≠ (HTTPException 500 detail, w')) as Hroute.
  { intros A body Hbody Hrun.
    apply weather_errors_500 in Hrun as (e & Hrun & Hbase).
    revert Hbase. eapply never_raises_base_bind; [| |exact Hrun].
    - apply init_never_raises_base.
    - done. }
  assert (∀ service city, never_raises_base
            (WeatherServiceMethods.get_forecast service E city cnt)) as Hforecast.
  { intros service city'. rewrite get_forecast_query.
    apply query_never_raises_base;
      auto using forecast_response_never_raises_base. }
  repeat split; apply Hroute; intros service.
  - rewrite get_current_weather_query.
    apply query_never_raises_base; auto using weather_response_never_raises_base.
  - rewrite get_weather_by_id_query.
    apply query_never_raises_base; auto using weather_response_never_raises_base.
  - apply Hforecast.
  - rewrite get_forecast_by_id_query.
    apply query_never_raises_base;
      auto using forecast_response_never_raises_base.
  - apply never_raises_base_bind; [apply Hforecast|].
    intros forecast. apply never_raises_base_ret.
Qed.

(** X18: without an API key nothing works, the cache routes included.
    Every route constructs the service first, and the constructor raises:
    the weather routes answer 401 with the configuration message, the two
    cache routes answer 500 and remove nothing, and [/health] reports
    [api_configured] false.  No request is sent and the world is as it
    was. *)
Theorem unconfigured_application settings E now listing city city_id cnt q w :
  openweather_api_key settings = "" →
  weather_routes.get_current_weather settings E city w
    = (HTTPException 401 not_configured, w) ∧
  weather_routes.get_current_weather_by_id settings E city_id w
    = (HTTPException 401 not_configured, w) ∧
  weather_routes.get_forecast settings E city cnt w
    = (HTTPException 401 not_configured, w) ∧
  weather_routes.get_forecast_by_id settings E city_id cnt w
    = (HTTPException 401 not_configured, w) ∧
  weather_routes.get_filtered_forecast lower settings E city q cnt w
    = (HTTPException 401 not_configured, w) ∧
  weather_routes.clear_cache settings listing w
    = (HTTPException 500 ("Failed to clear cache: " +:+ not_configured), w) ∧
  weather_routes.clear_expired_cache settings now listing w
    = (HTTPException 500
         ("Failed to clear expired cache: " +:+ not_configured), w) ∧
  main.api_configured (main.health_check settings) = false.
Proof.
  intros Hkey.
  assert (∀ {A} (body : WeatherService.t → py A),
            weather_routes.weather_errors
              (let* service := __init__ settings in body service) w =
            (HTTPException 401 not_configured, w)) as Hweather.
  { intros A body. unfold weather_routes.weather_errors, bind.
    by rewrite (init_unconfigured _ _ Hkey). }
  assert (∀ {A} what (body : WeatherService.t → py A),
            weather_routes.cache_errors what
              (let* service := __init__ settings in body service) w =
            (HTTPException 500 (what +:+ not_configured), w)) as Hcache.
  { intros A what body. unfold weather_routes.cache_errors, bind.
    by rewrite (init_unconfigured _ _ Hkey). }
  repeat split; try apply Hweather; try apply Hcache.
  unfold main.health_check. cbn [main.api_configured]. by rewrite Hkey.
Qed.


(** X20: the route [DELETE /weather/cache/clear] of a configured
    application always answers 200: its body carries the number of files
    that left the directory and the message spells that number. *)
Theorem clear_cache_route_counts settings listing w :
  openweather_api_key settings ≠ "" →
  CacheManager.glob_json listing w →
  ∃ n w',
    weather_routes.clear_cache settings listing w =
      (Sent {| weather_routes.message :=
                 "Successfully cleared " +:+ pretty n +:+ " cache files";
               weather_routes.count := n |}, w') ∧
    Z.of_nat (size (files w)) = n + Z.of_nat (size (files w')) ∧
    ∀ name, files w' !! name =
      if CacheManager.is_json_name name && loose w name then None
      else files w !! name.
Proof.
  intros Hkey Hglob.
  destruct (clear_removes_loose (cache (service_of settings)) listing w Hglob)
    as (n & w' & Hrun & Hsize & _ & Hfiles).
  exists n, w'. split; [|done].
  unfold weather_routes.clear_cache, weather_routes.cache_errors.
  unfold bind at 1. rewrite (init_configured _ _ Hkey).
  unfold bind, WeatherServiceMethods.clear_cache. by rewrite Hrun.
Qed.

(** X21: the route [DELETE /weather/cache/clear-expired] answers 500 when
    one stale file cannot be unlinked: the sweep's [PermissionError]
    reaches the route's [except Exception].  The stale files listed
    before that one are already gone and are not reported; the files
    listed after it are not examined. *)
Theorem clear_expired_route_fails_on_pinned_file
    settings now pre x rest w c :
  openweather_api_key settings ≠ "" →
  NoDup (pre ++ x :: rest) →
  (∀ name, name ∈ pre → is_Some (files w !! name) ∧ name ∉ pinned w) →
  files w !! x = Some c →
  stale_content (cache (service_of settings)) (now x) c = true →
  x ∈ pinned w →
  (∀ name, utcoffset (now name) = None) →
  ttl_in_range (cache (service_of settings)) = true →
  ∃ detail w',
    weather_routes.clear_expired_cache settings now (pre ++ x :: rest) w =
      (HTTPException 500 ("Failed to clear expired cache: " +:+ detail), w') ∧
    (∀ name, name ∈ pre →
       stale_file (cache (service_of settings)) now w name = true →
       files w' !! name = None) ∧
    (∀ name, name ∈ x :: rest → files w' !! name = files w !! name).
Proof.
  intros Hkey Hnd Hpre Hc Hstale Hp Hnow Httl.
  pose proof (clear_expired_raises_at_pinned _ _ _ _ _ _ _
                Hnd Hpre Hc Hstale Hp Hnow Httl) as Hrun.
  eexists _, _. split; [|split].
  - unfold weather_routes.clear_expired_cache, weather_routes.cache_errors.
    unfold bind at 1. rewrite (init_configured _ _ Hkey).
    unfold bind, WeatherServiceMethods.clear_expired_cache. rewrite Hrun.
    by rewrite catches_Exception.
  - intros name Hin Hs. rewrite files_remove_all.
    rewrite bool_decide_eq_true_2; [done|]. by apply list_elem_of_filter.
  - intros name Hin. rewrite files_remove_all.
    rewrite bool_decide_eq_false_2; [done|].
    intros [_ Hin']%list_elem_of_filter.
    apply NoDup_app in Hnd as (_ & Hdisj & _). by apply (Hdisj name).
Qed.


(** X22: a damaged record blocks its key.  When the file of a city holds
    what [get] does not catch (a stamp that is not a string, a document
    that is not an object, a file that cannot be read), the route for
    that city never reaches the upstream: the exception leaves the route
    unhandled, no request is sent, and the file stays, so the next call
    meets it again. *)
Theorem damaged_record_blocks_the_route settings E city w c k :
  openweather_api_key settings ≠ "" →
  files w !! CacheManager._get_cache_file_path ("weather_" +:+ city) = Some c →
  unreadable (now_get E) c k →
  catches [JSONDecodeError; KeyError; ValueError] (Exn k "") = false →
  ∃ msg w',
    weather_routes.get_current_weather settings E city w =
      (Unhandled (Exn k msg), w') ∧
    files w' = files w ∧ requests w' = requests w.
Proof.
  intros Hkey Hf Hu Hk.
  set (w1 := with_heap (<[fresh (dom (heap w)) := [("q", PStr city)]]> (heap w)) w).
  destruct (get_uncaught (cache (service_of settings)) (now_get E)
              ("weather_" +:+ city) w1 c k Hf Hu Hk) as [msg Hget].
  exists msg, w1. split; [|done].
  unfold weather_routes.get_current_weather, weather_routes.weather_errors.
  unfold bind at 1. rewrite (init_configured _ _ Hkey).
  rewrite get_current_weather_query.
  unfold query, bind at 1, WeatherServiceMethods.new_dict. fold w1.
  unfold bind.
  rewrite (fetch_lookup_raises _ _ _ _ _ _ _ _ Hget).
  destruct Hu; first [done | by vm_compute in Hk].
Qed.

End Routes.

(** ** The filters of [get_filtered_forecast] *)

(** One criterion, when the query gives it. *)
Definition criterion {B} (given : option B) (holds : B → Prop) : Prop :=
  match given with
  | Some bound => holds bound
  | None => True
  end.

Global Instance criterion_dec {B} (given : option B) (holds : B → Prop)
  `{∀ bound, Decision (holds bound)} : Decision (criterion given holds).
Proof. destruct given; apply _. Defined.

Section Filtering.
Variable lower : string → string.
Import weather_routes.

Implicit Types (q : Filters) (item : ForecastItem.t) (items : list ForecastItem.t).

(** The condition the query filters by: an empty one counts as none. *)
Definition given_condition q : option string :=
  match weather_condition q with
  | Some condition => if String.eqb condition "" then None else Some condition
  | None => None
  end.

(** The item meets every criterion the query gives. *)
Definition meets q item : Prop :=
  criterion (given_condition q)
    (λ condition, lower (ForecastItem.weather_main item) = lower condition) ∧
  criterion (min_temp q)
    (λ bound, (bound <=? MainData.temp (ForecastItem.main item))%float = true) ∧
  criterion (max_temp q)
    (λ bound, (MainData.temp (ForecastItem.main item) <=? bound)%float = true) ∧
  criterion (min_humidity q)
    (λ bound, bound <= MainData.humidity (ForecastItem.main item)) ∧
  criterion (max_humidity q)
    (λ bound, MainData.humidity (ForecastItem.main item) <= bound).

Global Instance meets_dec q item : Decision (meets q item).
Proof. unfold meets. apply _. Defined.

Lemma filter_id {A} (P : A → Prop) `{∀ x, Decision (P x)} (l : list A) :
  (∀ x, P x) → filter P l = l.
Proof.
  intros HP. induction l as [| x l IH]; [done|].
  by rewrite filter_cons_True, IH.
Qed.

Lemma filter_none {A} (P : A → Prop) `{∀ x, Decision (P x)} (l : list A) :
  (∀ x, ¬ P x) → filter P l = [].
Proof.
  intros HP. induction l as [| x l IH]; [done|].
  by rewrite filter_cons_False.
Qed.

(** One pass of the route: filter when the criterion is given. *)
Lemma filter_criterion {B} (given : option B) (holds : B → ForecastItem.t → Prop)
    `{∀ bound item, Decision (holds bound item)} items :
  match given with
  | Some bound => filter (holds bound) items
  | None => items
  end = filter (λ item, criterion given (λ bound, holds bound item)) items.
Proof.
  destruct given as [bound|]; cbn [criterion].
  - by apply list_filter_iff.
  - symmetry. by apply filter_id.
Qed.

(** The five passes are one filter by the conjunction. *)
Lemma apply_filters_filter q items :
  apply_filters lower q items = filter (meets q) items.
Proof.
  unfold apply_filters. cbn zeta.
  assert (match weather_condition q with
          | Some condition =>
              if String.eqb condition "" then items
              else filter (λ item, lower (ForecastItem.weather_main item)
                                   = lower condition) items
          | None => items
          end =
          match given_condition q with
          | Some condition =>
              filter (λ item, lower (ForecastItem.weather_main item)
                              = lower condition) items
          | None => items
          end) as ->.
  { unfold given_condition. destruct (weather_condition q) as [c|]; [|done].
    by destruct (String.eqb c ""). }
  rewrite (filter_criterion (given_condition q)
             (λ condition item, lower (ForecastItem.weather_main item)
                                = lower condition)).
  rewrite (filter_criterion (min_temp q)
             (λ bound item,
                (bound <=? MainData.temp (ForecastItem.main item))%float = true)).
  rewrite (filter_criterion (max_temp q)
             (λ bound item,
                (MainData.temp (ForecastItem.main item) <=? bound)%float = true)).
  rewrite (filter_criterion (min_humidity q)
             (λ bound item, bound <= MainData.humidity (ForecastItem.main item))).
  rewrite (filter_criterion (max_humidity q)
             (λ bound item, MainData.humidity (ForecastItem.main item) <= bound)).
  rewrite !list_filter_filter. apply list_filter_iff.
  intros item. unfold meets. tauto.
Qed.

(** X23: the filters of the filter route select, in one reading: the five
    passes together keep exactly the items that meet every criterion the
    query gives, in their order; the result is a sublist of the forecast,
    and filtering it again changes nothing. *)
Theorem apply_filters_keeps_what_meets q items :
  apply_filters lower q items = filter (meets q) items ∧
  (∀ item, item ∈ apply_filters lower q items ↔ item ∈ items ∧ meets q item) ∧
  apply_filters lower q items `sublist_of` items ∧
  apply_filters lower q (apply_filters lower q items) =
    apply_filters lower q items.
Proof.
  rewrite !apply_filters_filter. split; [done|]. split; [|split].
  - intros item. rewrite list_elem_of_filter. tauto.
  - apply sublist_filter.
  - by apply list_filter_filter_l.
Qed.

(** X24: the corners of the filters.  With no criterion, and also with the
    empty string as the condition, the forecast comes back whole; a
    bound that is not a number (NaN) on the temperature selects nothing,
    and so does a humidity range whose minimum is above its maximum; an
    item with no weather description is selected only by a condition
    that reads [Unknown]. *)
Theorem apply_filters_corners q items :
  (given_condition q = None → min_temp q = None → max_temp q = None →
   min_humidity q = None → max_humidity q = None →
   apply_filters lower q items = items) ∧
  (weather_condition q = Some "" → given_condition q = None) ∧
  (min_temp q = Some nan ∨ max_temp q = Some nan →
   apply_filters lower q items = []) ∧
  (∀ lo hi, min_humidity q = Some lo → max_humidity q = Some hi → hi < lo →
   apply_filters lower q items = []) ∧
  (∀ item condition,
     ForecastItem.weather item = [] → given_condition q = Some condition →
     item ∈ apply_filters lower q items → lower condition = lower "Unknown").
Proof.
  rewrite !apply_filters_filter. repeat split.
  - intros Hc Hlo Hhi Hmin Hmax. apply filter_id. intros item.
    unfold meets. by rewrite Hc, Hlo, Hhi, Hmin, Hmax.
  - unfold given_condition. by intros ->.
  - intros Hnan. apply filter_none. intros item (_ & Hlo & Hhi & _).
    destruct Hnan as [Hnan | Hnan]; rewrite Hnan in *; cbn [criterion] in *.
    + by rewrite leb_nan_l in Hlo.
    + by rewrite leb_nan_r in Hhi.
  - intros lo hi Hlo Hhi Hlt. apply filter_none.
    intros item (_ & _ & _ & Hmin & Hmax).
    rewrite Hlo in Hmin. rewrite Hhi in Hmax. cbn [criterion] in *. lia.
  - intros item condition Hweather Hgiven [[Hc _] _]%list_elem_of_filter.
    rewrite Hgiven in Hc. cbn [criterion] in Hc.
    unfold ForecastItem.weather_main in Hc. by rewrite Hweather in Hc.
Qed.

End Filtering.

(** ** Concrete data for the further examples *)

Module MoreExamples.
Import Examples.

(** The settings of an application whose key is configured. *)
Definition configured : Settings :=
  {| openweather_api_key := "k3y";
     openweather_base_url := openweather_base_url default_settings;
     cache_expiry_seconds := cache_expiry_seconds default_settings;
     api_timeout := api_timeout default_settings |}.

(** [str.lower] on ASCII text. *)
Definition ascii_lower (s : string) : string :=
  map_chars
    (λ c, let n := nat_of_ascii c in
          if (65 <=? n)%nat && (n <=? 90)%nat then ascii_of_nat (n + 32) else c)
    s.

Definition mild : MainData.t :=
  {| MainData.temp := 7; MainData.feels_like := 5;
     MainData.temp_min := 6; MainData.temp_max := 8;
     MainData.pressure := 1012; MainData.humidity := 81;
     MainData.sea_level := None; MainData.grnd_level := None |}.

Definition item_named (name : string) : WeatherItem.t :=
  {| WeatherItem.coord := {| CoordinateData.lon := 0; CoordinateData.lat := 51 |};
     WeatherItem.weather :=
       [ {| WeatherDescription.id := 500; WeatherDescription.main := "Rain";
            WeatherDescription.description := "light rain";
            WeatherDescription.icon := "10d" |} ];
     WeatherItem.base := "stations";
     WeatherItem.main := mild;
     WeatherItem.visibility := 10000;
     WeatherItem.wind :=
       {| WindData.speed := 4; WindData.deg := 240; WindData.gust := None |};
     WeatherItem.clouds := {| CloudsData.all := 75 |};
     WeatherItem.dt := 1705320000;
     WeatherItem.timezone := 0;
     WeatherItem.id := 2643743;
     WeatherItem.name := name;
     WeatherItem.cod := 200 |}.

Definition no_forecast (name : string) : ForecastResponse.t :=
  {| ForecastResponse.cod := "200"; ForecastResponse.message := 0;
     ForecastResponse.cnt := 0; ForecastResponse.list := [];
     ForecastResponse.city :=
       {| CityData.id := 2643743; CityData.name := name;
          CityData.coord :=
            {| CoordinateData.lon := 0; CoordinateData.lat := 51 |};
          CityData.country := "GB"; CityData.population := 0;
          CityData.timezone := 0; CityData.sunrise := 0; CityData.sunset := 0 |};
     ForecastResponse.cached := false; ForecastResponse.cached_at := None |}.

(** A validation that looks at the name only. *)
Definition by_name : Pydantic :=
  {| WeatherItem_validate ms :=
       match members_get "name" ms with
       | Some (JStr name) => inr (item_named name)
       | _ => inl "1 validation error for WeatherItem"
       end;
     ForecastResponse_validate ms :=
       match members_get "name" ms with
       | Some (JStr name) => inr (no_forecast name)
       | _ => inl "1 validation error for ForecastResponse"
       end |}.

(** A city name of 250 letters: with [weather_] in front and [.json]
    behind, more than a file name can hold. *)
Definition endless_city : string :=
  Eval cbv in (fix letters (n : nat) : string :=
                 match n with
                 | O => ""
                 | S n' => String "a" (letters n')
                 end) 250%nat.

(** One record written at 11:50 that the file system refuses to unlink,
    listed between two it lets go. *)
Definition stuck_record : world :=
  World (list_to_map
           [ ("weather_London.json", stored_at (at_time 11 50 0));
             ("weather_Paris.json", stored_at (at_time 11 50 0));
             ("weather_Rome.json", stored_at (at_time 11 50 0)) ])
        {[ "weather_Paris.json" ]} ∅ [] [].

End MoreExamples.

(** ** The further properties at concrete inputs *)

Section MoreInstances.
Import Examples MoreExamples.
#[local] Existing Instance iso8601.
#[local] Existing Instance by_name.

(** A record stored at 12:00:00 and read at 12:05:01: the miss removes
    the file and nothing else. *)
Lemma get_touches_only_its_file_witness :
  (CacheManager.get manager (at_time 12 5 1) "weather_London" one_record).2 =
    without "weather_London.json" one_record.
Proof.
  exact (proj1 (get_touches_only_its_file manager (at_time 12 5 1)
                  "weather_London" one_record _ _ (surjective_pairing _))).
Defined.

(** After that miss the file is gone, and a read at 12:00:30 misses too. *)
Lemma get_miss_is_stable_witness :
  CacheManager.get manager (at_time 12 0 30) "weather_London"
    (without "weather_London.json" one_record) =
    (Return None, without "weather_London.json" one_record).
Proof.
  exact (proj2 (get_miss_is_stable manager (at_time 12 5 1) "weather_London"
                  one_record (without "weather_London.json" one_record)
                  eq_refl) manager (at_time 12 0 30)).
Defined.

(** A hit at 12:01:00, and what [get] gives at 12:04:00. *)
Lemma get_hit_then_later_reads_witness :
  ∃ stamp,
    cached_at {| data := london; cached := true;
                 cached_at := Some (at_time 12 0 0) |} = Some stamp ∧
    cached {| data := london; cached := true;
              cached_at := Some (at_time 12 0 0) |} = true ∧
    one_record = one_record ∧
    age_us (at_time 12 1 0) stamp
      <= seconds_us (CacheManager.expiry_seconds manager) ∧
    CacheManager.get manager (at_time 12 4 0) "weather_London" one_record =
      if seconds_us (CacheManager.expiry_seconds manager)
           <? age_us (at_time 12 4 0) stamp
      then
        if bool_decide (CacheManager._get_cache_file_path "weather_London"
                          ∈ pinned one_record)
        then (Raise (Exn PermissionError ""), one_record)
        else (Return None,
              without (CacheManager._get_cache_file_path "weather_London")
                one_record)
      else (Return (Some {| data := london; cached := true;
                            cached_at := Some (at_time 12 0 0) |}), one_record).
Proof.
  exact (get_hit_then_later_reads manager (at_time 12 1 0) (at_time 12 4 0)
           "weather_London" one_record _ one_record eq_refl eq_refl eq_refl).
Defined.

(** Writing Paris does not disturb the record of London. *)
Lemma set_then_get_other_key_witness :
  CacheManager.get manager (at_time 12 1 0) "weather_London"
    (CacheManager.set manager (at_time 12 0 30) Written "weather_Paris" paris
       one_record).2 =
    ((CacheManager.get manager (at_time 12 1 0) "weather_London" one_record).1,
     (CacheManager.set manager (at_time 12 0 30) Written "weather_Paris" paris
        (CacheManager.get manager (at_time 12 1 0) "weather_London"
           one_record).2).2).
Proof.
  apply (set_then_get_other_key manager (at_time 12 1 0) (at_time 12 0 30)
           Written "weather_Paris" "weather_London" paris one_record).
  discriminate.
Defined.

(** What was stored for [Frankfurt/Oder] is served for [Frankfurt:Oder]. *)
Lemma colliding_keys_share_entry_witness :
  ∃ w1,
    CacheManager.set manager (at_time 12 0 0) Written
      "weather_Frankfurt/Oder" london empty = (Return tt, w1) ∧
    CacheManager.get manager (at_time 12 1 0) "weather_Frankfurt:Oder" w1 =
      (Return (Some {| data := london; cached := true;
                       cached_at := Some (at_time 12 0 0) |}), w1).
Proof.
  apply (colliding_keys_share_entry manager (at_time 12 0 0) (at_time 12 1 0)
           "weather_Frankfurt/Oder" "weather_Frankfurt:Oder" london empty);
    [reflexivity | reflexivity | reflexivity | reflexivity | reflexivity
     | by vm_compute].
Defined.

(** A write for London that fails midway, then a read. *)
Lemma failed_write_then_get_witness :
  ∃ w1,
    CacheManager.set manager (at_time 12 1 0)
      (DumpFailed (Exn OSError "No space left on device"))
      "weather_London" paris one_record = (Return tt, w1) ∧
    CacheManager.get manager (at_time 12 2 0) "weather_London" w1 =
      (Return None,
       without (CacheManager._get_cache_file_path "weather_London") w1) ∧
    stdout w1 =
      stdout one_record ++ [warning (Exn OSError "No space left on device")].
Proof.
  apply (proj1 (failed_write_then_get manager (at_time 12 1 0) (at_time 12 2 0)
                  "weather_London" paris
                  (Exn OSError "No space left on device") one_record)).
  apply not_elem_of_empty.
Defined.

(** [clear] on the five records. *)
Lemma clear_counts_removed_files_witness :
  ∃ n w',
    CacheManager.clear manager (CacheManager.listdir five_records) five_records
      = (Return n, w') ∧
    Z.of_nat (size (files five_records)) = n + Z.of_nat (size (files w')) ∧
    (∀ name, files w' !! name =
       if CacheManager.is_json_name name && loose five_records name
       then None else files five_records !! name) ∧
    ∀ self' now key,
      CacheManager._get_cache_file_path key ∉ pinned five_records →
      CacheManager.get self' now key w' =
        if name_fits (CacheManager._get_cache_file_path key)
        then (Return None, w')
        else (Raise (Exn OSError ""), w').
Proof.
  exact (clear_counts_removed_files manager (CacheManager.listdir five_records)
           five_records (glob_json_listdir _)).
Defined.

(** [clear_expired] on the five records at 12:00:00. *)
Lemma clear_expired_total_witness :
  ∃ n w',
    CacheManager.clear_expired manager (λ _, at_time 12 0 0)
      (CacheManager.listdir five_records) five_records = (Return n, w') ∧
    Z.of_nat (size (files five_records)) = n + Z.of_nat (size (files w')) ∧
    (∀ name, files w' !! name =
       if CacheManager.is_json_name name
          && stale_file manager (λ _, at_time 12 0 0) five_records name
       then None else files five_records !! name) ∧
    ∀ now' key,
      utcoffset now' = None →
      (∃ r w'', CacheManager.get manager now' key w' = (Return r, w'')) ∨
      (name_fits (CacheManager._get_cache_file_path key) = false ∧
       CacheManager.get manager now' key w' = (Raise (Exn OSError ""), w')).
Proof.
  apply (clear_expired_total manager (λ _, at_time 12 0 0)
           (CacheManager.listdir five_records) five_records
           (glob_json_listdir _));
    [intros name; apply not_elem_of_empty | reflexivity | reflexivity].
Defined.

(** London goes, Paris cannot be unlinked, Rome is never looked at. *)
Lemma clear_expired_stops_at_pinned_file_witness :
  ∃ w',
    CacheManager.clear_expired manager (λ _, at_time 12 0 0)
      (["weather_London.json"] ++ "weather_Paris.json" :: ["weather_Rome.json"])
      stuck_record = (Raise (Exn PermissionError ""), w') ∧
    (∀ name, name ∈ "weather_Paris.json" :: ["weather_Rome.json"] →
       files w' !! name = files stuck_record !! name) ∧
    (∀ name, name ∈ ["weather_London.json"] →
       files w' !! name =
         if stale_file manager (λ _, at_time 12 0 0) stuck_record name
         then None else files stuck_record !! name) ∧
    ∃ n w'',
      CacheManager.clear manager
        (["weather_London.json"] ++ "weather_Paris.json" :: ["weather_Rome.json"])
        stuck_record = (Return n, w'').
Proof.
  apply (clear_expired_stops_at_pinned_file manager (λ _, at_time 12 0 0)
           ["weather_London.json"] "weather_Paris.json" ["weather_Rome.json"]
           stuck_record (stored_at (at_time 11 50 0)));
    [ | | reflexivity | by vm_compute | by vm_compute
      | reflexivity | reflexivity].
  - cbn [app]. repeat (apply NoDup_cons; split);
      [| | | apply NoDup_nil_2];
      rewrite ?elem_of_cons, elem_of_nil; intros H; by repeat destruct H as [H|H].
  - intros name ->%list_elem_of_singleton. split; [by eexists|].
    by vm_compute.
Defined.

(** The caller's [{'q': 'London'}] through [_build_url]. *)
Lemma build_url_appends_credentials_witness :
  WeatherService._build_url service "weather" 1%nat no_record =
    (Return "https://api.openweathermap.org/data/2.5/weather?q=London&appid=k3y&units=metric",
     with_heap
       (<[1%nat := [("q", PStr "London"); ("appid", PStr "k3y");
                    ("units", PStr "metric")]]> (heap no_record))
       no_record).
Proof.
  exact (proj1 (build_url_appends_credentials service "weather" 1%nat
                  [("q", PStr "London")] no_record eq_refl eq_refl eq_refl)).
Defined.

(** A fetch at 12:00:00 that caches Paris, then one at 12:04:00 while the
    upstream times out. *)
Lemma second_fetch_is_served_from_cache_witness :
  ∃ w1,
    WeatherService._fetch_data service
      (env_at (at_time 12 0 0) (Responds (ok_response paris)))
      "weather" 1%nat "weather_Paris" no_record =
      (Return {| data := paris; cached := false; cached_at := None |}, w1) ∧
    WeatherService._fetch_data service (env_at (at_time 12 4 0) timed_out)
      "weather" 1%nat "weather_Paris" w1 =
      (Return {| data := paris; cached := true;
                 cached_at := Some (at_time 12 0 0) |}, w1).
Proof.
  destruct (second_fetch_is_served_from_cache service
              (env_at (at_time 12 0 0) (Responds (ok_response paris)))
              "weather" 1%nat "weather_Paris" no_record no_record
              (ok_response paris) paris
              eq_refl eq_refl eq_refl eq_refl eq_refl eq_refl eq_refl eq_refl)
    as (w1 & Hfirst & Hsecond).
  exists w1. split; [exact Hfirst|].
  apply (Hsecond (env_at (at_time 12 4 0) timed_out) "weather" 1%nat);
    [reflexivity | by vm_compute].
Defined.

(** Two fetches while the upstream times out: the same request twice. *)
Lemma failed_fetch_is_retried_witness :
  ∃ e w1,
    WeatherService._fetch_data service (env_at (at_time 12 0 0) timed_out)
      "weather" 1%nat "weather_London" no_record = (Raise e, w1) ∧
    files w1 = files no_record ∧
    requests w1 =
      requests no_record ++ [url_of service "weather" 1%nat no_record] ∧
    requests (WeatherService._fetch_data service
                (env_at (at_time 12 1 0) timed_out)
                "weather" 1%nat "weather_London" w1).2 =
      requests no_record ++
        [url_of service "weather" 1%nat no_record;
         url_of service "weather" 1%nat no_record].
Proof.
  exact (failed_fetch_is_retried service (env_at (at_time 12 0 0) timed_out)
           (env_at (at_time 12 1 0) timed_out) "weather" 1%nat "weather_London"
           no_record eq_refl eq_refl eq_refl).
Defined.

(** The caller's dictionary at reference 1 after the four methods. *)
Lemma public_methods_leave_dictionaries_alone_witness :
  heap (WeatherServiceMethods.get_current_weather service
          (env_at (at_time 12 0 0) timed_out) "London" no_record).2 !! 1%nat
    = Some [("q", PStr "London")].
Proof.
  refine (proj1 (public_methods_leave_dictionaries_alone service
                   (env_at (at_time 12 0 0) timed_out) "London" 2643743 8
                   no_record 1%nat _)).
  by vm_compute.
Defined.

(** The request for London's weather, and for eight entries of its
    forecast; for the city of 250 letters nothing is sent. *)
Lemma public_methods_request_urls_witness :
  requests (WeatherServiceMethods.get_current_weather service
              (env_at (at_time 12 0 0) timed_out) "London" no_record).2 =
    ["https://api.openweathermap.org/data/2.5/weather?q=London&appid=k3y&units=metric"] ∧
  requests (WeatherServiceMethods.get_forecast service
              (env_at (at_time 12 0 0) timed_out) "London" 8 no_record).2 =
    ["https://api.openweathermap.org/data/2.5/forecast?q=London&cnt=8&appid=k3y&units=metric"] ∧
  requests (WeatherServiceMethods.get_current_weather service
              (env_at (at_time 12 0 0) timed_out) endless_city no_record).2 =
    [].
Proof.
  pose proof (public_methods_request_urls service
                (env_at (at_time 12 0 0) timed_out) "London" 2643743 8 no_record)
    as (Hweather & _ & Hforecast & _).
  pose proof (public_methods_request_urls service
                (env_at (at_time 12 0 0) timed_out) endless_city 2643743 8
                no_record)
    as (Hendless & _).
  split; [exact (Hweather eq_refl) | split; [exact (Hforecast eq_refl)|]].
  exact (Hendless eq_refl).
Defined.

(** London's weather fetched by its id, then asked for as the city
    [id_2643743]. *)
Lemma city_named_like_an_id_shares_entry_witness :
  ∃ w1,
    WeatherServiceMethods.get_weather_by_id service
      (env_at (at_time 12 0 0) (Responds (ok_response london))) 2643743
      no_record =
      (Return {| WeatherResponse.data := item_named "London";
                 WeatherResponse.cached := false;
                 WeatherResponse.cached_at := None |}, w1) ∧
    ∃ w2,
      WeatherServiceMethods.get_current_weather service
        (env_at (at_time 12 1 0) timed_out) "id_2643743" w1 =
        (Return {| WeatherResponse.data := item_named "London";
                   WeatherResponse.cached := true;
                   WeatherResponse.cached_at := Some (at_time 12 0 0) |}, w2) ∧
      requests w2 = requests w1 ∧ files w2 = files w1.
Proof.
  destruct (@city_named_like_an_id_shares_entry iso8601 by_name service
              (env_at (at_time 12 0 0) (Responds (ok_response london)))
              2643743 no_record (ok_response london)
              [("name", JStr "London"); ("main", JObj [("temp", JNum 7)])]
              (item_named "London")
              eq_refl eq_refl eq_refl eq_refl eq_refl eq_refl eq_refl eq_refl
              eq_refl eq_refl)
    as (w1 & Hfirst & Hsecond).
  exists w1. split; [exact Hfirst|].
  apply (Hsecond (env_at (at_time 12 1 0) timed_out));
    [reflexivity | by vm_compute].
Defined.

(** The upstream answers 404 for London: the route answers 404.  For
    the city of 250 letters the route does not get to ask. *)
Lemma weather_routes_map_upstream_failure_witness :
  (∃ w',
     weather_routes.get_current_weather configured
       (env_at (at_time 12 0 0) (Responds not_found)) "London" no_record =
       (HTTPException 404 "City not found: London", w')) ∧
  (∃ w',
     weather_routes.get_current_weather configured
       (env_at (at_time 12 0 0) (Responds not_found)) endless_city no_record =
       (Unhandled (Exn OSError ""), w') ∧
     files w' = files no_record ∧ requests w' = requests no_record).
Proof.
  split.
  - destruct (proj1 (proj1 (weather_routes_map_upstream_failure ascii_lower
                configured (env_at (at_time 12 0 0) (Responds not_found))
                "London" 2643743 8
                {| weather_routes.weather_condition := None;
                   weather_routes.min_temp := None;
                   weather_routes.max_temp := None;
                   weather_routes.min_humidity := None;
                   weather_routes.max_humidity := None |}
                no_record ltac:(discriminate) (λ _, eq_refl))) eq_refl eq_refl)
      as (status & detail & w' & Hrun & Hfailure & _).
    exists w'. rewrite Hrun. by injection Hfailure as <- <-.
  - exact (proj1 (proj2 (weather_routes_map_upstream_failure ascii_lower
                configured (env_at (at_time 12 0 0) (Responds not_found))
                endless_city 2643743 8
                {| weather_routes.weather_condition := None;
                   weather_routes.min_temp := None;
                   weather_routes.max_temp := None;
                   weather_routes.min_humidity := None;
                   weather_routes.max_humidity := None |}
                no_record ltac:(discriminate) (λ _, eq_refl))) eq_refl eq_refl).
Defined.

(** A route that timed out answers, and not with 500. *)
Lemma weather_routes_never_answer_500_witness :
  ∃ r w',
    weather_routes.get_current_weather configured
      (env_at (at_time 12 0 0) timed_out) "London" no_record = (r, w') ∧
    ∀ detail, r ≠ HTTPException 500 detail.
Proof.
  eexists _, _. split; [apply surjective_pairing|].
  intros detail Heq.
  refine (proj1 (weather_routes_never_answer_500 ascii_lower configured
                   (env_at (at_time 12 0 0) timed_out) "London" 2643743 8
                   {| weather_routes.weather_condition := None;
                      weather_routes.min_temp := None;
                      weather_routes.max_temp := None;
                      weather_routes.min_humidity := None;
                      weather_routes.max_humidity := None |}
                   no_record _ detail _) _).
  - by intros url e [= <-].
  - rewrite <- Heq. apply surjective_pairing.
Defined.

(** The application as shipped, with no key: clearing the five records
    answers 500 and removes none. *)
Lemma unconfigured_application_witness :
  weather_routes.clear_cache default_settings
    (CacheManager.listdir five_records) five_records =
    (HTTPException 500 ("Failed to clear cache: " +:+ not_configured),
     five_records).
Proof.
  exact (proj1 (proj2 (proj2 (proj2 (proj2 (proj2
           (unconfigured_application ascii_lower default_settings
              (env_at (at_time 12 0 0) timed_out) (λ _, at_time 12 0 0)
              (CacheManager.listdir five_records) "London" 2643743 8
              {| weather_routes.weather_condition := None;
                 weather_routes.min_temp := None;
                 weather_routes.max_temp := None;
                 weather_routes.min_humidity := None;
                 weather_routes.max_humidity := None |}
              five_records eq_refl))))))).
Defined.

(** With the key configured, clearing the five records. *)
Lemma clear_cache_route_counts_witness :
  ∃ n w',
    weather_routes.clear_cache configured
      (CacheManager.listdir five_records) five_records =
      (Sent {| weather_routes.message :=
                 "Successfully cleared " +:+ pretty n +:+ " cache files";
               weather_routes.count := n |}, w') ∧
    Z.of_nat (size (files five_records)) = n + Z.of_nat (size (files w')) ∧
    ∀ name, files w' !! name =
      if CacheManager.is_json_name name && loose five_records name then None
      else files five_records !! name.
Proof.
  apply (clear_cache_route_counts configured
           (CacheManager.listdir five_records) five_records);
    [discriminate | apply glob_json_listdir].
Defined.

(** The sweep route on the directory with the stuck record. *)
Lemma clear_expired_route_fails_on_pinned_file_witness :
  ∃ detail w',
    weather_routes.clear_expired_cache configured (λ _, at_time 12 0 0)
      (["weather_London.json"] ++ "weather_Paris.json" :: ["weather_Rome.json"])
      stuck_record =
      (HTTPException 500 ("Failed to clear expired cache: " +:+ detail), w') ∧
    files w' !! "weather_London.json" = None ∧
    files w' !! "weather_Rome.json" = files stuck_record !! "weather_Rome.json".
Proof.
  destruct (clear_expired_route_fails_on_pinned_file configured
              (λ _, at_time 12 0 0)
              ["weather_London.json"] "weather_Paris.json" ["weather_Rome.json"]
              stuck_record (stored_at (at_time 11 50 0)))
    as (detail & w' & Hrun & Hgone & Hkept);
    [ discriminate | | | reflexivity | by vm_compute | by vm_compute
      | reflexivity | reflexivity | ].
  - cbn [app]. repeat (apply NoDup_cons; split);
      [| | | apply NoDup_nil_2];
      rewrite ?elem_of_cons, elem_of_nil; intros H; by repeat destruct H as [H|H].
  - intros name ->%list_elem_of_singleton. split; [by eexists|].
    by vm_compute.
  - exists detail, w'. split; [exact Hrun|]. split.
    + apply Hgone; [by apply list_elem_of_singleton | by vm_compute].
    + apply Hkept. right. by apply list_elem_of_singleton.
Defined.

(** The record whose stamp is a number, behind the route. *)
Lemma damaged_record_blocks_the_route_witness :
  ∃ msg w',
    weather_routes.get_current_weather configured
      (env_at (at_time 12 5 0) (Responds (ok_response london))) "London"
      numeric_stamp = (Unhandled (Exn TypeError msg), w') ∧
    files w' = files numeric_stamp ∧ requests w' = requests numeric_stamp.
Proof.
  apply (damaged_record_blocks_the_route configured
           (env_at (at_time 12 5 0) (Responds (ok_response london))) "London"
           numeric_stamp
           (Doc (JObj [("data", london); ("cached_at", JNum 1705320000)]))
           TypeError);
    [discriminate | reflexivity | | reflexivity].
  by eapply stamp_not_str.
Defined.

End MoreInstances.
